(** * Scoring and reconciliation pipeline of [new_api1.py]

    A shallow embedding of the two functions of the service,
    [call_ai_model] (the response extractor, lines 49-108) and
    [analyze_data] (the request handler, lines 111-452), and the
    properties of the pipeline they implement.

    Python values are the values [json.loads] can build.  A [str] is the
    list of its Unicode code points.  A [dict] is an association list in
    insertion order.  Exceptions are values of [exn]; a computation that can
    raise returns a [result], one that also touches the results log or the
    text-generation service runs in the monad [M], which keeps the state an
    exception leaves behind.

    What the CPython runtime decides and the repository does not (IEEE
    arithmetic, [repr] of floats and containers, the wording of built-in
    error messages) is an interface, [PyFloat] and [PyRuntime]: every
    property below holds for all of its implementations.  The
    text-generation service and the clock are oracles of the environment
    [env]: a property that quantifies over [env] holds whatever the service
    answers.

    Not modelled: the identity of objects (the values the handler shares are
    never mutated after they are shared), the limits CPython puts on
    recursion and on the digits of an integer literal, a failure of [print]
    to write, and exceptions that are not an [Exception]. *)

From Stdlib Require Import List ZArith NArith Bool Lia String Ascii.
Import ListNotations.
Local Open Scope N_scope.

Set Implicit Arguments.

(** ** Text *)

(** A Python [str]: its code points. *)
Definition pystr := list N.

Fixpoint pystr_eqb (a b : pystr) : bool :=
  match a, b with
  | [], [] => true
  | x :: a', y :: b' => (x =? y) && pystr_eqb a' b'
  | _, _ => false
  end.

(** Literals of the source are written as UTF-8 string literals and decoded
    to code points. *)
Fixpoint utf8_decode (bs : list N) : pystr :=
  match bs with
  | [] => []
  | b :: r =>
      if b <? 128 then b :: utf8_decode r
      else if b <? 224 then
        match r with
        | b1 :: r' => ((b - 192) * 64 + (b1 - 128)) :: utf8_decode r'
        | _ => []
        end
      else if b <? 240 then
        match r with
        | b1 :: b2 :: r' =>
            ((b - 224) * 4096 + (b1 - 128) * 64 + (b2 - 128)) :: utf8_decode r'
        | _ => []
        end
      else
        match r with
        | b1 :: b2 :: b3 :: r' =>
            ((b - 240) * 262144 + (b1 - 128) * 4096 + (b2 - 128) * 64 + (b3 - 128))
              :: utf8_decode r'
        | _ => []
        end
  end.

Definition u (s : string) : pystr :=
  utf8_decode (map N_of_ascii (list_ascii_of_string s)).

(** JSON text is written with single quotes in this file; [jq] turns each
    into the double quote the wire format has. *)
Definition jq (s : string) : pystr :=
  map (fun c => if c =? 39 then 34 else c) (u s).

(** ['\s'] of a [str] pattern: the code points [str.isspace] accepts. *)
Definition is_space (c : N) : bool :=
  ((9 <=? c) && (c <=? 13)) || ((28 <=? c) && (c <=? 32))
  || (c =? 133) || (c =? 160) || (c =? 5760)
  || ((8192 <=? c) && (c <=? 8202))
  || (c =? 8232) || (c =? 8233) || (c =? 8239) || (c =? 8287) || (c =? 12288).

(** The whitespace [json.loads] skips between tokens. *)
Definition is_json_ws (c : N) : bool :=
  (c =? 32) || (c =? 9) || (c =? 10) || (c =? 13).

Definition is_digit (c : N) : bool := (48 <=? c) && (c <=? 57).

(** Decimal text of a number, for [str(int)]. *)
Fixpoint digits_of_pos (fuel : nat) (n : N) (acc : pystr) : pystr :=
  match fuel with
  | O => acc
  | S f =>
      let acc' := (48 + n mod 10) :: acc in
      if n <? 10 then acc' else digits_of_pos f (n / 10) acc'
  end.

Definition str_of_N (n : N) : pystr := digits_of_pos (S (N.to_nat (N.log2 n))) n [].

Definition str_of_Z (z : Z) : pystr :=
  match z with
  | Z0 => [48]
  | Zpos p => str_of_N (Npos p)
  | Zneg p => 45 :: str_of_N (Npos p)
  end.

(** ** Floats *)

(** Python's [float] is IEEE binary64; the operations the service reaches.
    [float_of_int] is [int.__float__] ([None]: [OverflowError]),
    [float_of_literal] is [float(text)] on a JSON number token or on
    [NaN], [Infinity], [-Infinity]. *)
Class PyFloat := {
  float : Type;
  float_of_int : Z -> option float;
  float_add : float -> float -> float;
  float_bool : float -> bool;
  float_eqb : float -> float -> bool;
  float_eqb_int : float -> Z -> bool;
  float_of_literal : pystr -> float
}.

Section Values.

Context {F : PyFloat}.

(** ** JSON values *)

Unset Elimination Schemes.
Inductive json :=
| JNull
| JBool (b : bool)
| JInt (z : Z)
| JFloat (f : float)
| JStr (s : pystr)
| JList (l : list json)
| JDict (d : list (pystr * json)).
Set Elimination Schemes.

Definition dict := list (pystr * json).

(** *** Dictionaries, in insertion order *)

Fixpoint dict_get (k : pystr) (d : dict) : option json :=
  match d with
  | [] => None
  | (k', v) :: r => if pystr_eqb k k' then Some v else dict_get k r
  end.

(** [d[k] = v]: replaces in place, or appends. *)
Fixpoint dict_set (d : dict) (k : pystr) (v : json) : dict :=
  match d with
  | [] => [(k, v)]
  | (k', v') :: r =>
      if pystr_eqb k k' then (k', v) :: r else (k', v') :: dict_set r k v
  end.

Definition dict_mem (k : pystr) (d : dict) : bool :=
  match dict_get k d with Some _ => true | None => false end.

(** [d.get(k, default)]. *)
Definition get_default (d : dict) (k : pystr) (default : json) : json :=
  match dict_get k d with Some v => v | None => default end.

Definition keys (d : dict) : list pystr := map fst d.

(** ** Exceptions *)

(** Every handler of the source is [except Exception], so the class of an
    exception is never observed, only [str(e)]. *)
Inductive exn :=
| TypeError (operation : pystr) (v : json)
| AttributeError (v : json) (attribute : pystr)
| KeyError (k : pystr)
| SliceError (v : json)
| JSONDecodeError (doc : pystr)
| OverflowError
| ClientError (msg : pystr)
| PlainException (msg : pystr).

Inductive result (A : Type) :=
| Ok (a : A)
| Raise (e : exn).
Arguments Ok {A} a.
Arguments Raise {A} e.

Definition rbind {A B} (r : result A) (k : A -> result B) : result B :=
  match r with Ok a => k a | Raise e => Raise e end.

End Values.

Arguments Ok {F A} a.
Arguments Raise {F A} e.

Notation "x <- r ;; k" := (rbind r (fun x => k))
  (at level 61, r at next level, right associativity).
Notation "' p <- r ;; k" := (rbind r (fun x => match x with p => k end))
  (at level 61, p pattern, r at next level, right associativity).

(** ** [json.loads]

    The decoder of the standard library, as a machine that reads the text
    one code point at a time: a lexer state, and below it the stack of the
    containers that are open.  It accepts what [json.loads] accepts with its
    defaults ([strict=True], the constants [NaN], [Infinity], [-Infinity]
    allowed) and builds the same value; the limits CPython puts on nesting
    depth and on the number of digits of an integer are not modelled. *)

Section Decoder.

Context {F : PyFloat}.

Inductive token :=
| TPunct (c : N)
| TString (s : pystr)
| TScalar (v : json).

(** A container waiting for the value being read. *)
Inductive frame :=
| InList (acc : list json)
| InDict (d : dict) (k : pystr).

Inductive pstate :=
| PValue (stk : list frame)
| PArrayOpen (stk : list frame)
| PObjectOpen (stk : list frame)
| PKey (d : dict) (stk : list frame)
| PColon (d : dict) (k : pystr) (stk : list frame)
| PAfterItem (acc : list json) (stk : list frame)
| PAfterEntry (d : dict) (stk : list frame)
| PDone (v : json)
| PFail.

Definition give (v : json) (stk : list frame) : pstate :=
  match stk with
  | [] => PDone v
  | InList acc :: stk' => PAfterItem (v :: acc) stk'
  | InDict d k :: stk' => PAfterEntry (dict_set d k v) stk'
  end.

Definition begin_value (t : token) (stk : list frame) : pstate :=
  match t with
  | TScalar v => give v stk
  | TString s => give (JStr s) stk
  | TPunct c =>
      if c =? 91 then PArrayOpen stk
      else if c =? 123 then PObjectOpen stk
      else PFail
  end.

Definition is_punct (t : token) (c : N) : bool :=
  match t with TPunct c' => c' =? c | _ => false end.

Definition pstep (p : pstate) (t : token) : pstate :=
  match p with
  | PValue stk => begin_value t stk
  | PArrayOpen stk =>
      if is_punct t 93 then give (JList []) stk
      else begin_value t (InList [] :: stk)
  | PObjectOpen stk =>
      if is_punct t 125 then give (JDict []) stk
      else match t with TString k => PColon [] k stk | _ => PFail end
  | PKey d stk =>
      match t with TString k => PColon d k stk | _ => PFail end
  | PColon d k stk =>
      if is_punct t 58 then PValue (InDict d k :: stk) else PFail
  | PAfterItem acc stk =>
      if is_punct t 44 then PValue (InList acc :: stk)
      else if is_punct t 93 then give (JList (rev acc)) stk
      else PFail
  | PAfterEntry d stk =>
      if is_punct t 44 then PKey d stk
      else if is_punct t 125 then give (JDict d) stk
      else PFail
  | PDone _ => PFail
  | PFail => PFail
  end.

(** Where the lexer is inside a number; [NZero], [NInt], [NFrac] and
    [NExpDigits] are the places where the number may end. *)
Inductive numstate :=
| NMinus | NZero | NInt | NDot | NFrac | NExp | NExpSign | NExpDigits.

Inductive lstate :=
| LIdle
| LString (acc : pystr) (hi : option N)
| LEscape (acc : pystr) (hi : option N)
| LHex (acc : pystr) (hi : option N) (n : nat) (v : N)
| LWord (rest : pystr) (v : json)
| LNum (st : numstate) (acc : pystr)
| LFail.

Definition hex_val (c : N) : option N :=
  if is_digit c then Some (c - 48)
  else if (97 <=? c) && (c <=? 102) then Some (c - 87)
  else if (65 <=? c) && (c <=? 70) then Some (c - 55)
  else None.

Definition escape_val (c : N) : option N :=
  if (c =? 34) || (c =? 92) || (c =? 47) then Some c
  else if c =? 98 then Some 8
  else if c =? 102 then Some 12
  else if c =? 110 then Some 10
  else if c =? 114 then Some 13
  else if c =? 116 then Some 9
  else None.

Definition is_high (x : N) : bool := (55296 <=? x) && (x <? 56320).
Definition is_low (x : N) : bool := (56320 <=? x) && (x <? 57344).
Definition join_surrogates (h l : N) : N :=
  65536 + (h - 55296) * 1024 + (l - 56320).

(** A high surrogate waits in [hi] for the low one that may follow. *)
Definition flush (hi : option N) (acc : pystr) : pystr :=
  match hi with Some h => h :: acc | None => acc end.

Definition int_of_digits (ds : pystr) : Z :=
  fold_left (fun a c => (a * 10 + Z.of_N (c - 48))%Z) ds 0%Z.

Definition int_of_text (t : pystr) : Z :=
  match t with
  | c :: ds => if c =? 45 then (- int_of_digits ds)%Z else int_of_digits t
  | [] => 0%Z
  end.

(** The value of a finished number token, [None] where it cannot end. *)
Definition number_value (st : numstate) (acc : pystr) : option json :=
  match st with
  | NZero | NInt => Some (JInt (int_of_text (rev acc)))
  | NFrac | NExpDigits => Some (JFloat (float_of_literal (rev acc)))
  | _ => None
  end.

Definition scan := (lstate * pstate)%type.

Definition emit (t : token) (p : pstate) : scan := (LIdle, pstep p t).

(** A code point met between tokens. *)
Definition idle_step (c : N) (p : pstate) : scan :=
  if is_json_ws c then (LIdle, p)
  else if (c =? 123) || (c =? 125) || (c =? 91) || (c =? 93) || (c =? 44) || (c =? 58)
  then emit (TPunct c) p
  else if c =? 34 then (LString [] None, p)
  else if c =? 45 then (LNum NMinus [c], p)
  else if c =? 48 then (LNum NZero [c], p)
  else if is_digit c then (LNum NInt [c], p)
  else if c =? 116 then (LWord (u "rue") (JBool true), p)
  else if c =? 102 then (LWord (u "alse") (JBool false), p)
  else if c =? 110 then (LWord (u "ull") JNull, p)
  else if c =? 78 then (LWord (u "aN") (JFloat (float_of_literal (u "NaN"))), p)
  else if c =? 73 then (LWord (u "nfinity") (JFloat (float_of_literal (u "Infinity"))), p)
  else (LFail, p).

(** The number ends before [c], which is then read as between tokens. *)
Definition end_number (st : numstate) (acc : pystr) (c : N) (p : pstate) : scan :=
  match number_value st acc with
  | Some v => idle_step c (pstep p (TScalar v))
  | None => (LFail, p)
  end.

Definition num_step (st : numstate) (acc : pystr) (c : N) (p : pstate) : scan :=
  let is_e := (c =? 101) || (c =? 69) in
  match st with
  | NMinus =>
      if c =? 48 then (LNum NZero (c :: acc), p)
      else if is_digit c then (LNum NInt (c :: acc), p)
      else if c =? 73
      then (LWord (u "nfinity") (JFloat (float_of_literal (u "-Infinity"))), p)
      else (LFail, p)
  | NZero =>
      if c =? 46 then (LNum NDot (c :: acc), p)
      else if is_e then (LNum NExp (c :: acc), p)
      else end_number st acc c p
  | NInt =>
      if is_digit c then (LNum NInt (c :: acc), p)
      else if c =? 46 then (LNum NDot (c :: acc), p)
      else if is_e then (LNum NExp (c :: acc), p)
      else end_number st acc c p
  | NDot =>
      if is_digit c then (LNum NFrac (c :: acc), p) else (LFail, p)
  | NFrac =>
      if is_digit c then (LNum NFrac (c :: acc), p)
      else if is_e then (LNum NExp (c :: acc), p)
      else end_number st acc c p
  | NExp =>
      if (c =? 43) || (c =? 45) then (LNum NExpSign (c :: acc), p)
      else if is_digit c then (LNum NExpDigits (c :: acc), p)
      else (LFail, p)
  | NExpSign =>
      if is_digit c then (LNum NExpDigits (c :: acc), p) else (LFail, p)
  | NExpDigits =>
      if is_digit c then (LNum NExpDigits (c :: acc), p)
      else end_number st acc c p
  end.

(** The fourth hex digit of a [\uXXXX] escape completes the code unit [x]. *)
Definition unit_done (acc : pystr) (hi : option N) (x : N) : lstate :=
  match hi with
  | Some h =>
      if is_low x then LString (join_surrogates h x :: acc) None
      else if is_high x then LString (h :: acc) (Some x)
      else LString (x :: h :: acc) None
  | None =>
      if is_high x then LString acc (Some x) else LString (x :: acc) None
  end.

Definition step (s : scan) (c : N) : scan :=
  let (l, p) := s in
  match l with
  | LIdle => idle_step c p
  | LString acc hi =>
      if c =? 34 then emit (TString (rev (flush hi acc))) p
      else if c =? 92 then (LEscape acc hi, p)
      else if c <? 32 then (LFail, p)
      else (LString (c :: flush hi acc) None, p)
  | LEscape acc hi =>
      if c =? 117 then (LHex acc hi 0 0, p)
      else match escape_val c with
           | Some x => (LString (x :: flush hi acc) None, p)
           | None => (LFail, p)
           end
  | LHex acc hi n v =>
      match hex_val c with
      | Some d =>
          let v' := v * 16 + d in
          if Nat.eqb n 3 then (unit_done acc hi v', p) else (LHex acc hi (S n) v', p)
      | None => (LFail, p)
      end
  | LWord rest v =>
      match rest with
      | r0 :: rest' =>
          if c =? r0
          then match rest' with [] => emit (TScalar v) p | _ => (LWord rest' v, p) end
          else (LFail, p)
      | [] => (LFail, p)
      end
  | LNum st acc => num_step st acc c p
  | LFail => (LFail, p)
  end.

(** End of the text: a number may end here, a string or a word may not. *)
Definition finish (s : scan) : option json :=
  let (l, p) := s in
  let p' := match l with
            | LIdle => p
            | LNum st acc =>
                match number_value st acc with
                | Some v => pstep p (TScalar v)
                | None => PFail
                end
            | _ => PFail
            end in
  match p' with PDone v => Some v | _ => None end.

Definition start : scan := (LIdle, PValue []).

Definition decode (doc : pystr) : option json := finish (fold_left step doc start).

Definition json_loads (doc : pystr) : result json :=
  match decode doc with
  | Some v => Ok v
  | None => Raise (JSONDecodeError doc)
  end.

End Decoder.

(** ** The two patterns of the extractor *)

Fixpoint strip_prefix (p s : pystr) : option pystr :=
  match p, s with
  | [], _ => Some s
  | a :: p', b :: s' => if a =? b then strip_prefix p' s' else None
  | _ :: _, [] => None
  end.

(** ['\s*' k]: a greedy run of whitespace followed by what [k] matches; the
    run gives code points back, longest first, until [k] matches. *)
Fixpoint greedy_space {A} (k : pystr -> option A) (s : pystr) : option A :=
  match s with
  | c :: r =>
      if is_space c
      then match greedy_space k r with Some x => Some x | None => k s end
      else k s
  | [] => k []
  end.

Definition fence : pystr := u "```".
Definition json_fence : pystr := u "```json".

(** ['\s*```'] at the head of [s]. *)
Definition closes (s : pystr) : bool :=
  match greedy_space (strip_prefix fence) s with Some _ => true | None => false end.

(** ['([\s\S]*?)\s*```'] at the head of [s]: group 1, the shortest text
    after which the closing fence matches. *)
Fixpoint lazy_body (s : pystr) : option pystr :=
  if closes s then Some []
  else match s with
       | [] => None
       | c :: r => option_map (cons c) (lazy_body r)
       end.

(** The whole pattern anchored at the head of [s]. *)
Definition match_fence (s : pystr) : option pystr :=
  match strip_prefix json_fence s with
  | Some r => greedy_space lazy_body r
  | None => None
  end.

(** [re.search(r"```json\s*([\s\S]*?)\s*```", s)]: group 1 of the leftmost
    match (line 79). *)
Fixpoint re_search_fence (s : pystr) : option pystr :=
  match match_fence s with
  | Some g => Some g
  | None => match s with [] => None | _ :: r => re_search_fence r end
  end.

(** ['\s*X'] at the head of [s], [X] a closing brace or bracket: the text
    after the match. *)
Fixpoint space_then (close : N) (s : pystr) : option pystr :=
  match s with
  | [] => None
  | c :: r =>
      if c =? close then Some r
      else if is_space c then space_then close r
      else None
  end.

(** [re.sub(r',\s*X', 'X', s)]: every leftmost, non-overlapping match is
    replaced and the scan resumes after it (lines 86-87). *)
Fixpoint re_sub_comma (close : N) (s : pystr) : pystr :=
  match s with
  | [] => []
  | c :: r =>
      let fix after_comma (t : pystr) : option pystr :=
        match t with
        | [] => None
        | d :: t' =>
            if d =? close then Some (close :: re_sub_comma close t')
            else if is_space d then after_comma t'
            else None
        end in
      if c =? 44
      then match after_comma r with
           | Some out => out
           | None => c :: re_sub_comma close r
           end
      else c :: re_sub_comma close r
  end.

(** Lines 86-87. *)
Definition repair (json_str : pystr) : pystr :=
  re_sub_comma 93 (re_sub_comma 125 json_str).

(** Lines 79-83. *)
Definition candidate (content : pystr) : pystr :=
  match re_search_fence content with
  | Some group1 => group1
  | None => content
  end.

(** ** The rest of the runtime interface *)

(** [py_repr] is [repr] of a float, a list or a dict (what [str] returns on
    them); [builtin_text] is [str(e)] of an exception the interpreter or the
    standard library raised. *)
Class PyRuntime {F : PyFloat} := {
  py_repr : json -> pystr;
  builtin_text : exn -> pystr
}.

(** A runtime to run the model on inputs that hold no float: its one float
    stands for every clock reading, and the texts are placeholders. *)
Definition plain_floats : PyFloat :=
  {| float := unit;
     float_of_int := fun _ => Some tt;
     float_add := fun _ _ => tt;
     float_bool := fun _ => true;
     float_eqb := fun _ _ => true;
     float_eqb_int := fun _ _ => false;
     float_of_literal := fun _ => tt |}.

Definition plain_runtime : @PyRuntime plain_floats :=
  {| py_repr := fun _ => u "<repr>";
     builtin_text := fun _ => u "<error>" |}.

Section Python.

Context {F : PyFloat} {R : PyRuntime}.

(** [str(e)]. *)
Definition str_exn (e : exn) : pystr :=
  match e with
  | ClientError msg => msg
  | PlainException msg => msg
  | _ => builtin_text e
  end.

(** [str(v)]. *)
Definition py_str (v : json) : pystr :=
  match v with
  | JStr s => s
  | JInt z => str_of_Z z
  | JBool true => u "True"
  | JBool false => u "False"
  | JNull => u "None"
  | _ => py_repr v
  end.

(** [bool(v)]. *)
Definition py_truthy (v : json) : bool :=
  match v with
  | JNull => false
  | JBool b => b
  | JInt z => negb (z =? 0)%Z
  | JFloat f => float_bool f
  | JStr s => match s with [] => false | _ => true end
  | JList l => match l with [] => false | _ => true end
  | JDict d => match d with [] => false | _ => true end
  end.

(** [a == b]; a [bool] is the integer 0 or 1, an [int] and a [float] are
    compared by value, dicts regardless of order. *)
Fixpoint py_eq (a b : json) {struct a} : bool :=
  match a, b with
  | JNull, JNull => true
  | JBool x, JBool y => Bool.eqb x y
  | JBool x, JInt y => (Z.b2z x =? y)%Z
  | JInt x, JBool y => (x =? Z.b2z y)%Z
  | JBool x, JFloat g => float_eqb_int g (Z.b2z x)
  | JFloat f, JBool y => float_eqb_int f (Z.b2z y)
  | JInt x, JInt y => (x =? y)%Z
  | JInt x, JFloat g => float_eqb_int g x
  | JFloat f, JInt y => float_eqb_int f y
  | JFloat f, JFloat g => float_eqb f g
  | JStr s, JStr t => pystr_eqb s t
  | JList l, JList m =>
      (fix all2 (l m : list json) : bool :=
         match l, m with
         | [], [] => true
         | x :: l', y :: m' => py_eq x y && all2 l' m'
         | _, _ => false
         end) l m
  | JDict d, JDict e =>
      Nat.eqb (List.length d) (List.length e)
      && (fix each (d : list (pystr * json)) : bool :=
            match d with
            | [] => true
            | (k, v) :: d' =>
                match dict_get k e with
                | Some w => py_eq v w
                | None => false
                end && each d'
            end) d
  | _, _ => false
  end.

Fixpoint is_substring (needle s : pystr) : bool :=
  match strip_prefix needle s with
  | Some _ => true
  | None => match s with [] => false | _ :: r => is_substring needle r end
  end.

(** ["lit" in v]. *)
Definition py_contains (lit : pystr) (v : json) : result bool :=
  match v with
  | JDict d => Ok (dict_mem lit d)
  | JList l => Ok (existsb (py_eq (JStr lit)) l)
  | JStr s => Ok (is_substring lit s)
  | _ => Raise (TypeError (u "in") v)
  end.

(** [x in d] for a dict [d] with [str] keys: [x] is hashed first. *)
Definition py_key_in (x : json) (d : dict) : result bool :=
  match x with
  | JStr k => Ok (dict_mem k d)
  | JList _ | JDict _ => Raise (TypeError (u "hash") x)
  | _ => Ok false
  end.

(** [v["lit"]]. *)
Definition py_getitem (v : json) (lit : pystr) : result json :=
  match v with
  | JDict d =>
      match dict_get lit d with
      | Some x => Ok x
      | None => Raise (KeyError lit)
      end
  | _ => Raise (TypeError (u "getitem") v)
  end.

(** [v["lit"] = x]. *)
Definition py_setitem (v : json) (lit : pystr) (x : json) : result json :=
  match v with
  | JDict d => Ok (JDict (dict_set d lit x))
  | _ => Raise (TypeError (u "setitem") v)
  end.

(** [v.get("lit", default)]. *)
Definition py_get (v : json) (lit : pystr) (default : json) : result json :=
  match v with
  | JDict d => Ok (get_default d lit default)
  | _ => Raise (AttributeError v (u "get"))
  end.

(** [v.items()]. *)
Definition py_items (v : json) : result dict :=
  match v with
  | JDict d => Ok d
  | _ => Raise (AttributeError v (u "items"))
  end.

(** [for x in v]. *)
Definition py_iter (v : json) : result (list json) :=
  match v with
  | JList l => Ok l
  | JDict d => Ok (map (fun kv => JStr (fst kv)) d)
  | JStr s => Ok (map (fun c => JStr [c]) s)
  | _ => Raise (TypeError (u "iter") v)
  end.

(** The operand kinds of [+]. *)
Definition as_int (v : json) : option Z :=
  match v with
  | JInt z => Some z
  | JBool b => Some (Z.b2z b)
  | _ => None
  end.

Definition add_int_float (z : Z) (k : float -> float) : result json :=
  match float_of_int z with
  | Some g => Ok (JFloat (k g))
  | None => Raise OverflowError
  end.

(** [a + b]. *)
Definition py_add (a b : json) : result json :=
  match as_int a, as_int b with
  | Some x, Some y => Ok (JInt (x + y))
  | Some x, None =>
      match b with
      | JFloat g => add_int_float x (fun f => float_add f g)
      | _ => Raise (TypeError (u "+") b)
      end
  | None, Some y =>
      match a with
      | JFloat f => add_int_float y (fun g => float_add f g)
      | _ => Raise (TypeError (u "+") a)
      end
  | None, None =>
      match a, b with
      | JFloat f, JFloat g => Ok (JFloat (float_add f g))
      | JStr s, JStr t => Ok (JStr (s ++ t))
      | JList l, JList m => Ok (JList (l ++ m))
      | _, _ => Raise (TypeError (u "+") b)
      end
  end.

(** [isinstance(v, list)]. *)
Definition is_list (v : json) : bool :=
  match v with JList _ => true | _ => false end.

(** [value[:n]] has a result when [value] is a [str] or a list. *)
Definition py_slice_to (n : nat) (v : json) : result json :=
  match v with
  | JStr s => Ok (JStr (firstn n s))
  | JList l => Ok (JList (firstn n l))
  | _ => Raise (SliceError v)
  end.

(** [', '.join(l)] wants every item to be a [str]. *)
Fixpoint py_join (sep : pystr) (l : list json) : result pystr :=
  match l with
  | [] => Ok []
  | JStr s :: r =>
      rest <- py_join sep r ;;
      Ok (match r with [] => s | _ => s ++ sep ++ rest end)
  | v :: _ => Raise (TypeError (u "join") v)
  end.

End Python.

(** ** The service *)

Section Service.

Context {F : PyFloat} {R : PyRuntime}.

(** *** Data the handler builds

    The dicts the handler itself creates have fixed keys; they are records,
    and [d.get(key, default)] on them is the field. *)

(** One formatted option (lines 130-134), and a resolved [user_choice]
    (lines 183-187). *)
Record opt := { opt_key : json; opt_content : json; opt_score : json }.

(** A formatted question (lines 136-143). *)
Record question := {
  q_id : json;
  q_stem : json;
  q_type : json;
  q_options : list opt;
  q_dimension : json;
  q_standard : json
}.

(** A question with its answer (lines 155-161).  [qa_options] is the
    ["options"] key an objective pair gets on line 169, [qa_user_choice] the
    ["user_choice"] key it may get on line 183. *)
Record qa_pair := {
  qa_question : json;
  qa_dimension : json;
  qa_answer : json;
  qa_type : json;
  qa_standard : json;
  qa_options : list opt;
  qa_user_choice : option opt
}.

(** [ExternalDataRequest] (lines 37-40). *)
Record request := {
  user_info : dict;
  questions : list dict;
  answers : dict
}.

(** [APIResponse] (lines 43-46). *)
Record api_response := {
  code : Z;
  message : pystr;
  data : option json
}.

(** What goes into a prompt.  The text itself is built by f-strings and
    [json.dumps] over these values, which cannot raise, and is read by the
    service only. *)
Inductive prompt :=
| SubjectivePrompt (dim : pystr) (responses : json)
| ReportPrompt (user_info : dict) (objective_qa_pairs : list qa_pair)
    (subjective_analysis objective_scores subjective_scores total_scores : dict).

(** *** The world outside the handler *)

(** What [client.chat.completions.create] does on one call (line 62): it
    raises, or returns a response with the contents of its choices ([None]
    for a message without content; no choice at all also stands for a
    missing or empty response). *)
Inductive completion :=
| ClientRaises (msg : pystr)
| Choices (contents : list (option pystr)).

(** The service answers the [n]-th call of the process, knowing the prompt;
    the clock answers the [n]-th reading. *)
Record env := {
  create : nat -> prompt -> completion;
  time_time : nat -> float
}.

(** The state of the process: calls made, clock readings made, and the
    module-level list of line 33. *)
Record world := {
  calls : nat;
  clock_reads : nat;
  analysis_results : list json
}.

Definition M (A : Type) : Type := world -> world * result A.

Definition mret {A} (a : A) : M A := fun w => (w, Ok a).

Definition mbind {A B} (m : M A) (k : A -> M B) : M B :=
  fun w =>
    match m w with
    | (w', Ok a) => k a w'
    | (w', Raise e) => (w', Raise e)
    end.

Definition lift {A} (r : result A) : M A := fun w => (w, r).

End Service.

Notation "x <~ m ;; k" := (mbind m (fun x => k))
  (at level 61, m at next level, right associativity).
Notation "' p <~ m ;; k" := (mbind m (fun x => match x with p => k end))
  (at level 61, p pattern, m at next level, right associativity).

Section Extractor.

Context {F : PyFloat} {R : PyRuntime}.

(** *** [call_ai_model] *)

(** Lines 94-97. *)
Fixpoint collect_scores (items : dict) (dimension_scores : dict) : result dict :=
  match items with
  | [] => Ok dimension_scores
  | (dim_code, dim_detail) :: rest =>
      has <- py_contains (u "score") dim_detail ;;
      if has : bool
      then v <- py_getitem dim_detail (u "score") ;;
           collect_scores rest (dict_set dimension_scores dim_code v)
      else collect_scores rest dimension_scores
  end.

(** Lines 93-99. *)
Definition flatten_scores (data : json) : result json :=
  has <- py_contains (u "dimensions") data ;;
  if has : bool
  then dims <- py_getitem data (u "dimensions") ;;
       items <- py_items dims ;;
       dimension_scores <- collect_scores items [] ;;
       py_setitem data (u "dimension_scores") (JDict dimension_scores)
  else Ok data.

(** The response extractor, lines 79-101. *)
Definition extract (content : pystr) : result json :=
  let json_str := repair (candidate content) in
  data <- json_loads json_str ;;
  flatten_scores data.

(** Lines 49-108; the handler of lines 105-108 prints and re-raises. *)
Definition call_ai_model (E : env) (p : prompt) : M json :=
  fun w =>
    let w' := {| calls := S (calls w);
                 clock_reads := clock_reads w;
                 analysis_results := analysis_results w |} in
    match create E (calls w) p with
    | ClientRaises msg => (w', Raise (ClientError msg))
    | Choices [] => (w', Raise (PlainException (u "API响应格式不正确")))
    | Choices (None :: _) => (w', Raise (TypeError (u "len") JNull))
    | Choices (Some content :: _) => (w', extract content)
    end.

End Extractor.

Section Handler.

Context {F : PyFloat} {R : PyRuntime}.

(** *** [analyze_data] *)

Definition DIMS : list pystr := [u "R"; u "E"; u "A"; u "D"; u "Y"].

(** [{"R": 0, "E": 0, "A": 0, "D": 0, "Y": 0}] (lines 191, 203). *)
Definition zero_scores : dict :=
  [(u "R", JInt 0%Z); (u "E", JInt 0%Z); (u "A", JInt 0%Z);
   (u "D", JInt 0%Z); (u "Y", JInt 0%Z)].

(** [str(n + 1)] for the index of [enumerate]. *)
Definition str_succ (n : nat) : json := JStr (str_of_Z (Z.of_nat n + 1)).

(** Lines 129-134. *)
Fixpoint format_options (j : nat) (opts : list json) : result (list opt) :=
  match opts with
  | [] => Ok []
  | o :: rest =>
      k <- py_get o (u "key") (str_succ j) ;;
      c <- py_get o (u "content") (JStr []) ;;
      s <- py_get o (u "score") (JInt 0%Z) ;;
      options <- format_options (S j) rest ;;
      Ok ({| opt_key := k; opt_content := c; opt_score := s |} :: options)
  end.

(** Lines 123-143, one question. *)
Definition format_question (i : nat) (q : dict) : result question :=
  let question_id := get_default q (u "id") (str_succ i) in
  let question_type := get_default q (u "type") (JStr (u "single_choice")) in
  options <-
    (if existsb (py_eq question_type) [JStr (u "single_choice")]
        && dict_mem (u "options") q
     then items <- py_iter (get_default q (u "options") (JList [])) ;;
          format_options 0 items
     else Ok []) ;;
  Ok {| q_id := question_id;
        q_stem := get_default q (u "stem") (JStr []);
        q_type := question_type;
        q_options := options;
        q_dimension := get_default q (u "dimension") (JStr []);
        q_standard := get_default q (u "standard") (JStr []) |}.

(** Lines 121-143. *)
Fixpoint format_questions (i : nat) (qs : list dict) : result (list question) :=
  match qs with
  | [] => Ok []
  | q :: rest =>
      fq <- format_question i q ;;
      formatted_questions <- format_questions (S i) rest ;;
      Ok (fq :: formatted_questions)
  end.

(** Line 164. *)
Definition is_subjective (question_type : json) : bool :=
  py_eq question_type (JStr (u "subject_question"))
  || py_eq question_type (JStr (u "career_transition"))
  || py_eq question_type (JStr (u "career_choice")).

(** Lines 146-170: the objective pairs and the subjective pairs, each in the
    order of the questions. *)
Fixpoint split_pairs (answers : dict) (formatted_questions : list question)
  : list qa_pair * list qa_pair :=
  match formatted_questions with
  | [] => ([], [])
  | q :: rest =>
      let (objective_qa_pairs, subjective_qa_pairs) := split_pairs answers rest in
      let q_id := py_str (q_id q) in
      match dict_get q_id answers with
      | Some answer =>
          let qa_pair := {| qa_question := q_stem q;
                            qa_dimension := q_dimension q;
                            qa_answer := answer;
                            qa_type := q_type q;
                            qa_standard := q_standard q;
                            qa_options := [];
                            qa_user_choice := None |} in
          if is_subjective (q_type q)
          then (objective_qa_pairs, qa_pair :: subjective_qa_pairs)
          else ({| qa_question := q_stem q;
                   qa_dimension := q_dimension q;
                   qa_answer := answer;
                   qa_type := q_type q;
                   qa_standard := q_standard q;
                   qa_options := q_options q;
                   qa_user_choice := None |} :: objective_qa_pairs,
                subjective_qa_pairs)
      | None => (objective_qa_pairs, subjective_qa_pairs)
      end
  end.

(** Lines 180-188: the first option whose key equals the answer. *)
Fixpoint find_choice (user_answer : json) (options : list opt) : option opt :=
  match options with
  | [] => None
  | option :: rest =>
      if py_eq (opt_key option) user_answer
      then Some {| opt_key := user_answer;
                   opt_content := opt_content option;
                   opt_score := opt_score option |}
      else find_choice user_answer rest
  end.

(** Lines 177-188, one pair. *)
Definition resolve_choice (qa : qa_pair) : qa_pair :=
  match find_choice (qa_answer qa) (qa_options qa) with
  | Some choice =>
      {| qa_question := qa_question qa;
         qa_dimension := qa_dimension qa;
         qa_answer := qa_answer qa;
         qa_type := qa_type qa;
         qa_standard := qa_standard qa;
         qa_options := qa_options qa;
         qa_user_choice := Some choice |}
  | None => qa
  end.

(** [x in d] where the keys of [d] are dimension codes: the key [x] names,
    if it names one. *)
Definition dimension_key (x : json) (d : dict) : result (option pystr) :=
  present <- py_key_in x d ;;
  Ok (match x with
      | JStr k => if present : bool then Some k else None
      | _ => None
      end).

(** Lines 193-195, one pair. *)
Definition add_objective (objective_scores : dict) (qa : qa_pair) : result dict :=
  dimension <- dimension_key (qa_dimension qa) objective_scores ;;
  match dimension, qa_user_choice qa with
  | Some d, Some user_choice =>
      current <- py_getitem (JDict objective_scores) d ;;
      sum <- py_add current (opt_score user_choice) ;;
      Ok (dict_set objective_scores d sum)
  | _, _ => Ok objective_scores
  end.

(** Lines 191-195. *)
Fixpoint score_objective (objective_scores : dict) (objective_qa_pairs : list qa_pair)
  : result dict :=
  match objective_qa_pairs with
  | [] => Ok objective_scores
  | qa :: rest =>
      objective_scores' <- add_objective objective_scores qa ;;
      score_objective objective_scores' rest
  end.

(** Lines 220-222. *)
Fixpoint valid_dimensions (dim_value : list json) (dimension_responses : dict)
  : result (list pystr) :=
  match dim_value with
  | [] => Ok []
  | d :: rest =>
      here <- (if py_truthy d then dimension_key d dimension_responses else Ok None) ;;
      dims <- valid_dimensions rest dimension_responses ;;
      Ok (match here with Some k => k :: dims | None => dims end)
  end.

(** Lines 213-226. *)
Definition dims_to_process (dim_value : json) (dimension_responses : dict)
  : result (list pystr) :=
  match dim_value with
  | JList l => valid_dimensions l dimension_responses
  | JStr [] => Ok []
  | JStr s => if dict_mem s dimension_responses then Ok [s] else Ok []
  | _ => Ok []
  end.

(** [dimension_responses[dim].append(x)]. *)
Definition dict_append (d : dict) (dim : pystr) (x : json) : dict :=
  match dict_get dim d with
  | Some (JList l) => dict_set d dim (JList (l ++ [x]))
  | _ => d
  end.

(** Lines 230-234. *)
Definition response_of (qa : qa_pair) : json :=
  JDict [(u "question", qa_question qa);
         (u "answer", qa_answer qa);
         (u "standard", qa_standard qa)].

(** Lines 212-234. *)
Fixpoint group_responses (subjective_qa_pairs : list qa_pair) (dimension_responses : dict)
  : result dict :=
  match subjective_qa_pairs with
  | [] => Ok dimension_responses
  | qa :: rest =>
      dims <- dims_to_process (qa_dimension qa) dimension_responses ;;
      group_responses rest
        (fold_left (fun acc dim => dict_append acc dim (response_of qa)) dims
           dimension_responses)
  end.

(** Line 209. *)
Definition empty_responses : dict :=
  [(u "R", JList []); (u "E", JList []); (u "A", JList []);
   (u "D", JList []); (u "Y", JList [])].

(** Line 237. *)
Definition dimensions_with_data (dimension_responses : dict) : list pystr :=
  map fst (filter (fun kv => py_truthy (snd kv)) dimension_responses).

(** Lines 292-296. *)
Definition fallback (e : exn) : json :=
  JDict [(u "analysis", JStr (u "分析失败: " ++ str_exn e));
         (u "score", JInt 2%Z);
         (u "key_traits", JList [])].

(** The two dicts the subjective loop writes. *)
Record subjective := {
  subjective_analysis : dict;
  subjective_scores : dict
}.

(** Lines 284-289, after the call returned [subj_result]: the dicts as the
    body left them, and the exception if it raised. *)
Definition record_result (dim : pystr) (subj_result : json) (s : subjective)
  : subjective * option exn :=
  let s1 := {| subjective_analysis := dict_set (subjective_analysis s) dim subj_result;
               subjective_scores := subjective_scores s |} in
  match py_contains (u "score") subj_result with
  | Raise e => (s1, Some e)
  | Ok has =>
      let scored :=
        if has
        then match py_getitem subj_result (u "score") with
             | Ok v => ({| subjective_analysis := subjective_analysis s1;
                           subjective_scores := dict_set (subjective_scores s1) dim v |},
                        None)
             | Raise e => (s1, Some e)
             end
        else (s1, None) in
      match scored with
      | (s2, None) =>
          match py_get subj_result (u "score") (JStr (u "未知")) with
          | Ok _ => (s2, None)
          | Raise e => (s2, Some e)
          end
      | (s2, Some e) => (s2, Some e)
      end
  end.

(** Lines 290-297. *)
Definition on_failure (dim : pystr) (e : exn) (s : subjective) : subjective :=
  {| subjective_analysis := dict_set (subjective_analysis s) dim (fallback e);
     subjective_scores := dict_set (subjective_scores s) dim (JInt 2%Z) |}.

(** Lines 247-297, one dimension. *)
Definition score_dimension (E : env) (dim : pystr) (dimension_responses : dict)
  (s : subjective) : M subjective :=
  fun w =>
    match dict_get dim dimension_responses with
    | None => (w, Raise (KeyError dim))
    | Some responses =>
        if negb (py_truthy responses) then (w, Ok s)
        else
          match call_ai_model E (SubjectivePrompt dim responses) w with
          | (w', Raise e) => (w', Ok (on_failure dim e s))
          | (w', Ok subj_result) =>
              match record_result dim subj_result s with
              | (s', None) => (w', Ok s')
              | (s', Some e) => (w', Ok (on_failure dim e s'))
              end
          end
    end.

(** Lines 246-297. *)
Fixpoint score_dimensions (E : env) (dims : list pystr) (dimension_responses : dict)
  (s : subjective) : M subjective :=
  match dims with
  | [] => mret s
  | dim :: rest =>
      s' <~ score_dimension E dim dimension_responses s ;;
      score_dimensions E rest dimension_responses s'
  end.

(** Lines 202-297. *)
Definition score_subjective (E : env) (subjective_qa_pairs : list qa_pair) : M subjective :=
  let s0 := {| subjective_analysis := []; subjective_scores := zero_scores |} in
  match subjective_qa_pairs with
  | [] => mret s0
  | _ =>
      dimension_responses <~ lift (group_responses subjective_qa_pairs empty_responses) ;;
      score_dimensions E (dimensions_with_data dimension_responses) dimension_responses s0
  end.

(** Lines 300-302. *)
Fixpoint add_scores (dims : list pystr) (objective_scores subjective_scores total_scores : dict)
  : result dict :=
  match dims with
  | [] => Ok total_scores
  | dim :: rest =>
      o <- py_getitem (JDict objective_scores) dim ;;
      s <- py_getitem (JDict subjective_scores) dim ;;
      t <- py_add o s ;;
      add_scores rest objective_scores subjective_scores (dict_set total_scores dim t)
  end.

(** Lines 401-403. *)
Fixpoint overwrite_scores (total_scores : dict) (items : dict) : result dict :=
  match items with
  | [] => Ok []
  | (dim_code, dim_detail) :: rest =>
      dim_detail' <-
        match dict_get dim_code total_scores with
        | Some t => py_setitem dim_detail (u "score") t
        | None => Ok dim_detail
        end ;;
      rest' <- overwrite_scores total_scores rest ;;
      Ok ((dim_code, dim_detail') :: rest')
  end.

(** Lines 395-406. *)
Definition reconcile (analysis_result : json) (objective_scores : dict) (s : subjective)
  (total_scores : dict) : result json :=
  r1 <- py_setitem analysis_result (u "objective_scores") (JDict objective_scores) ;;
  r2 <- py_setitem r1 (u "subjective_scores") (JDict (subjective_scores s)) ;;
  r3 <- py_setitem r2 (u "dimension_scores") (JDict total_scores) ;;
  has <- py_contains (u "dimensions") r3 ;;
  r4 <- (if has : bool
         then dims <- py_getitem r3 (u "dimensions") ;;
              items <- py_items dims ;;
              items' <- overwrite_scores total_scores items ;;
              py_setitem r3 (u "dimensions") (JDict items')
         else Ok r3) ;;
  py_setitem r4 (u "subjective_analysis") (JDict (subjective_analysis s)).

(** Lines 409-413. *)
Definition store (E : env) (user_info : dict) (analysis_result : json) : M unit :=
  fun w =>
    let entry := JDict [(u "username", get_default user_info (u "username") (JStr (u "unknown")));
                        (u "result", analysis_result);
                        (u "timestamp", JFloat (time_time E (clock_reads w)))] in
    ({| calls := calls w;
        clock_reads := S (clock_reads w);
        analysis_results := analysis_results w ++ [entry] |}, Ok tt).

(** Lines 423-429, one field of a subjective analysis record: what the
    f-string evaluates.  The writing of the text is taken to succeed; a
    text the encoding of the output cannot take is not modelled. *)
Definition print_field (key : pystr) (value : json) : result unit :=
  if pystr_eqb key (u "analysis")
  then if py_truthy value
       then _ <- py_slice_to 50 value ;; Ok tt
       else Ok tt
  else if pystr_eqb key (u "key_traits") && is_list value
  then if py_truthy value
       then head <- py_slice_to 3 value ;;
            items <- py_iter head ;;
            _ <- py_join (u ", ") items ;;
            Ok tt
       else Ok tt
  else Ok tt.

Fixpoint print_fields (info : dict) : result unit :=
  match info with
  | [] => Ok tt
  | (key, value) :: rest => _ <- print_field key value ;; print_fields rest
  end.

(** Lines 420-431. *)
Fixpoint print_analysis (subjective_analysis : dict) : result unit :=
  match subjective_analysis with
  | [] => Ok tt
  | (dim, info) :: rest =>
      _ <- match info with
           | JDict d => print_fields d
           | _ => Ok tt
           end ;;
      print_analysis rest
  end.

(** What the handler has computed when it builds the report prompt. *)
Record scored := {
  objective_qa_pairs : list qa_pair;
  objective_scores : dict;
  subjective_result : subjective;
  total_scores : dict
}.

(** Lines 115-306: formatting, objective scoring, subjective scoring and
    the totals. *)
Definition score (E : env) (req : request) : M scored :=
  formatted_questions <~ lift (format_questions 0 (questions req)) ;;
  let (objective_qa_pairs0, subjective_qa_pairs) :=
    split_pairs (answers req) formatted_questions in
  let objective_qa_pairs := map resolve_choice objective_qa_pairs0 in
  objective_scores <~ lift (score_objective zero_scores objective_qa_pairs) ;;
  s <~ score_subjective E subjective_qa_pairs ;;
  total_scores <~ lift (add_scores DIMS objective_scores (subjective_scores s) []) ;;
  mret {| objective_qa_pairs := objective_qa_pairs;
          objective_scores := objective_scores;
          subjective_result := s;
          total_scores := total_scores |}.

(** Lines 309-389. *)
Definition report_prompt (req : request) (sc : scored) : prompt :=
  ReportPrompt (user_info req) (objective_qa_pairs sc)
    (subjective_analysis (subjective_result sc)) (objective_scores sc)
    (subjective_scores (subjective_result sc)) (total_scores sc).

(** Lines 394-437. *)
Definition finish_report (E : env) (req : request) (sc : scored) (analysis_result : json)
  : M json :=
  analysis_result <~
    lift (reconcile analysis_result (objective_scores sc) (subjective_result sc)
            (total_scores sc)) ;;
  _ <~ store E (user_info req) analysis_result ;;
  _ <~ lift (print_analysis (subjective_analysis (subjective_result sc))) ;;
  mret analysis_result.

(** Lines 115-443, the body of the [try]. *)
Definition analyze (E : env) (req : request) : M json :=
  sc <~ score E req ;;
  analysis_result <~ call_ai_model E (report_prompt req sc) ;;
  finish_report E req sc analysis_result.

(** Lines 112-452. *)
Definition analyze_data (E : env) (req : request) (w : world) : world * api_response :=
  match analyze E req w with
  | (w', Ok analysis_result) =>
      (w', {| code := 200; message := u "分析成功"; data := Some analysis_result |})
  | (w', Raise e) =>
      (w', {| code := 500; message := u "分析失败: " ++ str_exn e; data := None |})
  end.

End Handler.

(** ** What the properties speak of *)

Section Vocabulary.

Context {F : PyFloat} {R : PyRuntime}.

(** The type and the dimension the handler reads off a question of the
    request (lines 124 and 141). *)
Definition question_type (q : dict) : json :=
  get_default q (u "type") (JStr (u "single_choice")).

Definition question_dimension (q : dict) : json :=
  get_default q (u "dimension") (JStr []).

(** A dimension field names [d] when it is [d] or a list that holds [d]. *)
Definition names_dimension (d : pystr) (dimension : json) : Prop :=
  dimension = JStr d \/ exists l, dimension = JList l /\ In (JStr d) l.

(** A value [dict] membership can hash. *)
Definition hashable (v : json) : Prop :=
  match v with JList _ | JDict _ => False | _ => True end.

(** The objective score as the specification words it: the score of the
    option whose key equals the submitted answer, 0 when no option does;
    and their sum over the pairs of one dimension. *)
Definition chosen_score (qa : qa_pair) : Z :=
  match find (fun o => py_eq (opt_key o) (qa_answer qa)) (qa_options qa) with
  | Some o => match opt_score o with JInt n => n | _ => 0%Z end
  | None => 0%Z
  end.

Definition objective_sum (d : pystr) (pairs : list qa_pair) : Z :=
  fold_right Z.add 0%Z
    (map chosen_score (filter (fun qa => py_eq (qa_dimension qa) (JStr d)) pairs)).

(** The score the subjective analysis holds for [d]: the [score] field of
    its record, 0 when there is no record or the record has no such field. *)
Definition recorded_score (subjective_analysis : dict) (d : pystr) : json :=
  match dict_get d subjective_analysis with
  | Some (JDict record) => get_default record (u "score") (JInt 0%Z)
  | _ => JInt 0%Z
  end.

(** What the subjective loop has done for [d] between [s] and [s']: nothing,
    or it left a record, and the score of the record if the record has one. *)
Definition settled (s s' : subjective) (d : pystr) : Prop :=
  (dict_get d (subjective_analysis s') = dict_get d (subjective_analysis s)
   /\ dict_get d (subjective_scores s') = dict_get d (subjective_scores s))
  \/ (exists record,
         dict_get d (subjective_analysis s') = Some (JDict record)
         /\ match dict_get (u "score") record with
            | Some v => dict_get d (subjective_scores s') = Some v
            | None => dict_get d (subjective_scores s') = dict_get d (subjective_scores s)
            end).


(** The letters a literal still waits for are no whitespace. *)
Definition word_ok (l : lstate) : Prop :=
  match l with
  | LWord rest _ => forallb (fun c => negb (is_space c)) rest = true
  | _ => True
  end.

(** A lexer state that whitespace cannot leave and the end cannot accept. *)
Definition dead (l : lstate) : Prop :=
  match l with
  | LFail | LString _ _ => True
  | _ => False
  end.

(** A text that does not end in whitespace. *)
Fixpoint ends_tight (x : pystr) : bool :=
  match x with
  | [] => true
  | c :: r => match r with [] => negb (is_space c) | _ => ends_tight r end
  end.

(** A computation that leaves the results log as it found it. *)
Definition keeps_log {A} (m : M A) : Prop :=
  forall w, analysis_results (fst (m w)) = analysis_results w.

(** The entry line 409 appends for a result. *)
Definition is_entry (info : dict) (analysis_result : json) (entry : json) : Prop :=
  exists t,
    entry = JDict [(u "username", get_default info (u "username") (JStr (u "unknown")));
                   (u "result", analysis_result);
                   (u "timestamp", JFloat t)].

(** The process handling requests in their order of arrival: the world one
    request leaves is the world the next one finds. *)
Fixpoint serve (E : env) (reqs : list request) (w : world) : world * list api_response :=
  match reqs with
  | [] => (w, [])
  | req :: rest =>
      let (w1, resp) := analyze_data E req w in
      let (w2, resps) := serve E rest w1 in
      (w2, resp :: resps)
  end.

(** A payload inside a fenced block tagged [json]. *)
Definition fenced (payload : pystr) : pystr :=
  json_fence ++ [10] ++ payload ++ [10] ++ fence.

(** A field of the data of a response, and a score in one of its score
    mappings. *)
Definition data_field (resp : api_response) (name : pystr) : option json :=
  match data resp with
  | Some (JDict d) => dict_get name d
  | _ => None
  end.

Definition score_in (resp : api_response) (mapping dim : pystr) : option json :=
  match data_field resp mapping with
  | Some (JDict scores) => dict_get dim scores
  | _ => None
  end.

End Vocabulary.

(** ** Inputs of the examples *)

Section Examples.

Context {F : PyFloat} {R : PyRuntime}.

Definition fresh_world : world :=
  {| calls := 0; clock_reads := 0; analysis_results := [] |}.

(** The single-choice question of the specification: options 1 (score 2)
    and 2 (score 4), dimension R. *)
Definition choice_question : dict :=
  [(u "id", JInt 1%Z);
   (u "stem", JStr (u "stem 1"));
   (u "type", JStr (u "single_choice"));
   (u "options",
     JList [JDict [(u "key", JStr (u "1")); (u "content", JStr (u "first"));
                   (u "score", JInt 2%Z)];
            JDict [(u "key", JStr (u "2")); (u "content", JStr (u "second"));
                   (u "score", JInt 4%Z)]]);
   (u "dimension", JStr (u "R"))].


(** A free-text question of dimension R. *)
Definition text_question : dict :=
  [(u "id", JInt 2%Z);
   (u "stem", JStr (u "stem 2"));
   (u "type", JStr (u "subject_question"));
   (u "dimension", JStr (u "R"));
   (u "standard", JStr (u "rubric"))].

Definition objective_request : request :=
  {| user_info := [(u "username", JStr (u "ann"))];
     questions := [choice_question];
     answers := [(u "1", JStr (u "2"))] |}.

Definition mixed_request : request :=
  {| user_info := [(u "username", JStr (u "bob"))];
     questions := [choice_question; text_question];
     answers := [(u "1", JStr (u "2")); (u "2", JStr (u "an answer"))] |}.

Definition clock : nat -> float := fun _ => float_of_literal (u "1700000000.0").

(** A service that answers a subjective prompt with [subjective] and the
    report prompt with [report]. *)
Definition service (subjective report : completion) : env :=
  {| create := fun _ p =>
                 match p with
                 | SubjectivePrompt _ _ => subjective
                 | ReportPrompt _ _ _ _ _ _ => report
                 end;
     time_time := clock |}.

Definition says (text : pystr) : completion := Choices [Some text].

(** The service scores the answer 7. *)
Definition generous : env :=
  service (says (jq "{'score': 7}")) (says (jq "{}")).

(** The service returns its analysis as an object. *)
Definition structured : env :=
  service (says (jq "{'score': 3, 'analysis': {'logic': 'sound'}}")) (says (jq "{}")).

(** The subjective call times out. *)
Definition flaky : env :=
  service (ClientRaises (u "Request timed out.")) (says (jq "{}")).

(** The report is not JSON. *)
Definition garbled : env :=
  service (says (jq "{'score': 3}")) (says (u "I cannot help with that.")).

(** A report with scores of its own, fenced, with a trailing comma. *)
Definition opinionated : env :=
  service (says (jq "{'score': 3}"))
    (says (jq "```json
{'dimensions': {'R': {'title': 'resilience', 'score': 85,}, 'Z': {'score': 1}}}
```")).

(** A valid payload with a fence inside a string. *)
Definition backticks : pystr := jq "{'a': '```'}".

End Examples.

(** ** What the further properties speak of *)

Section Observations.

Context {F : PyFloat} {R : PyRuntime}.

(** A comma, then whitespace, then a closing brace or bracket, somewhere in
    [s]: what lines 86-87 look for. *)
Definition trailing_comma (s : pystr) : Prop :=
  exists pre w close post,
    s = pre ++ [44] ++ w ++ [close] ++ post
    /\ forallb is_space w = true /\ (close = 125 \/ close = 93).

(** A value in which [["score" in v]] is false: the entries of
    [dimensions] that line 96 passes over. *)
Definition scoreless (v : json) : Prop :=
  match v with
  | JDict fields => dict_mem (u "score") fields = false
  | JList l => existsb (py_eq (JStr (u "score"))) l = false
  | JStr s => is_substring (u "score") s = false
  | _ => False
  end.

(** The id the handler gives the question at position [i] (line 123). *)
Definition question_id (i : nat) (q : dict) : json :=
  get_default q (u "id") (str_succ i).

(** How many times a dimension field names [d]: once when it is the text
    [d], once for every item [d] of a list. *)
Definition mentions (d : pystr) (dimension : json) : nat :=
  match dimension with
  | JStr s => if pystr_eqb s d then 1 else 0
  | JList l => List.length (filter (fun x => py_eq x (JStr d)) l)
  | _ => 0
  end.

(** The questions of a request the handler takes for subjective: those
    with an answer under their id and one of the three subjective types;
    [i] is the position of the first question of [qs]. *)
Fixpoint subjective_questions (answers : dict) (i : nat) (qs : list dict) : list dict :=
  match qs with
  | [] => []
  | q :: rest =>
      if dict_mem (py_str (question_id i q)) answers && is_subjective (question_type q)
      then q :: subjective_questions answers (S i) rest
      else subjective_questions answers (S i) rest
  end.

(** The dimensions some subjective question of the request names, in the
    order of line 209. *)
Definition analysed_dimensions (req : request) : list pystr :=
  filter (fun d =>
            existsb (fun q => negb (Nat.eqb (mentions d (question_dimension q)) 0))
              (subjective_questions (answers req) 0 (questions req)))
    DIMS.

(** A computation that calls the service at most [n] times and leaves the
    clock alone. *)
Definition calls_at_most {A} (n : nat) (m : M A) : Prop :=
  forall w, (calls w <= calls (fst (m w)) <= calls w + n)%nat
            /\ clock_reads (fst (m w)) = clock_reads w.

(** The fields of the result that lines 395-406 write. *)
Definition handler_fields : list pystr :=
  [u "objective_scores"; u "subjective_scores"; u "dimension_scores";
   u "dimensions"; u "subjective_analysis"].

(** An entry of [dimensions] before and after lines 401-403: under a key
    of [total_scores] it is a record and gets the total as its [score],
    under another key it is left alone. *)
Definition reconciled (total_scores : dict) (entry entry' : pystr * json) : Prop :=
  fst entry' = fst entry
  /\ match dict_get (fst entry) total_scores with
     | Some t => exists fields,
                   snd entry = JDict fields
                   /\ snd entry' = JDict (dict_set fields (u "score") t)
     | None => snd entry' = snd entry
     end.

(** A record of the subjective analysis that lines 423-429 cannot print:
    its [analysis] is true and is neither a text nor a list, or its
    [key_traits] is a list with, among its first three items, one that is no
    text. *)
Definition unprintable (record : dict) : Prop :=
  (exists value,
      In (u "analysis", value) record /\ py_truthy value = true
      /\ (forall s, value <> JStr s) /\ (forall l, value <> JList l))
  \/ (exists l x,
         In (u "key_traits", JList l) record /\ In x (firstn 3 l)
         /\ forall s, x <> JStr s).

(** A computation whose result and whose calls depend on the number of
    calls made so far, and on nothing else of the state. *)
Definition log_blind {A} (m : M A) : Prop :=
  forall w w', calls w = calls w' ->
    snd (m w) = snd (m w') /\ calls (fst (m w)) = calls (fst (m w')).

(** An option the objective scoring can add up: a record whose [score],
    when it has one, is an integer. *)
Definition sound_option (o : json) : Prop :=
  exists fields n, o = JDict fields /\ get_default fields (u "score") (JInt 0%Z) = JInt n.

(** A question the handler scores without the service: it is not
    subjective, its dimension can be hashed, and when it is a single choice
    with options these are a list of sound options. *)
Definition objective_question (q : dict) : Prop :=
  is_subjective (question_type q) = false
  /\ hashable (question_dimension q)
  /\ (py_eq (question_type q) (JStr (u "single_choice")) = true ->
      forall options, dict_get (u "options") q = Some options ->
        exists l, options = JList l /\ Forall sound_option l).

(** A report the handler can reconcile: its [dimensions], when it has any,
    is an object whose entries under a dimension code are records. *)
Definition sound_report (report : dict) : Prop :=
  match dict_get (u "dimensions") report with
  | Some dims =>
      exists items,
        dims = JDict items
        /\ forall d detail, In (d, detail) items -> In d DIMS ->
                            exists fields, detail = JDict fields
  | None => True
  end.

(** The state after [n] more calls to the service. *)
Definition after_calls (n : nat) (w : world) : world :=
  {| calls := calls w + n;
     clock_reads := clock_reads w;
     analysis_results := analysis_results w |}.

(** The two dicts of lines 202-203, as the loop finds them. *)
Definition no_analysis : subjective :=
  {| subjective_analysis := []; subjective_scores := zero_scores |}.

End Observations.

(** ** Inputs of the further examples *)

Section FurtherExamples.

Context {F : PyFloat} {R : PyRuntime}.

(** A question with options and a type that is not [single_choice]. *)
Definition multiple_choice_question : dict :=
  [(u "id", JInt 1%Z);
   (u "stem", JStr (u "stem 1"));
   (u "type", JStr (u "multiple_choice"));
   (u "options",
     JList [JDict [(u "key", JStr (u "1")); (u "content", JStr (u "first"));
                   (u "score", JInt 2%Z)];
            JDict [(u "key", JStr (u "2")); (u "content", JStr (u "second"));
                   (u "score", JInt 4%Z)]]);
   (u "dimension", JStr (u "R"))].

Definition multiple_choice_request : request :=
  {| user_info := [(u "username", JStr (u "eve"))];
     questions := [multiple_choice_question];
     answers := [(u "1", JStr (u "2"))] |}.

(** A report with a field and an entry of its own. *)
Definition annotated : env :=
  service (says (jq "{'score': 3}"))
    (says (jq "{'summary': 'steady', 'dimensions': {'R': {'title': 'resilience'}, 'Z': {'score': 1}}}")).

(** A world with a log and a clock that have been used, and no call made. *)
Definition used_world : world :=
  {| calls := 0; clock_reads := 3; analysis_results := [JNull; JNull] |}.

(** The single-choice question with a list for its dimension. *)
Definition two_dimension_question : dict :=
  [(u "id", JInt 1%Z);
   (u "stem", JStr (u "stem 1"));
   (u "type", JStr (u "single_choice"));
   (u "options",
     JList [JDict [(u "key", JStr (u "1")); (u "content", JStr (u "first"));
                   (u "score", JInt 2%Z)]]);
   (u "dimension", JList [JStr (u "R"); JStr (u "E")])].

Definition two_dimension_request : request :=
  {| user_info := [(u "username", JStr (u "dan"))];
     questions := [two_dimension_question];
     answers := [(u "1", JStr (u "1"))] |}.

(** A report whose [dimensions] holds a record with a score, a record
    without one, and a text. *)
Definition scored_report : pystr :=
  jq "{'dimensions': {'R': {'score': 85}, 'E': {'title': 'readiness'}, 'A': 'none'}}".

(** A subjective pair that names R twice and E once. *)
Definition repeated_pair : qa_pair :=
  {| qa_question := JStr (u "stem 2");
     qa_dimension := JList [JStr (u "R"); JStr (u "E"); JStr (u "R")];
     qa_answer := JStr (u "an answer");
     qa_type := JStr (u "subject_question");
     qa_standard := JStr (u "rubric");
     qa_options := [];
     qa_user_choice := None |}.

(** Free-text questions of dimensions E and A. *)
Definition second_text_question : dict :=
  [(u "id", JInt 3%Z);
   (u "stem", JStr (u "stem 3"));
   (u "type", JStr (u "subject_question"));
   (u "dimension", JStr (u "E"));
   (u "standard", JStr (u "rubric"))].

Definition third_text_question : dict :=
  [(u "id", JInt 4%Z);
   (u "stem", JStr (u "stem 4"));
   (u "type", JStr (u "subject_question"));
   (u "dimension", JStr (u "A"));
   (u "standard", JStr (u "rubric"))].

(** One single choice for R and one free text for each of R, E and A. *)
Definition three_texts_request : request :=
  {| user_info := [(u "username", JStr (u "bob"))];
     questions := [choice_question; text_question; second_text_question;
                   third_text_question];
     answers := [(u "1", JStr (u "2")); (u "2", JStr (u "an answer"));
                 (u "3", JStr (u "another answer")); (u "4", JStr (u "a third answer"))] |}.

(** The call for dimension E times out; the other dimensions are scored 3. *)
Definition outage : env :=
  {| create := fun _ p =>
                 match p with
                 | SubjectivePrompt dim _ =>
                     if pystr_eqb dim (u "E")
                     then ClientRaises (u "Request timed out.")
                     else says (jq "{'score': 3}")
                 | ReportPrompt _ _ _ _ _ _ => says (jq "{}")
                 end;
     time_time := clock |}.

End FurtherExamples.

(** * Properties *)

(** ** Text and dictionaries *)

Lemma pystr_eqb_eq a b : pystr_eqb a b = true <-> a = b.
Proof.
  revert b. induction a as [|x a IH]; intros [|y b]; cbn; try (split; congruence).
  rewrite andb_true_iff, N.eqb_eq, IH. split.
  - intros [-> ->]. reflexivity.
  - intros H. injection H as -> ->. auto.
Qed.

Lemma pystr_eqb_refl a : pystr_eqb a a = true.
Proof. apply pystr_eqb_eq. reflexivity. Qed.

Lemma pystr_eqb_neq a b : pystr_eqb a b = false <-> a <> b.
Proof.
  destruct (pystr_eqb a b) eqn:E.
  - apply pystr_eqb_eq in E. split; congruence.
  - split; [|reflexivity]. intros _ H. apply pystr_eqb_eq in H. congruence.
Qed.

(** ** The comma repair *)

Section Repair.

Variable close : N.

Lemma after_comma_space_then t :
  (fix after_comma (t : pystr) : option pystr :=
     match t with
     | [] => None
     | d :: t' =>
         if d =? close then Some (close :: re_sub_comma close t')
         else if is_space d then after_comma t'
         else None
     end) t
  = option_map (fun r' => close :: re_sub_comma close r') (space_then close t).
Proof.
  induction t as [|d t IH]; [reflexivity|].
  cbn [space_then]. destruct (d =? close); [reflexivity|].
  destruct (is_space d); [exact IH|reflexivity].
Qed.

Lemma re_sub_comma_cons c r :
  re_sub_comma close (c :: r) =
  if c =? 44
  then match space_then close r with
       | Some r' => close :: re_sub_comma close r'
       | None => c :: re_sub_comma close r
       end
  else c :: re_sub_comma close r.
Proof.
  cbn [re_sub_comma]. destruct (c =? 44); [|reflexivity].
  rewrite after_comma_space_then.
  destruct (space_then close r); reflexivity.
Qed.

Lemma space_then_length r r' :
  space_then close r = Some r' -> (List.length r' < List.length r)%nat.
Proof.
  revert r'. induction r as [|d t IH]; intros r' H; [discriminate|].
  cbn [space_then] in H. destruct (d =? close).
  - injection H as <-. cbn. lia.
  - destruct (is_space d); [|discriminate].
    apply IH in H. cbn. lia.
Qed.

Lemma space_then_app r r' X :
  space_then close r = Some r' -> space_then close (r ++ X) = Some (r' ++ X).
Proof.
  revert r'. induction r as [|d t IH]; intros r' H; [discriminate|].
  cbn [space_then app] in *. destruct (d =? close).
  - injection H as <-. reflexivity.
  - destruct (is_space d); [auto|discriminate].
Qed.

Lemma space_then_app_none r X :
  space_then close r = None -> space_then close X = None ->
  space_then close (r ++ X) = None.
Proof.
  intros H HX. induction r as [|d t IH]; [exact HX|].
  cbn [space_then app] in *. destruct (d =? close); [discriminate|].
  destruct (is_space d); [auto|reflexivity].
Qed.

(** The substitution works on each side of a place no match can cross. *)
Lemma re_sub_comma_app A X :
  space_then close X = None ->
  re_sub_comma close (A ++ X) = re_sub_comma close A ++ re_sub_comma close X.
Proof.
  intros HX. remember (List.length A) as n eqn:Hn.
  revert A Hn. induction n as [n IH] using lt_wf_ind. intros A Hn.
  destruct A as [|c r]; [reflexivity|].
  rewrite <- app_comm_cons, !re_sub_comma_cons.
  destruct (c =? 44).
  - destruct (space_then close r) as [r'|] eqn:Hr.
    + rewrite space_then_app with (r' := r') by exact Hr.
      rewrite <- app_comm_cons. f_equal.
      apply space_then_length in Hr.
      apply (IH (List.length r')); [subst n; cbn; lia|reflexivity].
    + rewrite space_then_app_none by assumption.
      rewrite <- app_comm_cons. f_equal.
      apply (IH (List.length r)); [subst n; cbn; lia|reflexivity].
  - rewrite <- app_comm_cons. f_equal.
    apply (IH (List.length r)); [subst n; cbn; lia|reflexivity].
Qed.

Lemma space_then_stop x X :
  is_space x = false -> x <> close -> space_then close (x :: X) = None.
Proof.
  intros Hs Hc. cbn. apply N.eqb_neq in Hc. rewrite Hc, Hs. reflexivity.
Qed.

Lemma space_then_spaces w :
  forallb is_space w = true -> is_space close = false -> space_then close w = None.
Proof.
  intros Hw Hc. induction w as [|d t IH]; [reflexivity|].
  cbn [forallb] in Hw. apply andb_prop in Hw as [Hd Ht].
  cbn [space_then]. destruct (d =? close) eqn:E.
  - apply N.eqb_eq in E. congruence.
  - rewrite Hd. auto.
Qed.

Lemma space_then_run w B :
  forallb is_space w = true -> is_space close = false ->
  space_then close (w ++ close :: B) = Some B.
Proof.
  intros Hw Hc. induction w as [|d t IH].
  - cbn. rewrite N.eqb_refl. reflexivity.
  - cbn [forallb] in Hw. apply andb_prop in Hw as [Hd Ht].
    cbn [app space_then]. destruct (d =? close) eqn:E.
    + apply N.eqb_eq in E. congruence.
    + rewrite Hd. auto.
Qed.

Lemma re_sub_comma_no_comma w :
  forallb (fun c => negb (c =? 44)) w = true -> re_sub_comma close w = w.
Proof.
  induction w as [|d t IH]; [reflexivity|].
  cbn [forallb]. intros H. apply andb_prop in H as [Hd Ht].
  rewrite re_sub_comma_cons. destruct (d =? 44); [discriminate|].
  rewrite IH; auto.
Qed.

End Repair.

Lemma space_not_comma w :
  forallb is_space w = true -> forallb (fun c => negb (c =? 44)) w = true.
Proof.
  induction w as [|d t IH]; [reflexivity|].
  cbn [forallb]. intros H. apply andb_prop in H as [Hd Ht].
  rewrite IH by assumption. rewrite andb_true_r.
  destruct (d =? 44) eqn:E; [|reflexivity].
  apply N.eqb_eq in E. subst d. discriminate.
Qed.

(** A comma, a run of whitespace and the closer become the closer, and the
    text on each side is substituted on its own. *)
Lemma re_sub_comma_match close pre w post :
  is_space close = false -> close <> 44 -> forallb is_space w = true ->
  re_sub_comma close (pre ++ 44 :: w ++ close :: post)
  = re_sub_comma close pre ++ close :: re_sub_comma close post.
Proof.
  intros Hs Hc Hw.
  rewrite re_sub_comma_app by (apply space_then_stop; [reflexivity|congruence]).
  rewrite re_sub_comma_cons. cbn [N.eqb Pos.eqb].
  rewrite space_then_run by assumption. reflexivity.
Qed.

(** The substitution for another closer leaves the match alone. *)
Lemma re_sub_comma_other close other pre w post :
  is_space close = false -> is_space other = false ->
  close <> 44 -> other <> 44 -> other <> close -> forallb is_space w = true ->
  re_sub_comma close (pre ++ 44 :: w ++ other :: post)
  = re_sub_comma close pre ++ 44 :: w ++ other :: re_sub_comma close post.
Proof.
  intros Hs Ho Hc Ho' Hne Hw.
  rewrite re_sub_comma_app by (apply space_then_stop; [reflexivity|congruence]).
  f_equal. rewrite re_sub_comma_cons. cbn [N.eqb Pos.eqb].
  assert (Hn : space_then close (w ++ other :: post) = None).
  { clear -Hw Ho Hne Hs. induction w as [|d t IH].
    - cbn. apply N.eqb_neq in Hne. rewrite Hne, Ho. reflexivity.
    - cbn [forallb] in Hw. apply andb_prop in Hw as [Hd Ht].
      cbn [app space_then]. destruct (d =? close) eqn:E.
      + apply N.eqb_eq in E. congruence.
      + rewrite Hd. auto. }
  rewrite Hn. f_equal.
  rewrite re_sub_comma_app by (apply space_then_stop; assumption).
  rewrite re_sub_comma_no_comma by (apply space_not_comma; assumption).
  f_equal. rewrite re_sub_comma_cons.
  destruct (other =? 44) eqn:E; [|reflexivity].
  apply N.eqb_eq in E. contradiction.
Qed.

Lemma repair_removes close pre w post :
  close = 125 \/ close = 93 -> forallb is_space w = true ->
  repair (pre ++ [44] ++ w ++ [close] ++ post) = repair pre ++ [close] ++ repair post.
Proof.
  intros [-> | ->] Hw; unfold repair; cbn [app].
  - rewrite re_sub_comma_match by (reflexivity || discriminate || assumption).
    rewrite re_sub_comma_app by (apply space_then_stop; [reflexivity|discriminate]).
    rewrite re_sub_comma_cons. reflexivity.
  - rewrite re_sub_comma_other by (reflexivity || discriminate || assumption).
    rewrite re_sub_comma_match by (reflexivity || discriminate || assumption).
    reflexivity.
Qed.

Section ExtractorProperties.

Context {F : PyFloat}.

(** C7.  The repair removes a comma that is followed, across whitespace, by
    a closing brace or bracket, and leaves the text on each side to its own
    repair; the payload [{"score": 3,}] is then parsed, with [score] 3. *)
Theorem trailing_comma_repaired :
  (forall close pre w post,
      close = 125 \/ close = 93 -> forallb is_space w = true ->
      repair (pre ++ [44] ++ w ++ [close] ++ post)
      = repair pre ++ [close] ++ repair post)
  /\ repair (jq "{'score': 3,}") = jq "{'score': 3}"
  /\ extract (jq "{'score': 3,}") = Ok (JDict [(u "score", JInt 3%Z)]).
Proof.
  split; [|split].
  - intros close pre w post. apply repair_removes.
  - vm_compute. reflexivity.
  - vm_compute. reflexivity.
Qed.

(** C10.  The repair rewrites the inside of string literals too: the
    payload [{"a": ",}"}] is valid as it stands, and the extractor returns
    another value than parsing it does. *)
Theorem repair_changes_valid_payload :
  exists payload v v',
    payload = jq "{'a': ',}'}"
    /\ json_loads payload = Ok v
    /\ v = JDict [(u "a", JStr (u ",}"))]
    /\ extract payload = Ok v'
    /\ v' = JDict [(u "a", JStr (u "}"))]
    /\ v' <> v.
Proof.
  do 3 eexists. split; [reflexivity|].
  split; [vm_compute; reflexivity|].
  split; [vm_compute; reflexivity|].
  split; [vm_compute; reflexivity|].
  split; [vm_compute; reflexivity|].
  vm_compute. intros H. discriminate H.
Qed.

End ExtractorProperties.

(** ** Dictionaries and the two monads *)

Section Basics.

Context {F : PyFloat}.

Lemma dict_get_set_same (d : dict) k v : dict_get k (dict_set d k v) = Some v.
Proof.
  induction d as [|[k' v'] r IH]; cbn.
  - rewrite pystr_eqb_refl. reflexivity.
  - destruct (pystr_eqb k k') eqn:E; cbn; rewrite E; auto.
Qed.

Lemma dict_get_set_other (d : dict) k k' v :
  k' <> k -> dict_get k' (dict_set d k v) = dict_get k' d.
Proof.
  intros Hne. induction d as [|[k0 v0] r IH]; cbn.
  - apply pystr_eqb_neq in Hne. rewrite Hne. reflexivity.
  - destruct (pystr_eqb k k0) eqn:E; cbn.
    + apply pystr_eqb_eq in E. subst k0.
      apply pystr_eqb_neq in Hne. rewrite Hne. reflexivity.
    + destruct (pystr_eqb k' k0); auto.
Qed.

Lemma keys_dict_set_mem (d : dict) k v :
  dict_mem k d = true -> keys (dict_set d k v) = keys d.
Proof.
  unfold dict_mem, keys. induction d as [|[k0 v0] r IH]; cbn; [discriminate|].
  destruct (pystr_eqb k k0); cbn; [reflexivity|].
  intros H. rewrite IH; auto.
Qed.

Lemma keys_dict_set_new (d : dict) k v :
  dict_mem k d = false -> keys (dict_set d k v) = keys d ++ [k].
Proof.
  unfold dict_mem, keys. induction d as [|[k0 v0] r IH]; cbn; [reflexivity|].
  destruct (pystr_eqb k k0); cbn; [discriminate|].
  intros H. rewrite IH; auto.
Qed.

Lemma dict_mem_keys (d : dict) k : dict_mem k d = true <-> In k (keys d).
Proof.
  unfold dict_mem, keys. induction d as [|[k0 v0] r IH]; cbn.
  - split; [discriminate|contradiction].
  - destruct (pystr_eqb k k0) eqn:E.
    + apply pystr_eqb_eq in E. subst. split; auto.
    + apply pystr_eqb_neq in E. rewrite IH. split; [auto|].
      intros [H|H]; [congruence|assumption].
Qed.

Lemma dict_get_in (d : dict) k v : dict_get k d = Some v -> In (k, v) d.
Proof.
  induction d as [|[k0 v0] r IH]; cbn; [discriminate|].
  destruct (pystr_eqb k k0) eqn:E.
  - apply pystr_eqb_eq in E. intros H. injection H as ->. subst. auto.
  - auto.
Qed.

Lemma in_dict_get (d : dict) k v :
  NoDup (keys d) -> In (k, v) d -> dict_get k d = Some v.
Proof.
  unfold keys. induction d as [|[k0 v0] r IH]; cbn; [contradiction|].
  intros Hnd [H|H].
  - injection H as -> ->. rewrite pystr_eqb_refl. reflexivity.
  - inversion Hnd as [|? ? Hnotin Hnd']; subst.
    destruct (pystr_eqb k k0) eqn:E.
    + apply pystr_eqb_eq in E. subst k0. exfalso. apply Hnotin.
      apply in_map_iff. exists (k, v). auto.
    + auto.
Qed.

Lemma dict_get_some_mem (d : dict) k v : dict_get k d = Some v -> dict_mem k d = true.
Proof. unfold dict_mem. intros ->. reflexivity. Qed.

Lemma rbind_ok A B (r : result A) (k : A -> result B) b :
  rbind r k = Ok b -> exists a, r = Ok a /\ k a = Ok b.
Proof. destruct r as [a|e]; cbn; [eauto|discriminate]. Qed.

End Basics.

Section Monad.

Context {F : PyFloat} {R : PyRuntime}.

Lemma mbind_ok A B (m : M A) (k : A -> M B) w w' b :
  mbind m k w = (w', Ok b) ->
  exists a w1, m w = (w1, Ok a) /\ k a w1 = (w', Ok b).
Proof.
  unfold mbind. destruct (m w) as [w1 [a|e]]; [eauto|discriminate].
Qed.

Lemma lift_ok A (r : result A) w w' a :
  lift r w = (w', Ok a) -> w' = w /\ r = Ok a.
Proof. unfold lift. intros H. injection H as <- ->. auto. Qed.

Lemma mret_ok A (a : A) w w' b : mret a w = (w', Ok b) -> w' = w /\ b = a.
Proof. unfold mret. intros H. injection H as <- <-. auto. Qed.

End Monad.

(** ** The stages of a request that succeeds *)

Section Stages.

Context {F : PyFloat} {R : PyRuntime}.

Lemma analyze_data_ok E req w w' resp :
  analyze_data E req w = (w', resp) -> code resp = 200%Z ->
  exists r, analyze E req w = (w', Ok r)
            /\ resp = {| code := 200; message := u "分析成功"; data := Some r |}.
Proof.
  unfold analyze_data. destruct (analyze E req w) as [w1 [r|e]]; intros H Hc.
  - injection H as <- <-. eauto.
  - injection H as <- <-. cbn in Hc. discriminate.
Qed.

Lemma analyze_data_raise E req w w' e :
  analyze E req w = (w', Raise e) ->
  analyze_data E req w
  = (w', {| code := 500; message := u "分析失败: " ++ str_exn e; data := None |}).
Proof. unfold analyze_data. intros ->. reflexivity. Qed.

Lemma store_ok E info r w :
  store E info r w
  = ({| calls := calls w;
        clock_reads := S (clock_reads w);
        analysis_results :=
          analysis_results w
          ++ [JDict [(u "username", get_default info (u "username") (JStr (u "unknown")));
                     (u "result", r);
                     (u "timestamp", JFloat (time_time E (clock_reads w)))]] |},
     Ok tt).
Proof. reflexivity. Qed.

Lemma analyze_ok E req w w' r :
  analyze E req w = (w', Ok r) ->
  exists sc w1 w2 raw,
    score E req w = (w1, Ok sc)
    /\ call_ai_model E (report_prompt req sc) w1 = (w2, Ok raw)
    /\ reconcile raw (objective_scores sc) (subjective_result sc) (total_scores sc) = Ok r
    /\ print_analysis (subjective_analysis (subjective_result sc)) = Ok tt
    /\ store E (user_info req) r w2 = (w', Ok tt).
Proof.
  unfold analyze. intros H.
  apply mbind_ok in H as (sc & w1 & Hsc & H).
  apply mbind_ok in H as (raw & w2 & Hcall & H).
  unfold finish_report in H.
  apply mbind_ok in H as (r1 & w3 & Hrec & H).
  apply lift_ok in Hrec as [-> Hrec].
  apply mbind_ok in H as ([] & w4 & Hstore & H).
  apply mbind_ok in H as ([] & w5 & Hprint & H).
  apply lift_ok in Hprint as [-> Hprint].
  apply mret_ok in H as [-> ->].
  exists sc, w1, w2, raw. auto.
Qed.

Lemma score_ok E req w w1 sc :
  score E req w = (w1, Ok sc) ->
  exists formatted_questions,
    format_questions 0 (questions req) = Ok formatted_questions
    /\ objective_qa_pairs sc
       = map resolve_choice (fst (split_pairs (answers req) formatted_questions))
    /\ score_objective zero_scores (objective_qa_pairs sc) = Ok (objective_scores sc)
    /\ score_subjective E (snd (split_pairs (answers req) formatted_questions)) w
       = (w1, Ok (subjective_result sc))
    /\ add_scores DIMS (objective_scores sc)
         (subjective_scores (subjective_result sc)) [] = Ok (total_scores sc).
Proof.
  unfold score. intros H.
  apply mbind_ok in H as (fqs & w2 & Hf & H).
  apply lift_ok in Hf as [-> Hf].
  destruct (split_pairs (answers req) fqs) as [o0 sq] eqn:Hsplit.
  apply mbind_ok in H as (obj & w3 & Ho & H).
  apply lift_ok in Ho as [-> Ho].
  apply mbind_ok in H as (s & w4 & Hs & H).
  apply mbind_ok in H as (total & w5 & Ht & H).
  apply lift_ok in Ht as [-> Ht].
  apply mret_ok in H as [-> ->].
  exists fqs. rewrite Hsplit. cbn. repeat split; assumption || reflexivity.
Qed.

End Stages.

(** ** Reconciliation *)

Ltac distinct_keys := apply pystr_eqb_neq; vm_compute; reflexivity.

Section Reconciliation.

Context {F : PyFloat} {R : PyRuntime}.

Lemma overwrite_scores_spec total items items' :
  overwrite_scores total items = Ok items' ->
  forall dim detail t,
    In (dim, detail) items' -> dict_get dim total = Some t ->
    exists fields, detail = JDict fields /\ dict_get (u "score") fields = Some t.
Proof.
  revert items'. induction items as [|[dim0 detail0] rest IH]; intros items' H.
  - injection H as <-. contradiction.
  - cbn [overwrite_scores] in H.
    apply rbind_ok in H as (detail' & Hd & H).
    apply rbind_ok in H as (rest' & Hr & H).
    injection H as <-.
    intros dim detail t [Hin|Hin] Ht.
    + injection Hin as <- <-. rewrite Ht in Hd.
      destruct detail0; try discriminate.
      cbn in Hd. injection Hd as <-.
      eexists. split; [reflexivity|]. apply dict_get_set_same.
    + eapply IH; eauto.
Qed.

Lemma overwrite_scores_keys total items items' :
  overwrite_scores total items = Ok items' -> keys items' = keys items.
Proof.
  revert items'. induction items as [|[dim0 detail0] rest IH]; intros items' H.
  - injection H as <-. reflexivity.
  - cbn [overwrite_scores] in H.
    apply rbind_ok in H as (detail' & Hd & H).
    apply rbind_ok in H as (rest' & Hr & H).
    injection H as <-. cbn. f_equal. apply IH. assumption.
Qed.

Lemma reconcile_ok raw obj s total r :
  reconcile raw obj s total = Ok r ->
  exists d,
    r = JDict d
    /\ dict_get (u "objective_scores") d = Some (JDict obj)
    /\ dict_get (u "subjective_scores") d = Some (JDict (subjective_scores s))
    /\ dict_get (u "dimension_scores") d = Some (JDict total)
    /\ dict_get (u "subjective_analysis") d = Some (JDict (subjective_analysis s))
    /\ forall dimensions,
         dict_get (u "dimensions") d = Some dimensions ->
         exists items items',
           dimensions = JDict items' /\ overwrite_scores total items = Ok items'.
Proof.
  unfold reconcile. intros H.
  destruct raw as [| | | | | |d0]; try discriminate H.
  cbn [py_setitem rbind py_contains] in H.
  set (d3 := dict_set (dict_set (dict_set d0 (u "objective_scores") (JDict obj))
                         (u "subjective_scores") (JDict (subjective_scores s)))
               (u "dimension_scores") (JDict total)) in *.
  assert (H1 : dict_get (u "objective_scores") d3 = Some (JDict obj)).
  { unfold d3. rewrite !dict_get_set_other by distinct_keys. apply dict_get_set_same. }
  assert (H2 : dict_get (u "subjective_scores") d3 = Some (JDict (subjective_scores s))).
  { unfold d3. rewrite !dict_get_set_other by distinct_keys. apply dict_get_set_same. }
  assert (H3 : dict_get (u "dimension_scores") d3 = Some (JDict total)).
  { unfold d3. apply dict_get_set_same. }
  clearbody d3.
  unfold dict_mem in H. destruct (dict_get (u "dimensions") d3) as [dims|] eqn:Hdims.
  - cbn [py_getitem rbind] in H. rewrite Hdims in H. cbn [rbind] in H.
    destruct dims as [| | | | | |items]; try discriminate H.
    cbn [py_items rbind] in H.
    destruct (overwrite_scores total items) as [items'|e] eqn:Ho; [|discriminate H].
    cbn [rbind py_setitem] in H. injection H as <-.
    eexists. split; [reflexivity|].
    rewrite !dict_get_set_other by distinct_keys.
    rewrite dict_get_set_same.
    repeat split; try assumption.
    intros dimensions Hd.
    rewrite dict_get_set_other in Hd by distinct_keys.
    rewrite dict_get_set_same in Hd. injection Hd as <-. eauto.
  - cbn [rbind py_setitem] in H. injection H as <-.
    eexists. split; [reflexivity|].
    rewrite !dict_get_set_other by distinct_keys.
    rewrite dict_get_set_same.
    repeat split; try assumption.
    intros dimensions Hd.
    rewrite dict_get_set_other in Hd by distinct_keys. congruence.
Qed.

End Reconciliation.

(** ** Subjective scoring *)

Section SubjectiveScoring.

Context {F : PyFloat} {R : PyRuntime}.

(** What the body of the [try] leaves behind: a record with its score
    passed on, or an exception with only the analysis written. *)
Lemma record_result_cases dim subj_result s :
  (exists record,
      subj_result = JDict record
      /\ record_result dim subj_result s
         = ({| subjective_analysis := dict_set (subjective_analysis s) dim (JDict record);
               subjective_scores :=
                 match dict_get (u "score") record with
                 | Some v => dict_set (subjective_scores s) dim v
                 | None => subjective_scores s
                 end |}, None))
  \/ (exists e,
         record_result dim subj_result s
         = ({| subjective_analysis := dict_set (subjective_analysis s) dim subj_result;
               subjective_scores := subjective_scores s |}, Some e)).
Proof.
  unfold record_result.
  destruct subj_result as [| | | |str|l|record]; cbn [py_contains];
    try (right; eexists; reflexivity).
  - right. destruct (is_substring (u "score") str); cbn; eexists; reflexivity.
  - right. destruct (existsb (py_eq (JStr (u "score"))) l); cbn; eexists; reflexivity.
  - left. exists record. split; [reflexivity|].
    unfold dict_mem. cbn [py_getitem py_get].
    destruct (dict_get (u "score") record); reflexivity.
Qed.

(** One dimension of the loop: it returns, it writes under [dim] only, and
    what it leaves under [dim] is a record and the score of that record. *)
Lemma score_dimension_step E dim dimension_responses responses s w :
  dict_get dim dimension_responses = Some responses ->
  exists w' s',
    score_dimension E dim dimension_responses s w = (w', Ok s')
    /\ analysis_results w' = analysis_results w
    /\ (forall d, d <> dim ->
          dict_get d (subjective_analysis s') = dict_get d (subjective_analysis s)
          /\ dict_get d (subjective_scores s') = dict_get d (subjective_scores s))
    /\ (dict_mem dim (subjective_scores s) = true ->
          keys (subjective_scores s') = keys (subjective_scores s))
    /\ (py_truthy responses = false -> s' = s)
    /\ (py_truthy responses = true ->
          exists record,
            dict_get dim (subjective_analysis s') = Some (JDict record)
            /\ match dict_get (u "score") record with
               | Some v => dict_get dim (subjective_scores s') = Some v
               | None => dict_get dim (subjective_scores s') = dict_get dim (subjective_scores s)
               end).
Proof.
  intros Hget. unfold score_dimension. rewrite Hget.
  destruct (py_truthy responses) eqn:Ht; cbn [negb].
  2:{ exists w, s. repeat split; auto; discriminate. }
  assert (Hfail : forall (w' : world) e s0,
             analysis_results w' = analysis_results w ->
             (forall d, d <> dim ->
                dict_get d (subjective_analysis s0) = dict_get d (subjective_analysis s)) ->
             subjective_scores s0 = subjective_scores s ->
             exists w'' s',
               (w', Ok (on_failure dim e s0)) = (w'', Ok s')
               /\ analysis_results w'' = analysis_results w
               /\ (forall d, d <> dim ->
                     dict_get d (subjective_analysis s') = dict_get d (subjective_analysis s)
                     /\ dict_get d (subjective_scores s') = dict_get d (subjective_scores s))
               /\ (dict_mem dim (subjective_scores s) = true ->
                     keys (subjective_scores s') = keys (subjective_scores s))
               /\ (true = false -> s' = s)
               /\ (true = true ->
                     exists record,
                       dict_get dim (subjective_analysis s') = Some (JDict record)
                       /\ match dict_get (u "score") record with
                          | Some v => dict_get dim (subjective_scores s') = Some v
                          | None => dict_get dim (subjective_scores s')
                                    = dict_get dim (subjective_scores s)
                          end)).
  { intros w' e s0 Hw Ha Hs. exists w', (on_failure dim e s0).
    split; [reflexivity|]. split; [assumption|]. cbn [on_failure subjective_analysis subjective_scores].
    rewrite Hs. repeat split.
    - rewrite dict_get_set_other by congruence. auto.
    - apply dict_get_set_other. congruence.
    - apply keys_dict_set_mem.
    - discriminate.
    - intros _. eexists. split; [apply dict_get_set_same|].
      cbn. apply dict_get_set_same. }
  unfold call_ai_model.
  destruct (create E (calls w) (SubjectivePrompt dim responses)) as [msg|[|[content|] rest]];
    try (apply Hfail; auto).
  destruct (extract content) as [subj_result|e]; [|apply Hfail; auto].
  destruct (record_result_cases dim subj_result s) as [(record & -> & ->)|(e & ->)].
  - eexists _, _. split; [reflexivity|]. split; [reflexivity|].
    cbn [subjective_analysis subjective_scores]. repeat split.
    + apply dict_get_set_other. congruence.
    + destruct (dict_get (u "score") record); [|reflexivity].
      apply dict_get_set_other. congruence.
    + destruct (dict_get (u "score") record); [|reflexivity].
      apply keys_dict_set_mem.
    + discriminate.
    + intros _. exists record. split; [apply dict_get_set_same|].
      destruct (dict_get (u "score") record); [apply dict_get_set_same|reflexivity].
  - apply Hfail; [reflexivity| |reflexivity].
    intros d Hd. cbn. apply dict_get_set_other. congruence.
Qed.

End SubjectiveScoring.

Section SubjectiveLoop.

Context {F : PyFloat} {R : PyRuntime}.

(** The loop over the dimensions returns, whatever the service does. *)
Lemma score_dimensions_returns E dimension_responses dims :
  (forall d, In d dims -> dict_mem d dimension_responses = true) ->
  forall s w, exists w' s',
    score_dimensions E dims dimension_responses s w = (w', Ok s')
    /\ analysis_results w' = analysis_results w.
Proof.
  induction dims as [|dim rest IH]; intros Hdims s w.
  - exists w, s. split; reflexivity.
  - assert (Hm : dict_mem dim dimension_responses = true) by (apply Hdims; left; reflexivity).
    unfold dict_mem in Hm.
    destruct (dict_get dim dimension_responses) as [responses|] eqn:Hget; [|discriminate].
    destruct (score_dimension_step E dim dimension_responses s w Hget)
      as (w1 & s1 & Hstep & Hw1 & _).
    destruct (IH (fun d H => Hdims d (or_intror H)) s1 w1) as (w2 & s2 & Hrest & Hw2).
    exists w2, s2. cbn [score_dimensions]. unfold mbind. rewrite Hstep.
    split; [exact Hrest|congruence].
Qed.

End SubjectiveLoop.

(** ** The grouping of the subjective answers *)

Section Grouping.

Context {F : PyFloat} {R : PyRuntime}.

Lemma dimension_key_some x d k :
  dimension_key x d = Ok (Some k) -> x = JStr k /\ dict_mem k d = true.
Proof.
  unfold dimension_key, py_key_in.
  destruct x; cbn; try discriminate; intros H; injection H as H; try discriminate.
  destruct (dict_mem s d) eqn:E; [|discriminate].
  injection H as <-. auto.
Qed.

Lemma valid_dimensions_in l d dims :
  valid_dimensions l d = Ok dims ->
  forall k, In k dims -> In (JStr k) l /\ dict_mem k d = true.
Proof.
  revert dims. induction l as [|x rest IH]; intros dims H k Hk.
  - injection H as <-. contradiction.
  - cbn [valid_dimensions] in H.
    apply rbind_ok in H as (here & Hh & H).
    apply rbind_ok in H as (dims' & Hd & H).
    injection H as <-.
    destruct here as [k0|].
    + destruct (py_truthy x); [|discriminate].
      apply dimension_key_some in Hh as [-> Hm].
      destruct Hk as [<-|Hk].
      * split; [left; reflexivity|assumption].
      * destruct (IH _ Hd k Hk). split; [right|]; assumption.
    + destruct (IH _ Hd k Hk). split; [right|]; assumption.
Qed.

Lemma dims_to_process_names dim_value d dims :
  dims_to_process dim_value d = Ok dims ->
  forall k, In k dims -> names_dimension k dim_value /\ dict_mem k d = true.
Proof.
  unfold dims_to_process, names_dimension. intros H k Hk.
  destruct dim_value as [| | | |s|l|]; try (injection H as <-; contradiction).
  - destruct s as [|c s']; [injection H as <-; contradiction|].
    destruct (dict_mem (c :: s') d) eqn:E; injection H as <-; [|contradiction].
    destruct Hk as [<-|[]]. auto.
  - destruct (valid_dimensions_in _ _ H _ Hk). split; [right; eauto|assumption].
Qed.

Lemma dict_append_keys (d : dict) dim x : keys (dict_append d dim x) = keys d.
Proof.
  unfold dict_append. destruct (dict_get dim d) as [v|] eqn:E; [|reflexivity].
  destruct v; try reflexivity.
  apply keys_dict_set_mem. unfold dict_mem. rewrite E. reflexivity.
Qed.

Lemma dict_append_other (d : dict) dim x k :
  k <> dim -> dict_get k (dict_append d dim x) = dict_get k d.
Proof.
  intros Hne. unfold dict_append. destruct (dict_get dim d) as [v|]; [|reflexivity].
  destruct v; try reflexivity. apply dict_get_set_other. assumption.
Qed.

Lemma fold_append_keys dims x (d : dict) :
  keys (fold_left (fun acc dim => dict_append acc dim x) dims d) = keys d.
Proof.
  revert d. induction dims as [|dim rest IH]; intros d; [reflexivity|].
  cbn [fold_left]. rewrite IH. apply dict_append_keys.
Qed.

Lemma fold_append_other dims x (d : dict) k :
  ~ In k dims ->
  dict_get k (fold_left (fun acc dim => dict_append acc dim x) dims d) = dict_get k d.
Proof.
  revert d. induction dims as [|dim rest IH]; intros d Hk; [reflexivity|].
  cbn [fold_left]. rewrite IH by (intros H; apply Hk; right; assumption).
  apply dict_append_other. intros ->. apply Hk. left. reflexivity.
Qed.

Lemma group_responses_keys pairs d d' :
  group_responses pairs d = Ok d' -> keys d' = keys d.
Proof.
  revert d. induction pairs as [|qa rest IH]; intros d H.
  - injection H as <-. reflexivity.
  - cbn [group_responses] in H. apply rbind_ok in H as (dims & Hd & H).
    apply IH in H. rewrite H. apply fold_append_keys.
Qed.

Lemma group_responses_other pairs d d' k :
  group_responses pairs d = Ok d' ->
  (forall qa, In qa pairs -> ~ names_dimension k (qa_dimension qa)) ->
  dict_get k d' = dict_get k d.
Proof.
  revert d. induction pairs as [|qa rest IH]; intros d H Hno.
  - injection H as <-. reflexivity.
  - cbn [group_responses] in H. apply rbind_ok in H as (dims & Hd & H).
    apply IH in H; [|intros qa' Hin; apply Hno; right; assumption].
    rewrite H. apply fold_append_other. intros Hk.
    apply (Hno qa (or_introl eq_refl)).
    apply (dims_to_process_names _ _ Hd _ Hk).
Qed.

Lemma NoDup_keys_filter (f : pystr * json -> bool) (d : dict) :
  NoDup (keys d) -> NoDup (map fst (filter f d)).
Proof.
  unfold keys. induction d as [|[k v] r IH]; cbn; [constructor|].
  intros H. inversion H as [|? ? Hn Hr]; subst.
  destruct (f (k, v)); cbn; [constructor|]; auto.
  intros Hin. apply Hn. apply in_map_iff in Hin as ([k' v'] & Hk & Hin).
  cbn in Hk. subst k'. apply filter_In in Hin as [Hin _].
  apply in_map_iff. exists (k, v'). auto.
Qed.

Lemma dimensions_with_data_in (d : dict) k :
  NoDup (keys d) -> In k (dimensions_with_data d) ->
  exists v, dict_get k d = Some v /\ py_truthy v = true.
Proof.
  intros Hnd Hin. unfold dimensions_with_data in Hin.
  apply in_map_iff in Hin as ([k' v] & Hk & Hin). cbn in Hk. subst k'.
  apply filter_In in Hin as [Hin Ht]. cbn in Ht.
  exists v. split; [apply in_dict_get; assumption|assumption].
Qed.

End Grouping.

Section SubjectiveInvariant.

Context {F : PyFloat} {R : PyRuntime}.

Lemma DIMS_NoDup : NoDup DIMS.
Proof.
  assert (H : DIMS = [[82]; [69]; [65]; [68]; [89]]) by reflexivity.
  rewrite H. repeat constructor; cbn; intros C;
    repeat (destruct C as [C|C]; [discriminate C|]); exact C.
Qed.

Lemma score_dimensions_settled E dimension_responses dims :
  NoDup dims ->
  forall s w w' s',
    (forall d, In d dims -> dict_mem d (subjective_scores s) = true) ->
    score_dimensions E dims dimension_responses s w = (w', Ok s') ->
    keys (subjective_scores s') = keys (subjective_scores s)
    /\ (forall d, ~ In d dims ->
          dict_get d (subjective_analysis s') = dict_get d (subjective_analysis s)
          /\ dict_get d (subjective_scores s') = dict_get d (subjective_scores s))
    /\ (forall d, In d dims -> settled s s' d).
Proof.
  induction dims as [|dim rest IH]; intros Hnd s w w' s' Hkeys H.
  - apply mret_ok in H as [-> ->]. repeat split; intros d Hd; contradiction.
  - inversion Hnd as [|? ? Hnotin Hnd']; subst.
    cbn [score_dimensions] in H. apply mbind_ok in H as (s1 & w1 & Hstep & Hrest).
    destruct (dict_get dim dimension_responses) as [responses|] eqn:Hget.
    2:{ unfold score_dimension in Hstep. rewrite Hget in Hstep. discriminate. }
    destruct (score_dimension_step E dim dimension_responses s w Hget)
      as (w1' & s1' & Hstep' & _ & Hother & Hk & Hskip & Hrec).
    rewrite Hstep in Hstep'. injection Hstep' as <- <-.
    assert (Hk1 : keys (subjective_scores s1) = keys (subjective_scores s)).
    { apply Hk. apply Hkeys. left. reflexivity. }
    assert (Hkeys1 : forall d, In d rest -> dict_mem d (subjective_scores s1) = true).
    { intros d Hd. apply dict_mem_keys. rewrite Hk1. apply dict_mem_keys.
      apply Hkeys. right. assumption. }
    destruct (IH Hnd' s1 w1 w' s' Hkeys1 Hrest) as (Hk' & Hout & Hin).
    split; [congruence|]. split.
    + intros d Hd.
      assert (d <> dim) by (intros ->; apply Hd; left; reflexivity).
      assert (~ In d rest) by (intros Hr; apply Hd; right; assumption).
      destruct (Hout d) as [Ha Hs]; [assumption|].
      destruct (Hother d) as [Ha' Hs']; [assumption|].
      split; congruence.
    + intros d [<-|Hd].
      * destruct (Hout dim Hnotin) as [Ha Hs].
        destruct (py_truthy responses) eqn:Ht.
        -- right. destruct (Hrec eq_refl) as (record & Hr & Hscore).
           exists record. split; [congruence|].
           destruct (dict_get (u "score") record); congruence.
        -- left. rewrite (Hskip eq_refl) in *. auto.
      * assert (Hne : d <> dim) by (intros ->; contradiction).
        destruct (Hother d Hne) as [Ha Hs].
        destruct (Hin d Hd) as [[Ha' Hs']|(record & Hr & Hscore)].
        -- left. split; congruence.
        -- right. exists record. split; [assumption|].
           destruct (dict_get (u "score") record); congruence.
Qed.

(** The subjective stage, when it returns: five scores, each the score its
    analysis record carries; and nothing for a dimension no answer names. *)
Lemma score_subjective_spec E pairs w w' s :
  score_subjective E pairs w = (w', Ok s) ->
  keys (subjective_scores s) = DIMS
  /\ analysis_results w' = analysis_results w
  /\ (forall d, In d DIMS ->
        dict_get d (subjective_scores s) = Some (recorded_score (subjective_analysis s) d))
  /\ (forall d, In d DIMS ->
        (forall qa, In qa pairs -> ~ names_dimension d (qa_dimension qa)) ->
        dict_get d (subjective_scores s) = Some (JInt 0%Z))
  /\ (pairs = [] -> s = {| subjective_analysis := []; subjective_scores := zero_scores |}).
Proof.
  unfold score_subjective.
  set (s0 := {| subjective_analysis := []; subjective_scores := zero_scores |}).
  assert (Hzero : forall d, In d DIMS -> dict_get d zero_scores = Some (JInt 0%Z)).
  { intros d Hd. cbv in Hd.
    repeat (destruct Hd as [<-|Hd]; [reflexivity|]). contradiction. }
  destruct pairs as [|qa rest] eqn:Hpairs.
  - intros H. apply mret_ok in H as [-> ->].
    split; [reflexivity|]. split; [reflexivity|]. split; [|split].
    + intros d Hd. unfold recorded_score. cbn [s0 subjective_scores subjective_analysis dict_get].
      apply Hzero. assumption.
    + intros d Hd _. apply Hzero. assumption.
    + reflexivity.
  - rewrite <- Hpairs. intros H.
    apply mbind_ok in H as (dr & w1 & Hg & H). apply lift_ok in Hg as [-> Hg].
    assert (Hdr : keys dr = DIMS) by (apply group_responses_keys in Hg; exact Hg).
    assert (Hnd : NoDup (keys dr)) by (rewrite Hdr; apply DIMS_NoDup).
    assert (Hsub : forall d, In d (dimensions_with_data dr) -> In d DIMS).
    { intros d Hd. apply dimensions_with_data_in in Hd as (v & Hv & _); [|exact Hnd].
      rewrite <- Hdr. apply dict_mem_keys. unfold dict_mem. rewrite Hv. reflexivity. }
    assert (Hmem : forall d, In d (dimensions_with_data dr) ->
                             dict_mem d (subjective_scores s0) = true).
    { intros d Hd. apply dict_mem_keys. apply Hsub. assumption. }
    assert (Hnd' : NoDup (dimensions_with_data dr))
      by (apply NoDup_keys_filter; exact Hnd).
    destruct (score_dimensions_settled E dr Hnd' s0 w Hmem H) as (Hk & Hout & Hin).
    assert (Hmem' : forall d, In d (dimensions_with_data dr) -> dict_mem d dr = true).
    { intros d Hd. apply dict_mem_keys. rewrite Hdr. apply Hsub. assumption. }
    destruct (score_dimensions_returns E dr (dimensions_with_data dr) Hmem' s0 w)
      as (w2 & s2 & Hret & Hw).
    rewrite H in Hret. injection Hret as <- <-.
    assert (Hall : forall d, In d DIMS -> settled s0 s d).
    { intros d Hd.
      destruct (in_dec (list_eq_dec N.eq_dec) d (dimensions_with_data dr)) as [Hi|Hni].
      - apply Hin. assumption.
      - left. apply Hout. assumption. }
    split; [exact Hk|]. split; [exact Hw|]. split; [|split].
    + intros d Hd. unfold recorded_score.
      destruct (Hall d Hd) as [[Ha Hs]|(record & Hr & Hscore)].
      * rewrite Ha, Hs. cbn [s0 subjective_scores subjective_analysis dict_get].
        apply Hzero. assumption.
      * rewrite Hr. unfold get_default.
        destruct (dict_get (u "score") record); [assumption|].
        rewrite Hscore. apply Hzero. assumption.
    + intros d Hd Hno.
      assert (Hni : ~ In d (dimensions_with_data dr)).
      { intros Hi. apply dimensions_with_data_in in Hi as (v & Hv & Ht); [|exact Hnd].
        pose proof Hg as Hg'. eapply group_responses_other in Hg'; [|exact Hno].
        rewrite Hg' in Hv.
        cbv in Hd. repeat (destruct Hd as [<-|Hd]; [cbv in Hv; injection Hv as <-; cbv in Ht; discriminate Ht|]).
        contradiction. }
      destruct (Hout d Hni) as [_ Hs]. rewrite Hs. apply Hzero. assumption.
    + intros Hp. rewrite Hp in Hpairs. discriminate Hpairs.
Qed.

End SubjectiveInvariant.

(** ** Objective scoring *)

Section ObjectiveScoring.

Context {F : PyFloat} {R : PyRuntime}.

Lemma py_eq_str a b : py_eq (JStr a) (JStr b) = pystr_eqb a b.
Proof. reflexivity. Qed.

Lemma py_eq_not_str v d : (forall k, v <> JStr k) -> py_eq v (JStr d) = false.
Proof. intros H. destruct v; try reflexivity. exfalso. eapply H. reflexivity. Qed.

Lemma find_choice_find user_answer options :
  find_choice user_answer options
  = option_map (fun o => {| opt_key := user_answer;
                            opt_content := opt_content o;
                            opt_score := opt_score o |})
      (find (fun o => py_eq (opt_key o) user_answer) options).
Proof.
  induction options as [|o rest IH]; [reflexivity|].
  cbn [find_choice find]. destruct (py_eq (opt_key o) user_answer); [reflexivity|exact IH].
Qed.

Lemma split_pairs_objective answers formatted_questions qa :
  In qa (fst (split_pairs answers formatted_questions)) ->
  qa_user_choice qa = None
  /\ exists q, In q formatted_questions
               /\ qa_dimension qa = q_dimension q
               /\ qa_options qa = q_options q
               /\ is_subjective (q_type q) = false.
Proof.
  induction formatted_questions as [|q rest IH]; [contradiction|].
  cbn [split_pairs]. destruct (split_pairs answers rest) as [o sq].
  destruct (dict_get (py_str (q_id q)) answers) as [answer|].
  - destruct (is_subjective (q_type q)) eqn:E; cbn [fst] in *.
    + intros H. destruct (IH H) as (Hc & q' & Hq & Hrest).
      split; [assumption|]. exists q'. split; [right|]; assumption.
    + intros [<-|H].
      * split; [reflexivity|]. exists q. cbn. auto.
      * destruct (IH H) as (Hc & q' & Hq & Hrest).
        split; [assumption|]. exists q'. split; [right|]; assumption.
  - cbn [fst] in *. intros H. destruct (IH H) as (Hc & q' & Hq & Hrest).
    split; [assumption|]. exists q'. split; [right|]; assumption.
Qed.

Lemma split_pairs_subjective answers formatted_questions qa :
  In qa (snd (split_pairs answers formatted_questions)) ->
  exists q, In q formatted_questions
            /\ qa_dimension qa = q_dimension q
            /\ is_subjective (q_type q) = true.
Proof.
  induction formatted_questions as [|q rest IH]; [contradiction|].
  cbn [split_pairs]. destruct (split_pairs answers rest) as [o sq].
  destruct (dict_get (py_str (q_id q)) answers) as [answer|].
  - destruct (is_subjective (q_type q)) eqn:E; cbn [snd] in *.
    + intros [<-|H].
      * exists q. cbn. auto.
      * destruct (IH H) as (q' & Hq & Hrest). exists q'. split; [right|]; assumption.
    + intros H. destruct (IH H) as (q' & Hq & Hrest). exists q'. split; [right|]; assumption.
  - cbn [snd] in *. intros H. destruct (IH H) as (q' & Hq & Hrest).
    exists q'. split; [right|]; assumption.
Qed.

Lemma format_questions_fields i qs formatted_questions fq :
  format_questions i qs = Ok formatted_questions -> In fq formatted_questions ->
  exists q, In q qs /\ q_type fq = question_type q /\ q_dimension fq = question_dimension q.
Proof.
  revert i formatted_questions. induction qs as [|q rest IH]; intros i fqs H Hin.
  - injection H as <-. contradiction.
  - cbn [format_questions] in H.
    apply rbind_ok in H as (fq0 & Hq & H). apply rbind_ok in H as (fqs' & Hr & H).
    injection H as <-. destruct Hin as [<-|Hin].
    + exists q. split; [left; reflexivity|].
      unfold format_question in Hq. apply rbind_ok in Hq as (options & _ & Hq).
      injection Hq as <-. cbn. auto.
    + destruct (IH _ _ Hr Hin) as (q' & Hq' & Hf). exists q'. split; [right|]; assumption.
Qed.

Lemma resolve_choice_dimension qa : qa_dimension (resolve_choice qa) = qa_dimension qa.
Proof.
  unfold resolve_choice. destruct (find_choice (qa_answer qa) (qa_options qa)); reflexivity.
Qed.

Lemma resolve_choice_choice qa :
  qa_user_choice qa = None ->
  qa_user_choice (resolve_choice qa) = find_choice (qa_answer qa) (qa_options qa).
Proof.
  unfold resolve_choice. intros H.
  destruct (find_choice (qa_answer qa) (qa_options qa)); [reflexivity|assumption].
Qed.

(** One pair changes the score of its own dimension at most. *)
Lemma add_objective_other acc qa acc' :
  add_objective acc qa = Ok acc' ->
  keys acc' = keys acc
  /\ forall d, qa_dimension qa <> JStr d -> dict_get d acc' = dict_get d acc.
Proof.
  unfold add_objective. intros H. apply rbind_ok in H as (dimension & Hd & H).
  destruct dimension as [k|]; [|injection H as <-; auto].
  destruct (qa_user_choice qa) as [c|]; [|injection H as <-; auto].
  apply dimension_key_some in Hd as [Hdim Hmem].
  apply rbind_ok in H as (current & _ & H). apply rbind_ok in H as (sum & _ & H).
  injection H as <-. split; [apply keys_dict_set_mem; assumption|].
  intros d Hne. apply dict_get_set_other. congruence.
Qed.

Lemma score_objective_other pairs acc acc' :
  score_objective acc pairs = Ok acc' ->
  keys acc' = keys acc
  /\ forall d, (forall qa, In qa pairs -> qa_dimension qa <> JStr d) ->
               dict_get d acc' = dict_get d acc.
Proof.
  revert acc. induction pairs as [|qa rest IH]; intros acc H.
  - injection H as <-. auto.
  - cbn [score_objective] in H. apply rbind_ok in H as (acc1 & H1 & H).
    apply add_objective_other in H1 as [Hk1 Ho1]. apply IH in H as [Hk Ho].
    split; [congruence|]. intros d Hd.
    rewrite Ho by (intros qa' Hin; apply Hd; right; assumption).
    apply Ho1. apply Hd. left. reflexivity.
Qed.

(** With integer option scores and dimensions that can be hashed, the
    scoring returns and adds the chosen scores up, dimension by dimension. *)
Lemma score_objective_sum pairs :
  (forall qa, In qa pairs -> qa_user_choice qa = None) ->
  (forall qa, In qa pairs -> hashable (qa_dimension qa)) ->
  (forall qa o, In qa pairs -> In o (qa_options qa) -> exists n, opt_score o = JInt n) ->
  forall acc,
    (forall d v, dict_get d acc = Some v -> exists n, v = JInt n) ->
    exists acc',
      score_objective acc (map resolve_choice pairs) = Ok acc'
      /\ keys acc' = keys acc
      /\ forall d n, dict_get d acc = Some (JInt n) ->
                     dict_get d acc' = Some (JInt (n + objective_sum d pairs)).
Proof.
  induction pairs as [|qa rest IH]; intros Hnone Hhash Hint acc Hacc.
  - exists acc. split; [reflexivity|]. split; [reflexivity|].
    intros d n H. cbn. rewrite Z.add_0_r. assumption.
  - assert (Hnone' : forall qa', In qa' rest -> qa_user_choice qa' = None)
      by (intros; apply Hnone; right; assumption).
    assert (Hhash' : forall qa', In qa' rest -> hashable (qa_dimension qa'))
      by (intros; apply Hhash; right; assumption).
    assert (Hint' : forall qa' o, In qa' rest -> In o (qa_options qa') ->
                                  exists n, opt_score o = JInt n)
      by (intros qa' o H; apply Hint; right; assumption).
    specialize (IH Hnone' Hhash' Hint').
    assert (Hsum : forall d, objective_sum d (qa :: rest)
                             = ((if py_eq (qa_dimension qa) (JStr d)
                                 then chosen_score qa else 0) + objective_sum d rest)%Z).
    { intros d. unfold objective_sum. cbn [filter].
      destruct (py_eq (qa_dimension qa) (JStr d)); reflexivity. }
    cbn [map score_objective]. unfold add_objective.
    rewrite resolve_choice_dimension, resolve_choice_choice
      by (apply Hnone; left; reflexivity).
    rewrite find_choice_find.
    assert (Hunchanged :
              (forall d, dict_get d acc <> None ->
                 (if py_eq (qa_dimension qa) (JStr d) then chosen_score qa else 0%Z) = 0%Z) ->
              exists acc',
                score_objective acc (map resolve_choice rest) = Ok acc'
                /\ keys acc' = keys acc
                /\ (forall d n, dict_get d acc = Some (JInt n) ->
                      dict_get d acc' = Some (JInt (n + objective_sum d (qa :: rest))))).
    { intros Hz. destruct (IH acc Hacc) as (acc' & Hs & Hk & Hv).
      exists acc'. split; [assumption|]. split; [assumption|].
      intros d n Hd. rewrite Hsum, Hz by congruence. apply Hv. assumption. }
    specialize (Hhash qa (or_introl eq_refl)).
    unfold dimension_key, py_key_in.
    destruct (qa_dimension qa) as [| | | |k| |] eqn:Hdim; try contradiction;
      cbn [rbind]; try (apply Hunchanged; intros; reflexivity).
    unfold dict_mem. destruct (dict_get k acc) as [current|] eqn:Hk.
    2:{ apply Hunchanged. intros d Hd. rewrite py_eq_str.
        destruct (pystr_eqb k d) eqn:E; [|reflexivity].
        apply pystr_eqb_eq in E. congruence. }
    unfold chosen_score in *.
    destruct (find (fun o => py_eq (opt_key o) (qa_answer qa)) (qa_options qa))
      as [o|] eqn:Hfind; cbn [option_map].
    2:{ apply Hunchanged. intros d Hd. destruct (py_eq (JStr k) (JStr d)); reflexivity. }
    destruct (Hacc _ _ Hk) as (n0 & ->).
    pose proof Hfind as Ho. apply find_some in Ho as [Ho _].
    destruct (Hint qa o (or_introl eq_refl) Ho) as (m & Hm).
    rewrite Hm in Hsum.
    cbn [py_getitem rbind opt_score]. rewrite Hk. cbn [rbind]. rewrite Hm.
    cbn [py_add as_int rbind].
    destruct (IH (dict_set acc k (JInt (n0 + m)))) as (acc' & Hs & Hkeys & Hv).
    { intros d v. destruct (list_eq_dec N.eq_dec d k) as [->|Hne].
      - rewrite dict_get_set_same. intros H. injection H as <-. eauto.
      - rewrite dict_get_set_other by assumption. apply Hacc. }
    exists acc'. split; [assumption|]. split.
    { rewrite Hkeys. apply keys_dict_set_mem. unfold dict_mem. rewrite Hk. reflexivity. }
    intros d n Hd. rewrite Hsum, py_eq_str.
    destruct (pystr_eqb k d) eqn:E.
    + apply pystr_eqb_eq in E. subst d. rewrite Hk in Hd. injection Hd as <-.
      rewrite Z.add_assoc. apply Hv. apply dict_get_set_same.
    + apply pystr_eqb_neq in E. rewrite Z.add_0_l. apply Hv.
      rewrite dict_get_set_other by congruence. assumption.
Qed.

End ObjectiveScoring.

Section ObjectiveClaim.

Context {F : PyFloat} {R : PyRuntime}.


End ObjectiveClaim.

Section ObjectiveExample.

#[local] Existing Instance plain_floats.
#[local] Existing Instance plain_runtime.


End ObjectiveExample.

(** ** Totals *)

Section Totals.

Context {F : PyFloat} {R : PyRuntime}.

Lemma py_getitem_dict (d : dict) k x :
  py_getitem (JDict d) k = Ok x -> dict_get k d = Some x.
Proof. cbn. destruct (dict_get k d); [|discriminate]. intros H. injection H as ->. reflexivity. Qed.

Lemma add_scores_spec dims o s :
  forall acc t,
    add_scores dims o s acc = Ok t ->
    (forall d, In d dims ->
       exists x y z,
         dict_get d o = Some x /\ dict_get d s = Some y
         /\ py_add x y = Ok z /\ dict_get d t = Some z)
    /\ (forall d, ~ In d dims -> dict_get d t = dict_get d acc).
Proof.
  induction dims as [|dim rest IH]; intros acc t H.
  - injection H as <-. split; [intros d []|reflexivity].
  - cbn [add_scores] in H.
    apply rbind_ok in H as (x & Hx & H). apply rbind_ok in H as (y & Hy & H).
    apply rbind_ok in H as (z & Hz & H).
    apply py_getitem_dict in Hx, Hy.
    destruct (IH _ _ H) as [Hin Hout]. split.
    + intros d [<-|Hd]; [|apply Hin; assumption].
      destruct (in_dec (list_eq_dec N.eq_dec) dim rest) as [Hi|Hni].
      * apply Hin. assumption.
      * exists x, y, z. repeat split; try assumption.
        rewrite Hout by assumption. apply dict_get_set_same.
    + intros d Hd. rewrite Hout by (intros Hr; apply Hd; right; assumption).
      apply dict_get_set_other. intros ->. apply Hd. left. reflexivity.
Qed.

Lemma add_scores_keys dims o s :
  forall acc t,
    NoDup (keys acc ++ dims) ->
    add_scores dims o s acc = Ok t -> keys t = keys acc ++ dims.
Proof.
  induction dims as [|dim rest IH]; intros acc t Hnd H.
  - injection H as <-. rewrite app_nil_r. reflexivity.
  - cbn [add_scores] in H.
    apply rbind_ok in H as (x & Hx & H). apply rbind_ok in H as (y & Hy & H).
    apply rbind_ok in H as (z & Hz & H).
    assert (Hnew : dict_mem dim acc = false).
    { destruct (dict_mem dim acc) eqn:E; [|reflexivity].
      apply dict_mem_keys in E. apply NoDup_remove_2 in Hnd.
      exfalso. apply Hnd. apply in_or_app. left. assumption. }
    apply IH in H.
    + rewrite H, keys_dict_set_new by assumption. rewrite <- app_assoc. reflexivity.
    + rewrite keys_dict_set_new by assumption. rewrite <- app_assoc. exact Hnd.
Qed.


End Totals.

(** ** A request that succeeds *)

Section Success.

Context {F : PyFloat} {R : PyRuntime}.

Lemma success_facts E req w w' resp :
  analyze_data E req w = (w', resp) -> code resp = 200%Z ->
  exists sc r w1 w2,
    resp = {| code := 200; message := u "分析成功"; data := Some (JDict r) |}
    /\ score E req w = (w1, Ok sc)
    /\ store E (user_info req) (JDict r) w2 = (w', Ok tt)
    /\ analysis_results w2 = analysis_results w1
    /\ print_analysis (subjective_analysis (subjective_result sc)) = Ok tt
    /\ dict_get (u "objective_scores") r = Some (JDict (objective_scores sc))
    /\ dict_get (u "subjective_scores") r
       = Some (JDict (subjective_scores (subjective_result sc)))
    /\ dict_get (u "dimension_scores") r = Some (JDict (total_scores sc))
    /\ dict_get (u "subjective_analysis") r
       = Some (JDict (subjective_analysis (subjective_result sc)))
    /\ forall dimensions,
         dict_get (u "dimensions") r = Some dimensions ->
         exists items items',
           dimensions = JDict items'
           /\ overwrite_scores (total_scores sc) items = Ok items'.
Proof.
  intros H Hc. apply analyze_data_ok in H as (r & H & ->); [|assumption].
  apply analyze_ok in H as (sc & w1 & w2 & raw & Hs & Hcall & Hrec & Hprint & Hstore).
  apply reconcile_ok in Hrec as (d & -> & H1 & H2 & H3 & H4 & H5).
  exists sc, d, w1, w2. repeat split; try assumption.
  unfold call_ai_model in Hcall.
  destruct (create E (calls w1) (report_prompt req sc)) as [msg|[|[content|] rest]];
    injection Hcall as <- _; reflexivity.
Qed.

End Success.

Section ReportClaims.

Context {F : PyFloat} {R : PyRuntime}.

Lemma total_scores_keys E req w w1 sc :
  score E req w = (w1, Ok sc) ->
  keys (total_scores sc) = DIMS
  /\ forall d, In d DIMS ->
       exists x y z,
         dict_get d (objective_scores sc) = Some x
         /\ dict_get d (subjective_scores (subjective_result sc)) = Some y
         /\ py_add x y = Ok z /\ dict_get d (total_scores sc) = Some z.
Proof.
  intros H. apply score_ok in H as (fqs & _ & _ & _ & _ & Ht).
  split.
  - apply add_scores_keys in Ht; [exact Ht|]. apply DIMS_NoDup.
  - apply add_scores_spec in Ht as [Hin _]. exact Hin.
Qed.

(** C1.  In the data of a successful response, every entry of the
    [dimensions] mapping whose key is one of the five dimension codes is an
    object whose [score] is the total computed for that dimension, the one
    the response carries under [dimension_scores]; what the service wrote
    there is gone. *)
Theorem report_scores_reconciled E req w w' resp :
  analyze_data E req w = (w', resp) -> code resp = 200%Z ->
  exists r total_scores,
    data resp = Some (JDict r)
    /\ dict_get (u "dimension_scores") r = Some (JDict total_scores)
    /\ forall dimensions,
         dict_get (u "dimensions") r = Some dimensions ->
         exists items,
           dimensions = JDict items
           /\ forall dimension detail,
                In (dimension, detail) items -> In dimension DIMS ->
                exists fields t,
                  detail = JDict fields
                  /\ dict_get dimension total_scores = Some t
                  /\ dict_get (u "score") fields = Some t.
Proof.
  intros H Hc.
  apply success_facts in H
    as (sc & r & w1 & w2 & -> & Hs & _ & _ & _ & _ & _ & Ht & _ & Hdims); [|assumption].
  exists r, (total_scores sc). split; [reflexivity|]. split; [assumption|].
  intros dimensions Hd. destruct (Hdims _ Hd) as (items & items' & -> & Ho).
  exists items'. split; [reflexivity|].
  intros dimension detail Hin Hdim.
  destruct (total_scores_keys _ _ _ Hs) as [_ Htot].
  destruct (Htot _ Hdim) as (x & y & t & _ & _ & _ & Hget).
  destruct (overwrite_scores_spec _ _ Ho _ _ Hin Hget) as (fields & -> & Hscore).
  exists fields, t. auto.
Qed.

End ReportClaims.

Section ReportExample.

#[local] Existing Instance plain_floats.
#[local] Existing Instance plain_runtime.

(** The report gives R the score 85; the response gives it the total, 7. *)
Lemma report_scores_reconciled_witness :
  exists r total_scores,
    data (snd (analyze_data opinionated mixed_request fresh_world)) = Some (JDict r)
    /\ dict_get (u "dimension_scores") r = Some (JDict total_scores)
    /\ dict_get (u "R") total_scores = Some (JInt 7%Z)
    /\ forall dimensions,
         dict_get (u "dimensions") r = Some dimensions ->
         exists items,
           dimensions = JDict items
           /\ forall dimension detail,
                In (dimension, detail) items -> In dimension DIMS ->
                exists fields t,
                  detail = JDict fields
                  /\ dict_get dimension total_scores = Some t
                  /\ dict_get (u "score") fields = Some t.
Proof.
  destruct (@report_scores_reconciled plain_floats plain_runtime opinionated mixed_request
              fresh_world
              (fst (analyze_data opinionated mixed_request fresh_world))
              (snd (analyze_data opinionated mixed_request fresh_world)))
    as (r & total_scores & Hdata & Htotal & Hdims).
  - vm_compute. reflexivity.
  - vm_compute. reflexivity.
  - exists r, total_scores. split; [exact Hdata|]. split; [exact Htotal|].
    split; [|exact Hdims].
    vm_compute in Hdata. injection Hdata as <-.
    vm_compute in Htotal. injection Htotal as <-.
    vm_compute. reflexivity.
Defined.

End ReportExample.

Section ScoreMappings.

Context {F : PyFloat} {R : PyRuntime}.

Lemma dict_ext (a b : dict) :
  keys a = keys b -> NoDup (keys a) ->
  (forall k, In k (keys a) -> dict_get k a = dict_get k b) -> a = b.
Proof.
  unfold keys. revert b. induction a as [|[k v] a IH]; intros [|[k' v'] b] Hk Hnd Hget;
    try discriminate Hk; [reflexivity|].
  cbn in Hk. injection Hk as <- Hk. inversion Hnd as [|? ? Hnotin Hnd']; subst.
  assert (Hv : v = v').
  { specialize (Hget k (or_introl eq_refl)). cbn in Hget.
    rewrite pystr_eqb_refl in Hget. congruence. }
  subst v'. f_equal. apply IH; try assumption.
  intros k0 Hk0. specialize (Hget k0 (or_intror Hk0)). cbn in Hget.
  destruct (pystr_eqb k0 k) eqn:E; [|assumption].
  apply pystr_eqb_eq in E. subst k0. contradiction.
Qed.

Lemma objective_pairs_dimension E req w w1 sc qa :
  score E req w = (w1, Ok sc) -> In qa (objective_qa_pairs sc) ->
  exists q, In q (questions req) /\ qa_dimension qa = question_dimension q.
Proof.
  intros H Hin. apply score_ok in H as (fqs & Hf & Ho & _).
  rewrite Ho in Hin. apply in_map_iff in Hin as (qa0 & <- & Hin).
  rewrite resolve_choice_dimension.
  apply split_pairs_objective in Hin as (_ & fq & Hfq & Hd & _).
  edestruct format_questions_fields as (q & Hq & _ & Hdim); [exact Hf|exact Hfq|].
  exists q. split; [assumption|congruence].
Qed.

(** C2.  In the data of a successful response the three score mappings
    have exactly the keys R, E, A, D, Y; the total of each dimension is its
    objective score plus its subjective score; a dimension that no question
    of the request names scores 0 in all three; and when the request has no
    subjective question the subjective scores are all 0 and each total is
    the objective score. *)
Theorem score_mappings E req w w' resp :
  analyze_data E req w = (w', resp) -> code resp = 200%Z ->
  exists r objective subjective total,
    data resp = Some (JDict r)
    /\ dict_get (u "objective_scores") r = Some (JDict objective)
    /\ dict_get (u "subjective_scores") r = Some (JDict subjective)
    /\ dict_get (u "dimension_scores") r = Some (JDict total)
    /\ keys objective = DIMS /\ keys subjective = DIMS /\ keys total = DIMS
    /\ (forall d, In d DIMS ->
          exists o s t,
            dict_get d objective = Some o /\ dict_get d subjective = Some s
            /\ dict_get d total = Some t /\ py_add o s = Ok t)
    /\ (forall d, In d DIMS ->
          (forall q, In q (questions req) -> ~ names_dimension d (question_dimension q)) ->
          dict_get d objective = Some (JInt 0%Z)
          /\ dict_get d subjective = Some (JInt 0%Z)
          /\ dict_get d total = Some (JInt 0%Z))
    /\ ((forall q, In q (questions req) -> is_subjective (question_type q) = false) ->
        subjective = zero_scores
        /\ (forall d n, In d DIMS -> dict_get d objective = Some (JInt n) ->
                        dict_get d total = Some (JInt n))
        /\ ((forall d, In d DIMS -> exists n, dict_get d objective = Some (JInt n)) ->
            total = objective)).
Proof.
  intros H Hc.
  apply success_facts in H
    as (sc & r & w1 & w2 & -> & Hs & _ & _ & _ & Ho & Hsub & Ht & _ & _); [|assumption].
  exists r, (objective_scores sc), (subjective_scores (subjective_result sc)),
    (total_scores sc).
  split; [reflexivity|]. do 3 (split; [assumption|]).
  destruct (total_scores_keys _ _ _ Hs) as [Hkt Hsum].
  pose proof Hs as Hstages. apply score_ok in Hstages as (fqs & Hf & Hpairs & Hobj & Hsubj & _).
  edestruct score_objective_other as [Hko Hoo]; [exact Hobj|].
  edestruct score_subjective_spec as (Hks & _ & _ & Hzero & Hnone); [exact Hsubj|].
  assert (Hz : forall d, In d DIMS -> dict_get d zero_scores = Some (JInt 0%Z)).
  { intros d Hd. cbv in Hd.
    repeat (destruct Hd as [<-|Hd]; [reflexivity|]). contradiction. }
  split; [exact Hko|]. split; [exact Hks|]. split; [exact Hkt|].
  split; [|split].
  - intros d Hd. destruct (Hsum d Hd) as (x & y & z & Hx & Hy & Hz' & Hg).
    exists x, y, z. auto.
  - intros d Hd Hno.
    assert (H1 : dict_get d (objective_scores sc) = Some (JInt 0%Z)).
    { rewrite Hoo; [apply Hz; assumption|].
      intros qa Hqa Hdim.
      edestruct objective_pairs_dimension as (q & Hq & Hqd); [exact Hs|exact Hqa|].
      apply (Hno q Hq). left. congruence. }
    assert (H2 : dict_get d (subjective_scores (subjective_result sc)) = Some (JInt 0%Z)).
    { apply Hzero; [assumption|]. intros qa Hqa Hname.
      apply split_pairs_subjective in Hqa as (fq & Hfq & Hd' & _).
      edestruct format_questions_fields as (q & Hq & _ & Hdim); [exact Hf|exact Hfq|].
      apply (Hno q Hq). rewrite <- Hdim, <- Hd'. assumption. }
    split; [assumption|]. split; [assumption|].
    destruct (Hsum d Hd) as (x & y & z & Hx & Hy & Hadd & Hg).
    rewrite H1 in Hx. rewrite H2 in Hy. injection Hx as <-. injection Hy as <-.
    cbn in Hadd. injection Hadd as <-. assumption.
  - intros Hnosub.
    assert (Hempty : snd (split_pairs (answers req) fqs) = []).
    { destruct (snd (split_pairs (answers req) fqs)) as [|qa rest] eqn:Esnd; [reflexivity|].
      exfalso.
      assert (Hin : In qa (snd (split_pairs (answers req) fqs)))
        by (rewrite Esnd; left; reflexivity).
      apply split_pairs_subjective in Hin as (fq & Hfq & _ & Hty).
      edestruct format_questions_fields as (q & Hq & Htype & _); [exact Hf|exact Hfq|].
      rewrite Htype, (Hnosub q Hq) in Hty. discriminate. }
    specialize (Hnone Hempty).
    assert (Hsz : subjective_scores (subjective_result sc) = zero_scores)
      by (rewrite Hnone; reflexivity).
    assert (Hsame : forall d n, In d DIMS ->
                      dict_get d (objective_scores sc) = Some (JInt n) ->
                      dict_get d (total_scores sc) = Some (JInt n)).
    { intros d n Hd Hn.
      destruct (Hsum d Hd) as (x & y & z & Hx & Hy & Hadd & Hg).
      rewrite Hn in Hx. injection Hx as <-.
      rewrite Hsz, (Hz d Hd) in Hy. injection Hy as <-.
      cbn in Hadd. rewrite Z.add_0_r in Hadd. injection Hadd as <-. assumption. }
    split; [exact Hsz|]. split; [exact Hsame|].
    intros Hint. apply dict_ext.
    + congruence.
    + rewrite Hkt. apply DIMS_NoDup.
    + intros k Hk. rewrite Hkt in Hk. destruct (Hint k Hk) as (n & Hn).
      rewrite Hn. apply Hsame; assumption.
Qed.

End ScoreMappings.

Section ScoreMappingsExample.

#[local] Existing Instance plain_floats.
#[local] Existing Instance plain_runtime.

(** The request with the one objective question: R scores 4 + 0. *)
Lemma score_mappings_witness :
  exists objective subjective total,
    score_in (snd (analyze_data generous objective_request fresh_world))
      (u "objective_scores") (u "R") = Some (JInt 4%Z)
    /\ data_field (snd (analyze_data generous objective_request fresh_world))
         (u "objective_scores") = Some (JDict objective)
    /\ data_field (snd (analyze_data generous objective_request fresh_world))
         (u "subjective_scores") = Some (JDict subjective)
    /\ data_field (snd (analyze_data generous objective_request fresh_world))
         (u "dimension_scores") = Some (JDict total)
    /\ keys objective = DIMS /\ keys subjective = DIMS /\ keys total = DIMS
    /\ subjective = zero_scores /\ total = objective.
Proof.
  destruct (@score_mappings plain_floats plain_runtime generous objective_request
              fresh_world
              (fst (analyze_data generous objective_request fresh_world))
              (snd (analyze_data generous objective_request fresh_world)))
    as (r & objective & subjective & total & Hdata & Ho & Hs & Ht & Hko & Hks & Hkt
        & _ & _ & Hnone).
  - vm_compute. reflexivity.
  - vm_compute. reflexivity.
  - exists objective, subjective, total.
    unfold score_in, data_field. rewrite Hdata, Ho, Hs, Ht.
    destruct Hnone as (Hz & _ & Heq).
    { intros q Hq. vm_compute in Hq. destruct Hq as [<-|[]]. vm_compute. reflexivity. }
    repeat split; try assumption.
    + vm_compute in Hdata. injection Hdata as <-.
      vm_compute in Ho. injection Ho as <-. vm_compute. reflexivity.
    + apply Heq. intros d Hd.
      vm_compute in Hdata. injection Hdata as <-.
      vm_compute in Ho. injection Ho as <-.
      cbv in Hd. repeat (destruct Hd as [<-|Hd]; [eexists; vm_compute; reflexivity|]).
      contradiction.
Defined.

End ScoreMappingsExample.

Section SubjectiveRange.

Context {F : PyFloat} {R : PyRuntime}.




End SubjectiveRange.

Section SubjectiveRangeExample.

#[local] Existing Instance plain_floats.
#[local] Existing Instance plain_runtime.



End SubjectiveRangeExample.

Section Envelope.

Context {F : PyFloat} {R : PyRuntime}.

(** C5.  When the call for the report fails (the client raises, the
    response has no usable content, or the extractor cannot parse it), the
    handler returns the envelope with code 500, the cause in the message
    and no data; the call is made once.  Every response is the success
    envelope or this one. *)
Theorem report_failure_envelope E req w w1 sc w2 e :
  score E req w = (w1, Ok sc) ->
  call_ai_model E (report_prompt req sc) w1 = (w2, Raise e) ->
  analyze_data E req w
  = (w2, {| code := 500; message := u "分析失败: " ++ str_exn e; data := None |})
  /\ calls w2 = S (calls w1)
  /\ forall E' req' w',
       (exists r, snd (analyze_data E' req' w')
                  = {| code := 200; message := u "分析成功"; data := Some r |})
       \/ (exists e', snd (analyze_data E' req' w')
                      = {| code := 500;
                           message := u "分析失败: " ++ str_exn e';
                           data := None |}).
Proof.
  intros Hs Hcall. split; [|split].
  - apply analyze_data_raise. unfold analyze, mbind. rewrite Hs, Hcall. reflexivity.
  - unfold call_ai_model in Hcall.
    destruct (create E (calls w1) (report_prompt req sc)) as [msg|[|[content|] rest]];
      injection Hcall as <- _; reflexivity.
  - intros E' req' w'. unfold analyze_data.
    destruct (analyze E' req' w') as [w'' [r|e']]; cbn [snd]; eauto.
Qed.

End Envelope.

Section EnvelopeExample.

#[local] Existing Instance plain_floats.
#[local] Existing Instance plain_runtime.

(** The report is prose: the response is the 500 envelope. *)
Lemma report_failure_envelope_witness :
  exists w1 sc w2 e,
    score garbled mixed_request fresh_world = (w1, Ok sc)
    /\ call_ai_model garbled (report_prompt mixed_request sc) w1 = (w2, Raise e)
    /\ e = JSONDecodeError (u "I cannot help with that.")
    /\ analyze_data garbled mixed_request fresh_world
       = (w2, {| code := 500; message := u "分析失败: " ++ str_exn e; data := None |}).
Proof.
  do 4 eexists.
  split; [vm_compute; reflexivity|].
  split; [vm_compute; reflexivity|].
  split; [vm_compute; reflexivity|].
  eapply (@report_failure_envelope plain_floats plain_runtime).
  - vm_compute. reflexivity.
  - vm_compute. reflexivity.
Defined.

End EnvelopeExample.

(** ** The results log *)

Section Log.

#[local] Existing Instance plain_floats.
#[local] Existing Instance plain_runtime.

(** C9 fails on the code.  The service returns the analysis of the
    subjective answer as an object; the handler appends the result to the
    log (line 409), then line 425 slices that object while printing it and
    raises, and the caller gets the 500 envelope: a failed request has left
    an entry in the log. *)
Lemma failed_request_is_logged :
  code (snd (analyze_data structured mixed_request fresh_world)) = 500%Z
  /\ data (snd (analyze_data structured mixed_request fresh_world)) = None
  /\ List.length (analysis_results (fst (analyze_data structured mixed_request fresh_world)))
     = 1%nat
  /\ print_analysis
       [(u "R", JDict [(u "score", JInt 3%Z);
                       (u "analysis", JDict [(u "logic", JStr (u "sound"))])])]
     = Raise (SliceError (JDict [(u "logic", JStr (u "sound"))])).
Proof.
  repeat split; vm_compute; reflexivity.
Qed.

End Log.

(** ** Whitespace around a JSON text *)

Section DecoderWhitespace.

Context {F : PyFloat}.

Lemma space_eqb c k : is_space c = true -> is_space k = false -> (c =? k) = false.
Proof.
  intros Hc Hk. destruct (c =? k) eqn:E; [|reflexivity].
  apply N.eqb_eq in E. congruence.
Qed.

Lemma space_not_digit c : is_space c = true -> is_digit c = false.
Proof.
  intros Hc. destruct (is_digit c) eqn:E; [|reflexivity].
  unfold is_digit in E. apply andb_prop in E as [E1 E2].
  apply N.leb_le in E1, E2.
  unfold is_space in Hc.
  repeat rewrite orb_true_iff in Hc. repeat rewrite andb_true_iff in Hc.
  repeat rewrite N.leb_le in Hc. repeat rewrite N.eqb_eq in Hc. lia.
Qed.

Lemma space_not_hex c : is_space c = true -> hex_val c = None.
Proof.
  intros Hc. unfold hex_val. rewrite space_not_digit by assumption.
  unfold is_space in Hc.
  repeat rewrite orb_true_iff in Hc. repeat rewrite andb_true_iff in Hc.
  repeat rewrite N.leb_le in Hc. repeat rewrite N.eqb_eq in Hc.
  destruct ((97 <=? c) && (c <=? 102)) eqn:E1.
  { apply andb_prop in E1 as [A B]. apply N.leb_le in A, B. lia. }
  destruct ((65 <=? c) && (c <=? 70)) eqn:E2; [|reflexivity].
  apply andb_prop in E2 as [A B]. apply N.leb_le in A, B. lia.
Qed.

Lemma json_ws_space c : is_json_ws c = true -> is_space c = true.
Proof.
  unfold is_json_ws. repeat rewrite orb_true_iff. repeat rewrite N.eqb_eq.
  intros [[[->| ->]| ->]| ->]; reflexivity.
Qed.

Ltac space_tests c Hc :=
  repeat match goal with
         | |- context [c =? ?k] => rewrite (@space_eqb c k Hc eq_refl)
         end;
  try rewrite (space_not_digit c Hc).

Lemma idle_step_space c p :
  is_space c = true ->
  idle_step c p = (if is_json_ws c then LIdle else LFail, p).
Proof.
  intros Hc. unfold idle_step. destruct (is_json_ws c); [reflexivity|].
  space_tests c Hc. reflexivity.
Qed.

(** What a whitespace code point does to the decoder. *)
Lemma step_space l p c :
  is_space c = true -> word_ok l ->
  step (l, p) c =
  match l with
  | LIdle => (if is_json_ws c then LIdle else LFail, p)
  | LString acc hi => (if c <? 32 then LFail else LString (c :: flush hi acc) None, p)
  | LNum st acc =>
      match number_value st acc with
      | Some v => (if is_json_ws c then LIdle else LFail, pstep p (TScalar v))
      | None => (LFail, p)
      end
  | _ => (LFail, p)
  end.
Proof.
  intros Hc Hl. destruct l as [|acc hi|acc hi|acc hi n v|rest v|st acc|]; cbn [step].
  - apply idle_step_space. assumption.
  - space_tests c Hc. destruct (c <? 32); reflexivity.
  - space_tests c Hc. unfold escape_val. space_tests c Hc. reflexivity.
  - rewrite space_not_hex by assumption. reflexivity.
  - destruct rest as [|r0 rest']; [reflexivity|].
    cbn in Hl. apply andb_prop in Hl as [Hr0 _].
    rewrite space_eqb; [reflexivity|assumption|].
    destruct (is_space r0); [discriminate|reflexivity].
  - unfold num_step, end_number.
    destruct st; cbn [number_value]; space_tests c Hc; cbn [orb];
      try reflexivity; rewrite idle_step_space by assumption; reflexivity.
  - reflexivity.
Qed.

Lemma idle_step_word_ok c p : word_ok (fst (idle_step c p)).
Proof.
  unfold idle_step.
  repeat match goal with
         | |- context [if ?b then _ else _] => destruct b
         end; cbn; auto.
Qed.

Lemma step_word_ok l p c : word_ok l -> word_ok (fst (step (l, p) c)).
Proof.
  intros Hl. destruct l as [|acc hi|acc hi|acc hi n v|rest v|st acc|]; cbn [step].
  - apply idle_step_word_ok.
  - repeat match goal with
           | |- context [if ?b then _ else _] => destruct b
           end; cbn; auto.
  - destruct (c =? 117); [cbn; auto|]. destruct (escape_val c); cbn; auto.
  - destruct (hex_val c); [|cbn; auto]. destruct (Nat.eqb n 3); [|cbn; auto].
    unfold unit_done. destruct hi;
      repeat match goal with
             | |- context [if ?b then _ else _] => destruct b
             end; cbn; auto.
  - destruct rest as [|r0 rest']; [cbn; auto|].
    cbn in Hl. apply andb_prop in Hl as [_ Hrest].
    destruct (c =? r0); [|cbn; auto].
    destruct rest'; cbn; auto.
  - unfold num_step, end_number.
    destruct st; cbn [number_value];
      repeat match goal with
             | |- context [if ?b then _ else _] => destruct b
             end; cbn; auto; apply idle_step_word_ok.
  - cbn. auto.
Qed.

Lemma fold_word_ok doc : forall s, word_ok (fst s) -> word_ok (fst (fold_left step doc s)).
Proof.
  induction doc as [|c r IH]; intros [l p] Hs; [exact Hs|].
  cbn [fold_left]. apply IH. apply step_word_ok. exact Hs.
Qed.

(** Trailing JSON whitespace changes nothing. *)
Lemma finish_step_ws l p c :
  word_ok l -> is_json_ws c = true -> finish (step (l, p) c) = finish (l, p).
Proof.
  intros Hl Hc. rewrite step_space by (try apply json_ws_space; assumption).
  rewrite Hc. destruct l as [|acc hi|acc hi|acc hi n v|rest v|st acc|]; try reflexivity.
  - destruct (c <? 32); reflexivity.
  - cbn [finish]. destruct (number_value st acc); reflexivity.
Qed.

Lemma finish_fold_ws w :
  forallb is_json_ws w = true ->
  forall s, word_ok (fst s) -> finish (fold_left step w s) = finish s.
Proof.
  induction w as [|c r IH]; intros Hw [l p] Hs; [reflexivity|].
  cbn [forallb] in Hw. apply andb_prop in Hw as [Hc Hr].
  cbn [fold_left]. rewrite IH; [|assumption|apply step_word_ok; exact Hs].
  apply finish_step_ws; assumption.
Qed.

Lemma fold_start_ws w :
  forallb is_json_ws w = true -> fold_left step w start = start.
Proof.
  induction w as [|c r IH]; intros Hw; [reflexivity|].
  cbn [forallb] in Hw. apply andb_prop in Hw as [Hc Hr].
  cbn [fold_left]. unfold start at 1. cbn [step]. unfold idle_step. rewrite Hc.
  apply IH. assumption.
Qed.

(** The decoder ignores JSON whitespace around the text. *)
Lemma decode_ws w1 y w2 :
  forallb is_json_ws w1 = true -> forallb is_json_ws w2 = true ->
  decode (w1 ++ y ++ w2) = decode y.
Proof.
  intros H1 H2. unfold decode. rewrite !fold_left_app, fold_start_ws by assumption.
  apply finish_fold_ws; [assumption|]. apply fold_word_ok. exact I.
Qed.

Lemma dead_fold w :
  forallb is_space w = true ->
  forall l p, dead l -> finish (fold_left step w (l, p)) = None.
Proof.
  induction w as [|c r IH]; intros Hw l p Hl.
  - destruct l; try contradiction; reflexivity.
  - cbn [forallb] in Hw. apply andb_prop in Hw as [Hc Hr].
    cbn [fold_left]. destruct l as [|acc hi| | | | |]; try contradiction.
    + rewrite step_space by (assumption || exact I).
      destruct (c <? 32); apply IH; (assumption || exact I).
    + cbn [step]. apply IH; (assumption || exact I).
Qed.

(** Whitespace a text is accepted with, at its end, is JSON whitespace. *)
Lemma accepted_trailing w :
  forallb is_space w = true ->
  forall s, word_ok (fst s) -> finish (fold_left step w s) <> None ->
            forallb is_json_ws w = true.
Proof.
  induction w as [|c r IH]; intros Hw [l p] Hs Hacc; [reflexivity|].
  cbn [forallb] in *. apply andb_prop in Hw as [Hc Hr].
  cbn [fold_left] in Hacc.
  destruct (is_json_ws c) eqn:Hj.
  - cbn [andb]. apply (IH Hr (step (l, p) c)); [apply step_word_ok; exact Hs|exact Hacc].
  - exfalso. apply Hacc. rewrite step_space by assumption. rewrite Hj.
    destruct l as [|acc hi|acc hi|acc hi n v|rest v|st acc|];
      try (apply dead_fold; (assumption || exact I)).
    + destruct (c <? 32); apply dead_fold; (assumption || exact I).
    + destruct (number_value st acc); apply dead_fold; (assumption || exact I).
Qed.

Lemma fail_absorbs doc :
  forall p, exists p', fold_left step doc (LFail, p) = (LFail, p').
Proof.
  induction doc as [|c r IH].
  - intros p. exists p. reflexivity.
  - intros p. cbn [fold_left step]. apply IH.
Qed.

(** And so is the whitespace at its start. *)
Lemma accepted_leading w rest :
  forallb is_space w = true -> decode (w ++ rest) <> None ->
  forallb is_json_ws w = true.
Proof.
  unfold decode. induction w as [|c r IH]; intros Hw Hacc; [reflexivity|].
  cbn [forallb] in *. apply andb_prop in Hw as [Hc Hr].
  cbn [app fold_left] in Hacc. unfold start in Hacc at 1.
  rewrite step_space in Hacc by (assumption || exact I).
  destruct (is_json_ws c) eqn:Hj.
  - cbn [andb]. apply IH; assumption.
  - exfalso. apply Hacc. rewrite fold_left_app.
    destruct (fail_absorbs r (PValue [])) as (p' & ->).
    destruct (fail_absorbs rest p') as (p'' & ->). reflexivity.
Qed.

End DecoderWhitespace.

(** ** The fence *)

Lemma strip_prefix_app p s : strip_prefix p (p ++ s) = Some s.
Proof.
  induction p as [|a p IH]; [destruct s; reflexivity|].
  cbn. rewrite N.eqb_refl. exact IH.
Qed.

Lemma closes_space c r : is_space c = true -> closes (c :: r) = closes r.
Proof.
  intros Hc. unfold closes. cbn [greedy_space]. rewrite Hc.
  destruct (greedy_space (strip_prefix fence) r); [reflexivity|].
  change fence with [96; 96; 96]. cbn [strip_prefix].
  destruct (96 =? c) eqn:E; [|reflexivity].
  apply N.eqb_eq in E. subst c. discriminate.
Qed.

Lemma closes_tight c r :
  is_space c = false ->
  closes (c :: r) = match strip_prefix fence (c :: r) with Some _ => true | None => false end.
Proof. intros Hc. unfold closes. cbn [greedy_space]. rewrite Hc. reflexivity. Qed.

Lemma lazy_body_eq s :
  lazy_body s =
  if closes s then Some []
  else match s with
       | [] => None
       | c :: r => option_map (cons c) (lazy_body r)
       end.
Proof. destruct s; reflexivity. Qed.

Lemma closes_spaces_fence w rest :
  forallb is_space w = true -> closes (w ++ fence ++ rest) = true.
Proof.
  intros Hw. induction w as [|c r IH]; [reflexivity|].
  cbn [forallb] in Hw. apply andb_prop in Hw as [Hc Hr].
  cbn [app]. rewrite closes_space by assumption. auto.
Qed.

Lemma is_substring_cons n c r :
  is_substring n (c :: r) = false ->
  strip_prefix n (c :: r) = None /\ is_substring n r = false.
Proof.
  cbn [is_substring]. destruct (strip_prefix n (c :: r)); [discriminate|auto].
Qed.

(** Before the closing fence and its whitespace, no text that ends tight
    and holds no fence lets the fence close early. *)
Lemma closes_early x w :
  forallb is_space w = true -> w <> [] -> x <> [] ->
  is_substring fence x = false -> ends_tight x = true ->
  closes (x ++ w ++ fence) = false.
Proof.
  intros Hw Hne. destruct w as [|d w']; [contradiction|]. clear Hne.
  cbn [forallb] in Hw. apply andb_prop in Hw as [Hd Hw'].
  assert (Hd96 : (96 =? d) = false).
  { destruct (96 =? d) eqn:E; [|reflexivity]. apply N.eqb_eq in E. subst d. discriminate. }
  induction x as [|c x' IH]; intros Hx Hsub Htight; [contradiction|].
  apply is_substring_cons in Hsub as [Hpre Hsub].
  destruct (is_space c) eqn:Hc.
  - cbn [app]. rewrite closes_space by assumption.
    destruct x' as [|c1 x'']; [cbn in Htight; rewrite Hc in Htight; discriminate|].
    apply IH; [discriminate|assumption|exact Htight].
  - cbn [app]. rewrite closes_tight by assumption.
    change fence with [96; 96; 96] in *.
    destruct x' as [|c1 [|c2 x'']]; cbn [strip_prefix app] in Hpre |- *.
    + destruct (96 =? c); [|reflexivity]. rewrite Hd96. reflexivity.
    + destruct (96 =? c); [|reflexivity]. destruct (96 =? c1); [|reflexivity].
      rewrite Hd96. reflexivity.
    + destruct (96 =? c); [|reflexivity]. destruct (96 =? c1); [|reflexivity].
      destruct (96 =? c2); [discriminate|reflexivity].
Qed.

Lemma lazy_body_tight x w :
  forallb is_space w = true -> w <> [] ->
  is_substring fence x = false -> ends_tight x = true ->
  lazy_body (x ++ w ++ fence) = Some x.
Proof.
  intros Hw Hne. induction x as [|c x' IH]; intros Hsub Htight.
  - rewrite lazy_body_eq. cbn [app].
    rewrite <- (app_nil_r fence) at 1. rewrite closes_spaces_fence by assumption.
    reflexivity.
  - rewrite lazy_body_eq.
    rewrite closes_early by (assumption || discriminate). cbn [app].
    apply is_substring_cons in Hsub as [_ Hsub].
    rewrite IH; [reflexivity|assumption|].
    destruct x' as [|c1 x'']; [reflexivity|exact Htight].
Qed.

Lemma greedy_space_skip w c rest g :
  forallb is_space w = true -> is_space c = false ->
  lazy_body (c :: rest) = Some g ->
  greedy_space lazy_body (w ++ c :: rest) = Some g.
Proof.
  intros Hw Hc Hg. induction w as [|d w' IH].
  - cbn [app greedy_space]. rewrite Hc. exact Hg.
  - cbn [forallb] in Hw. apply andb_prop in Hw as [Hd Hw'].
    cbn [app greedy_space]. rewrite Hd, IH by assumption. reflexivity.
Qed.

Lemma re_search_fence_head s g : match_fence s = Some g -> re_search_fence s = Some g.
Proof. intros H. destruct s; cbn [re_search_fence]; rewrite H; reflexivity. Qed.

Lemma json_fence_needs_fence s : strip_prefix fence s = None -> strip_prefix json_fence s = None.
Proof.
  change fence with [96; 96; 96]. change json_fence with [96; 96; 96; 106; 115; 111; 110].
  destruct s as [|a [|b [|c r]]]; cbn [strip_prefix]; try reflexivity.
  - destruct (96 =? a); reflexivity.
  - destruct (96 =? a); [|reflexivity]. destruct (96 =? b); reflexivity.
  - destruct (96 =? a); [|reflexivity]. destruct (96 =? b); [|reflexivity].
    destruct (96 =? c); [discriminate|reflexivity].
Qed.

(** A text with no fence in it is its own candidate. *)
Lemma candidate_plain s : is_substring fence s = false -> candidate s = s.
Proof.
  intros H. unfold candidate.
  assert (Hn : re_search_fence s = None); [|rewrite Hn; reflexivity].
  induction s as [|c r IH].
  - reflexivity.
  - apply is_substring_cons in H as [Hpre Hsub].
    cbn [re_search_fence]. unfold match_fence.
    rewrite json_fence_needs_fence by assumption. auto.
Qed.

(** The candidate of a fenced text is the text without the whitespace
    around it. *)
Lemma candidate_fenced w1 x w2 :
  forallb is_space w1 = true -> forallb is_space w2 = true ->
  is_substring fence x = false -> ends_tight x = true ->
  (x = [] \/ exists c x', x = c :: x' /\ is_space c = false) ->
  candidate (fenced (w1 ++ x ++ w2)) = x.
Proof.
  intros H1 H2 Hsub Htight Hhead. unfold candidate.
  assert (Hm : match_fence (fenced (w1 ++ x ++ w2)) = Some x);
    [|rewrite (re_search_fence_head _ Hm); reflexivity].
  unfold match_fence, fenced. rewrite strip_prefix_app.
  assert (Hw2 : forallb is_space (w2 ++ [10]) = true).
  { rewrite forallb_app, H2. reflexivity. }
  assert (Hne : w2 ++ [10] <> []) by (destruct w2; discriminate).
  replace ([10] ++ (w1 ++ x ++ w2) ++ [10] ++ fence)
    with ((10 :: w1) ++ (x ++ (w2 ++ [10]) ++ fence))
    by (cbn [app]; rewrite <- !app_assoc; reflexivity).
  destruct Hhead as [->|(c & x' & -> & Hc)].
  - replace ((10 :: w1) ++ [] ++ (w2 ++ [10]) ++ fence)
      with ((10 :: w1 ++ w2 ++ [10]) ++ 96 :: [96; 96])
      by (cbn [app]; rewrite <- !app_assoc; reflexivity).
    apply greedy_space_skip.
    + cbn [forallb]. rewrite forallb_app, H1, Hw2. reflexivity.
    + reflexivity.
    + reflexivity.
  - apply greedy_space_skip.
    + cbn [forallb]. rewrite H1. reflexivity.
    + assumption.
    + apply (lazy_body_tight (c :: x') Hw2 Hne Hsub Htight).
Qed.

(** ** Trimming *)

Lemma trim_end p :
  exists x w2, p = x ++ w2 /\ forallb is_space w2 = true /\ ends_tight x = true.
Proof.
  induction p as [|c r (x & w2 & -> & Hw & Hx)].
  - exists [], []. repeat split; reflexivity.
  - destruct x as [|d x'].
    + destruct (is_space c) eqn:Hc.
      * exists [], (c :: w2). cbn. rewrite Hc, Hw. repeat split; reflexivity.
      * exists [c], w2. cbn. rewrite Hc. repeat split; (reflexivity || assumption).
    + exists (c :: d :: x'), w2. repeat split; (reflexivity || assumption).
Qed.

Lemma trim p :
  exists w1 x w2,
    p = w1 ++ x ++ w2
    /\ forallb is_space w1 = true /\ forallb is_space w2 = true
    /\ ends_tight x = true
    /\ (x = [] \/ exists c x', x = c :: x' /\ is_space c = false).
Proof.
  induction p as [|c r (w1 & x & w2 & Hp & H1 & H2 & Hx & Hhead)].
  - exists [], [], []. repeat split; try reflexivity. left. reflexivity.
  - destruct (is_space c) eqn:Hc.
    + exists (c :: w1), x, w2. cbn. rewrite Hc, H1, Hp.
      repeat split; (reflexivity || assumption).
    + destruct (trim_end (c :: r)) as (y & v & Hy & Hv & Hty).
      exists [], y, v. cbn [app forallb]. repeat split; try assumption.
      destruct y as [|d y']; [left; reflexivity|].
      right. exists d, y'. split; [reflexivity|].
      cbn in Hy. injection Hy as <- _. assumption.
Qed.

Lemma is_substring_skip n a s :
  is_substring n (a ++ s) = false -> is_substring n s = false.
Proof.
  induction a as [|c r IH]; [auto|].
  cbn [app]. intros H. apply is_substring_cons in H as [_ H]. auto.
Qed.

Lemma strip_prefix_some_app n s b r :
  strip_prefix n s = Some r -> strip_prefix n (s ++ b) = Some (r ++ b).
Proof.
  revert s. induction n as [|a n IH]; intros s H.
  - destruct s; cbn in *; injection H as <-; reflexivity.
  - destruct s as [|c s']; [discriminate|]. cbn in *.
    destruct (a =? c); [auto|discriminate].
Qed.

Lemma is_substring_cut n s b :
  is_substring n (s ++ b) = false -> is_substring n s = false.
Proof.
  induction s as [|c r IH]; intros H.
  - cbn [app] in H. cbn [is_substring].
    destruct n as [|a n']; [destruct b; discriminate H|reflexivity].
  - cbn [app] in H. apply is_substring_cons in H as [Hpre H].
    cbn [is_substring]. destruct (strip_prefix n (c :: r)) as [r'|] eqn:E.
    + apply strip_prefix_some_app with (b := b) in E.
      cbn [app] in E. rewrite E in Hpre. discriminate.
    + auto.
Qed.

(** ** The repair and the whitespace around a text *)

Lemma re_sub_comma_lead close w rest :
  forallb is_space w = true ->
  re_sub_comma close (w ++ rest) = w ++ re_sub_comma close rest.
Proof.
  intros Hw. induction w as [|c r IH]; [reflexivity|].
  cbn [forallb] in Hw. apply andb_prop in Hw as [Hc Hr].
  cbn [app]. rewrite re_sub_comma_cons, (@space_eqb c 44 Hc eq_refl), IH by assumption.
  reflexivity.
Qed.

Lemma re_sub_comma_trail close x w :
  is_space close = false -> forallb is_space w = true ->
  re_sub_comma close (x ++ w) = re_sub_comma close x ++ w.
Proof.
  intros Hc Hw. rewrite re_sub_comma_app by (apply space_then_spaces; assumption).
  rewrite (re_sub_comma_no_comma close w) by (apply space_not_comma; assumption).
  reflexivity.
Qed.

Lemma repair_trim w1 x w2 :
  forallb is_space w1 = true -> forallb is_space w2 = true ->
  repair (w1 ++ x ++ w2) = w1 ++ repair x ++ w2.
Proof.
  intros H1 H2. unfold repair.
  rewrite re_sub_comma_lead with (close := 125) (w := w1) by assumption.
  rewrite re_sub_comma_trail with (close := 125) (w := w2) by (assumption || reflexivity).
  rewrite re_sub_comma_lead with (close := 93) (w := w1) by assumption.
  rewrite re_sub_comma_trail with (close := 93) (w := w2) by (assumption || reflexivity).
  reflexivity.
Qed.

Section FencedPayload.

Context {F : PyFloat}.

(** C8, as the code has it.  For a well-formed payload that holds no run
    of three backticks, the extractor returns a value on the payload in a
    fenced block exactly when it returns that value on the payload as it
    stands. *)
Theorem fenced_payload_same_result payload :
  decode payload <> None -> is_substring fence payload = false ->
  forall v, extract (fenced payload) = Ok v <-> extract payload = Ok v.
Proof.
  intros Hwf Hsub v.
  destruct (trim payload) as (w1 & x & w2 & -> & H1 & H2 & Hx & Hhead).
  assert (Hsubx : is_substring fence x = false).
  { apply is_substring_skip in Hsub. apply is_substring_cut in Hsub. exact Hsub. }
  assert (J1 : forallb is_json_ws w1 = true).
  { apply accepted_leading with (rest := x ++ w2); assumption. }
  assert (J2 : forallb is_json_ws w2 = true).
  { apply accepted_trailing with (s := fold_left step (w1 ++ x) start).
    - assumption.
    - apply fold_word_ok. exact I.
    - unfold decode in Hwf. rewrite app_assoc, fold_left_app in Hwf. exact Hwf. }
  unfold extract.
  rewrite candidate_fenced by assumption.
  rewrite candidate_plain by assumption.
  rewrite repair_trim by assumption.
  unfold json_loads. rewrite decode_ws by assumption.
  destruct (decode (repair x)); cbn [rbind]; [reflexivity|].
  split; intros H; discriminate H.
Qed.

End FencedPayload.

Section FencedExample.

#[local] Existing Instance plain_floats.
#[local] Existing Instance plain_runtime.

(** C8 fails: a valid payload with three backticks inside a string is
    parsed as it stands, and is cut at the backticks when fenced. *)
Lemma fenced_payload_differs :
  json_loads backticks = Ok (JDict [(u "a", JStr (u "```"))])
  /\ extract backticks = Ok (JDict [(u "a", JStr (u "```"))])
  /\ candidate (fenced backticks) = jq "{'a': '"
  /\ extract (fenced backticks) = Raise (JSONDecodeError (jq "{'a': '")).
Proof.
  repeat split; vm_compute; reflexivity.
Qed.

Lemma fenced_payload_same_result_witness :
  decode (jq "{'score': 3}") <> None
  /\ is_substring fence (jq "{'score': 3}") = false
  /\ extract (fenced (jq "{'score': 3}")) = Ok (JDict [(u "score", JInt 3%Z)])
  /\ extract (jq "{'score': 3}") = Ok (JDict [(u "score", JInt 3%Z)]).
Proof.
  assert (Hwf : decode (jq "{'score': 3}") <> None) by (vm_compute; discriminate).
  assert (Hsub : is_substring fence (jq "{'score': 3}") = false) by (vm_compute; reflexivity).
  assert (Hplain : extract (jq "{'score': 3}") = Ok (JDict [(u "score", JInt 3%Z)]))
    by (vm_compute; reflexivity).
  split; [exact Hwf|]. split; [exact Hsub|]. split; [|exact Hplain].
  apply (@fenced_payload_same_result plain_floats (jq "{'score': 3}") Hwf Hsub).
  exact Hplain.
Defined.

End FencedExample.

Section LogProperties.

Context {F : PyFloat} {R : PyRuntime}.

Lemma keeps_log_lift A (r : result A) : keeps_log (lift r).
Proof. intros w. reflexivity. Qed.

Lemma keeps_log_mret A (a : A) : keeps_log (mret a).
Proof. intros w. reflexivity. Qed.

Lemma keeps_log_mbind A B (m : M A) (k : A -> M B) :
  keeps_log m -> (forall a, keeps_log (k a)) -> keeps_log (mbind m k).
Proof.
  intros Hm Hk w. unfold mbind. specialize (Hm w).
  destruct (m w) as [w1 [a|e]]; cbn [fst] in *.
  - rewrite Hk. exact Hm.
  - exact Hm.
Qed.

Lemma keeps_log_call E p : keeps_log (call_ai_model E p).
Proof.
  intros w. unfold call_ai_model.
  destruct (create E (calls w) p) as [msg|[|[content|] rest]]; reflexivity.
Qed.

Lemma keeps_log_dimension E dim dimension_responses s :
  keeps_log (score_dimension E dim dimension_responses s).
Proof.
  intros w. unfold score_dimension.
  destruct (dict_get dim dimension_responses) as [responses|]; [|reflexivity].
  destruct (negb (py_truthy responses)); [reflexivity|].
  pose proof (keeps_log_call E (SubjectivePrompt dim responses) w) as H.
  destruct (call_ai_model E (SubjectivePrompt dim responses) w) as [w' [subj_result|e]];
    [|exact H].
  destruct (record_result dim subj_result s) as [s' [e|]]; exact H.
Qed.

Lemma keeps_log_dimensions E dims dimension_responses :
  forall s, keeps_log (score_dimensions E dims dimension_responses s).
Proof.
  induction dims as [|dim rest IH]; intros s.
  - apply keeps_log_mret.
  - cbn [score_dimensions]. apply keeps_log_mbind; [apply keeps_log_dimension|exact IH].
Qed.

Lemma keeps_log_score E req : keeps_log (score E req).
Proof.
  unfold score. apply keeps_log_mbind; [apply keeps_log_lift|]. intros fqs.
  destruct (split_pairs (answers req) fqs) as [o sq].
  apply keeps_log_mbind; [apply keeps_log_lift|]. intros obj.
  apply keeps_log_mbind.
  - unfold score_subjective. destruct sq; [apply keeps_log_mret|].
    apply keeps_log_mbind; [apply keeps_log_lift|]. intros dr.
    apply keeps_log_dimensions.
  - intros s. apply keeps_log_mbind; [apply keeps_log_lift|]. intros total.
    apply keeps_log_mret.
Qed.

Lemma analyze_data_log E req w :
  exists entries,
    analysis_results (fst (analyze_data E req w)) = analysis_results w ++ entries
    /\ (entries = []
        \/ exists analysis_result entry,
             entries = [entry] /\ is_entry (user_info req) analysis_result entry)
    /\ (code (snd (analyze_data E req w)) = 200%Z ->
        exists analysis_result entry,
          data (snd (analyze_data E req w)) = Some analysis_result
          /\ entries = [entry] /\ is_entry (user_info req) analysis_result entry).
Proof.
  unfold analyze_data, analyze, mbind.
  pose proof (keeps_log_score E req w) as Hs.
  destruct (score E req w) as [w1 [sc|e]]; cbn [fst] in Hs.
  2:{ exists []. cbn [fst snd code]. rewrite app_nil_r. split; [assumption|].
      split; [left; reflexivity|discriminate]. }
  pose proof (keeps_log_call E (report_prompt req sc) w1) as Hc.
  destruct (call_ai_model E (report_prompt req sc) w1) as [w2 [raw|e]]; cbn [fst] in Hc.
  2:{ exists []. cbn [fst snd code]. rewrite app_nil_r. split; [congruence|].
      split; [left; reflexivity|discriminate]. }
  unfold finish_report, mbind, lift.
  destruct (reconcile raw (objective_scores sc) (subjective_result sc) (total_scores sc))
    as [r|e].
  2:{ exists []. cbn [fst snd code]. rewrite app_nil_r. split; [congruence|].
      split; [left; reflexivity|discriminate]. }
  rewrite store_ok.
  eexists [_]. 
  destruct (print_analysis (subjective_analysis (subjective_result sc))) as [[]|e];
    cbn [fst snd code data analysis_results mret].
  - split; [rewrite Hc, Hs; reflexivity|].
    split; [right|intros _]; exists r; eexists; (split; [reflexivity|]);
      try (split; [reflexivity|]); eexists; reflexivity.
  - split; [rewrite Hc, Hs; reflexivity|].
    split; [|discriminate]. right. exists r. eexists. split; [reflexivity|].
    eexists. reflexivity.
Qed.

(** The results log only grows, by at most one entry a request, and a
    request that succeeds appends the entry of the data it returns. *)
Theorem log_append_only E req w :
  exists entries,
    analysis_results (fst (analyze_data E req w)) = analysis_results w ++ entries
    /\ (entries = []
        \/ exists analysis_result entry,
             entries = [entry] /\ is_entry (user_info req) analysis_result entry)
    /\ (code (snd (analyze_data E req w)) = 200%Z ->
        exists analysis_result entry,
          data (snd (analyze_data E req w)) = Some analysis_result
          /\ entries = [entry] /\ is_entry (user_info req) analysis_result entry).
Proof. apply analyze_data_log. Qed.

End LogProperties.

Section LogOfMany.

Context {F : PyFloat} {R : PyRuntime}.

(** After requests that all succeed the log has gained one entry a request,
    in the order of arrival, each with the data returned for its request. *)
Theorem log_of_successes E reqs :
  forall w,
    Forall (fun resp => code resp = 200%Z) (snd (serve E reqs w)) ->
    exists entries,
      analysis_results (fst (serve E reqs w)) = analysis_results w ++ entries
      /\ List.length entries = List.length reqs
      /\ Forall2 (fun req_resp entry =>
                    exists analysis_result,
                      data (snd req_resp) = Some analysis_result
                      /\ is_entry (user_info (fst req_resp)) analysis_result entry)
           (combine reqs (snd (serve E reqs w))) entries.
Proof.
  induction reqs as [|req rest IH]; intros w Hall.
  - exists []. cbn. rewrite app_nil_r. repeat split. constructor.
  - cbn [serve] in *.
    destruct (analyze_data_log E req w) as (entries & Hlog & _ & Hok).
    destruct (analyze_data E req w) as [w1 resp]. cbn [fst snd] in *.
    specialize (IH w1).
    destruct (serve E rest w1) as [w2 resps]. cbn [fst snd] in *.
    inversion Hall as [|? ? Hresp Hrest]; subst.
    destruct (Hok Hresp) as (r & entry & Hdata & -> & Hentry).
    destruct (IH Hrest) as (more & Hmore & Hlen & Hall2).
    exists (entry :: more). split; [|split].
    + rewrite Hmore, Hlog, <- app_assoc. reflexivity.
    + cbn. congruence.
    + cbn [combine]. constructor; [|exact Hall2].
      exists r. cbn [fst snd]. auto.
Qed.

End LogOfMany.

Section LogExample.

#[local] Existing Instance plain_floats.
#[local] Existing Instance plain_runtime.

(** Two requests that succeed leave two entries. *)
Lemma log_of_successes_witness :
  exists entries,
    analysis_results (fst (serve generous [objective_request; mixed_request] fresh_world))
    = [] ++ entries
    /\ List.length entries = 2%nat.
Proof.
  destruct (@log_of_successes plain_floats plain_runtime generous
              [objective_request; mixed_request] fresh_world)
    as (entries & Hlog & Hlen & _).
  - vm_compute. repeat constructor.
  - exists entries. split; [exact Hlog|exact Hlen].
Defined.

End LogExample.

(** * Further properties *)

(** ** The repair and the text it leaves alone *)

Section RepairFixpoint.

Variable close : N.

Lemma space_then_some r post :
  space_then close r = Some post ->
  exists w, r = w ++ close :: post /\ forallb is_space w = true.
Proof.
  induction r as [|c r IH]; [discriminate|].
  cbn [space_then]. destruct (c =? close) eqn:Ec.
  - intros H. injection H as <-. apply N.eqb_eq in Ec. subst c.
    exists []. split; reflexivity.
  - destruct (is_space c) eqn:Hc; [|discriminate].
    intros H. destruct (IH H) as (w & -> & Hw).
    exists (c :: w). cbn. rewrite Hc, Hw. split; reflexivity.
Qed.

Lemma re_sub_comma_length_bound n :
  forall s, (List.length s <= n)%nat ->
            (List.length (re_sub_comma close s) <= List.length s)%nat.
Proof.
  induction n as [|n IH]; intros [|c r] Hn; cbn [List.length] in Hn;
    try (cbn; lia).
  rewrite re_sub_comma_cons. cbn [List.length].
  - idtac.
    destruct (c =? 44).
    + destruct (space_then close r) as [r'|] eqn:Er.
      * pose proof (space_then_length _ _ Er) as Hlt.
        cbn [List.length]. specialize (IH r'). lia.
      * cbn [List.length]. specialize (IH r). lia.
    + cbn [List.length]. specialize (IH r). lia.
Qed.

Lemma re_sub_comma_length s :
  (List.length (re_sub_comma close s) <= List.length s)%nat.
Proof. apply re_sub_comma_length_bound with (n := List.length s). lia. Qed.

(** A text that keeps its length is kept. *)
Lemma re_sub_comma_same_length s :
  List.length (re_sub_comma close s) = List.length s -> re_sub_comma close s = s.
Proof.
  induction s as [|c r IH]; [reflexivity|].
  rewrite re_sub_comma_cons.
  destruct (c =? 44).
  - destruct (space_then close r) as [r'|] eqn:Er.
    + pose proof (space_then_length _ _ Er) as Hlt.
      pose proof (re_sub_comma_length r') as Hle.
      cbn [List.length]. lia.
    + cbn [List.length]. intros H. f_equal. apply IH. lia.
  - cbn [List.length]. intros H. f_equal. apply IH. lia.
Qed.

(** Without a match the text is kept. *)
Lemma re_sub_comma_no_match s :
  (forall pre w post, s = pre ++ 44 :: w ++ close :: post -> forallb is_space w = true -> False) ->
  re_sub_comma close s = s.
Proof.
  induction s as [|c r IH]; intros Hno; [reflexivity|].
  rewrite re_sub_comma_cons.
  assert (Hr : re_sub_comma close r = r).
  { apply IH. intros pre w post -> Hw. apply (Hno (c :: pre) w post); [reflexivity|exact Hw]. }
  destruct (c =? 44) eqn:Ec; [|rewrite Hr; reflexivity].
  destruct (space_then close r) as [r'|] eqn:Er; [|rewrite Hr; reflexivity].
  exfalso. apply N.eqb_eq in Ec. subst c.
  destruct (space_then_some _ Er) as (w & -> & Hw).
  apply (Hno [] w r'); [reflexivity|exact Hw].
Qed.

Hypothesis close_tight : is_space close = false.
Hypothesis close_not_comma : close <> 44.

(** A match makes the text shorter. *)
Lemma re_sub_comma_shrinks pre w post :
  forallb is_space w = true ->
  Nat.lt (List.length (re_sub_comma close (pre ++ 44 :: w ++ close :: post)))
         (List.length (pre ++ 44 :: w ++ close :: post)).
Proof.
  intros Hw. unfold Nat.lt. rewrite re_sub_comma_match by assumption.
  rewrite !length_app. cbn [List.length]. rewrite length_app. cbn [List.length].
  pose proof (re_sub_comma_length pre). pose proof (re_sub_comma_length post). lia.
Qed.

End RepairFixpoint.

(** The repair leaves a text as it is exactly when no comma in it is
    followed, after optional whitespace, by a closing brace or bracket. *)
Theorem repair_changes_only_trailing_commas s :
  repair s = s <-> ~ trailing_comma s.
Proof.
  split.
  - intros Hfix (pre & w & close & post & -> & Hw & Hclose).
    pose proof (re_sub_comma_length 125 (pre ++ [44] ++ w ++ [close] ++ post)) as H125.
    pose proof (re_sub_comma_length 93
                  (re_sub_comma 125 (pre ++ [44] ++ w ++ [close] ++ post))) as H93.
    fold (repair (pre ++ [44] ++ w ++ [close] ++ post)) in H93.
    destruct Hclose as [-> | ->].
    + pose proof (@re_sub_comma_shrinks 125 eq_refl ltac:(discriminate) pre w post Hw) as Hlt.
      unfold Nat.lt in Hlt. cbn [app] in *. rewrite Hfix in H93. lia.
    + assert (Hsame : re_sub_comma 125 (pre ++ [44] ++ w ++ [93] ++ post)
                      = pre ++ [44] ++ w ++ [93] ++ post).
      { apply re_sub_comma_same_length. rewrite Hfix in H93. lia. }
      unfold repair in Hfix. rewrite Hsame in Hfix.
      pose proof (@re_sub_comma_shrinks 93 eq_refl ltac:(discriminate) pre w post Hw) as Hlt.
      unfold Nat.lt in Hlt. cbn [app] in *. rewrite Hfix in Hlt. lia.
  - intros Hno. unfold repair.
    assert (H125 : re_sub_comma 125 s = s).
    { apply re_sub_comma_no_match. intros pre w post -> Hw.
      apply Hno. exists pre, w, 125, post. auto. }
    rewrite H125. apply re_sub_comma_no_match. intros pre w post -> Hw.
    apply Hno. exists pre, w, 93, post. auto.
Qed.

(** ** A fenced block inside other text *)

(** After a text that ends tight and holds no fence, whitespace does not
    let the fence close. *)
Lemma closes_before_space x d rest :
  is_space d = true -> x <> [] ->
  is_substring fence x = false -> ends_tight x = true ->
  closes (x ++ d :: rest) = false.
Proof.
  intros Hd.
  assert (Hd96 : (96 =? d) = false).
  { destruct (96 =? d) eqn:E; [|reflexivity]. apply N.eqb_eq in E. subst d. discriminate. }
  induction x as [|c x' IH]; intros Hx Hsub Htight; [contradiction|].
  apply is_substring_cons in Hsub as [Hpre Hsub].
  destruct (is_space c) eqn:Hc.
  - cbn [app]. rewrite closes_space by assumption.
    destruct x' as [|c1 x'']; [cbn in Htight; rewrite Hc in Htight; discriminate|].
    apply IH; [discriminate|assumption|exact Htight].
  - cbn [app]. rewrite closes_tight by assumption.
    change fence with [96; 96; 96] in *.
    destruct x' as [|c1 [|c2 x'']]; cbn [strip_prefix app] in Hpre |- *.
    + destruct (96 =? c); [|reflexivity]. rewrite Hd96. reflexivity.
    + destruct (96 =? c); [|reflexivity]. destruct (96 =? c1); [|reflexivity].
      rewrite Hd96. reflexivity.
    + destruct (96 =? c); [|reflexivity]. destruct (96 =? c1); [|reflexivity].
      destruct (96 =? c2); [discriminate|reflexivity].
Qed.

(** The body of the block ends at the whitespace before the first closing
    fence, whatever follows the fence. *)
Lemma lazy_body_then x w suffix :
  forallb is_space w = true -> w <> [] ->
  is_substring fence x = false -> ends_tight x = true ->
  lazy_body (x ++ w ++ fence ++ suffix) = Some x.
Proof.
  intros Hw Hne. induction x as [|c x' IH]; intros Hsub Htight.
  - rewrite lazy_body_eq. cbn [app].
    rewrite closes_spaces_fence by assumption. reflexivity.
  - rewrite lazy_body_eq.
    destruct w as [|d w']; [contradiction|].
    cbn [forallb] in Hw. apply andb_prop in Hw as [Hd Hw'].
    replace ((c :: x') ++ (d :: w') ++ fence ++ suffix)
      with ((c :: x') ++ d :: (w' ++ fence ++ suffix)) by reflexivity.
    rewrite closes_before_space by (assumption || discriminate).
    cbn [app].
    apply is_substring_cons in Hsub as [_ Hsub].
    change (x' ++ d :: w' ++ fence ++ suffix) with (x' ++ (d :: w') ++ fence ++ suffix).
    rewrite IH; [reflexivity|assumption|].
    destruct x' as [|c1 x'']; [reflexivity|exact Htight].
Qed.

(** The pattern at the head of a fenced block, whatever follows it. *)
Lemma match_fence_block w1 x w2 suffix :
  forallb is_space w1 = true -> forallb is_space w2 = true ->
  is_substring fence x = false -> ends_tight x = true ->
  (x = [] \/ exists c x', x = c :: x' /\ is_space c = false) ->
  match_fence (fenced (w1 ++ x ++ w2) ++ suffix) = Some x.
Proof.
  intros H1 H2 Hsub Htight Hhead.
  unfold match_fence, fenced. rewrite <- app_assoc. rewrite strip_prefix_app.
  assert (Hw2 : forallb is_space (w2 ++ [10]) = true).
  { rewrite forallb_app, H2. reflexivity. }
  assert (Hne : w2 ++ [10] <> []) by (destruct w2; discriminate).
  replace (([10] ++ (w1 ++ x ++ w2) ++ [10] ++ fence) ++ suffix)
    with ((10 :: w1) ++ (x ++ (w2 ++ [10]) ++ fence ++ suffix))
    by (cbn [app]; rewrite <- !app_assoc; reflexivity).
  destruct Hhead as [->|(c & x' & -> & Hc)].
  - replace ((10 :: w1) ++ [] ++ (w2 ++ [10]) ++ fence ++ suffix)
      with ((10 :: w1 ++ w2 ++ [10]) ++ 96 :: ([96; 96] ++ suffix))
      by (cbn [app]; rewrite <- !app_assoc; reflexivity).
    apply greedy_space_skip.
    + cbn [forallb]. rewrite forallb_app, H1, Hw2. reflexivity.
    + reflexivity.
    + reflexivity.
  - apply greedy_space_skip.
    + cbn [forallb]. rewrite H1. reflexivity.
    + assumption.
    + apply (lazy_body_then (c :: x') suffix Hw2 Hne Hsub Htight).
Qed.

(** A pattern that fails on a text fails on the text with more after it,
    unless the text ran out first. *)
Lemma strip_prefix_none_app n :
  forall p x,
    strip_prefix n p = None ->
    strip_prefix n (p ++ x) = None
    \/ exists n2, n = p ++ n2 /\ n2 <> []
                  /\ strip_prefix n (p ++ x) = strip_prefix n2 x.
Proof.
  induction n as [|a n IH]; intros p x H.
  - destruct p; discriminate H.
  - destruct p as [|b p].
    + right. exists (a :: n). split; [reflexivity|]. split; [discriminate|reflexivity].
    + cbn [strip_prefix app] in H |- *. destruct (a =? b) eqn:E; [|left; reflexivity].
      apply N.eqb_eq in E. subst b.
      destruct (IH p x H) as [Hn|(n2 & -> & Hne & Hn)]; [left; exact Hn|].
      right. exists n2. split; [reflexivity|]. split; assumption.
Qed.

(** An opening fence does not start inside a text that holds none, even
    when an opening fence follows the text. *)
Lemma json_fence_straddle p rest :
  p <> [] -> strip_prefix json_fence p = None ->
  strip_prefix json_fence (p ++ json_fence ++ rest) = None.
Proof.
  intros Hp H.
  destruct (strip_prefix_none_app json_fence p (json_fence ++ rest) H)
    as [Hn|(n2 & Hsplit & Hne & Hn)]; [exact Hn|].
  rewrite Hn. clear Hn H.
  change json_fence with [96; 96; 96; 106; 115; 111; 110] in *.
  destruct p as [|a1 p]; [contradiction|]. clear Hp.
  injection Hsplit as _ Hsplit.
  destruct p as [|a2 p]; [cbn [app] in Hsplit; subst n2; reflexivity|injection Hsplit as _ Hsplit].
  destruct p as [|a3 p]; [cbn [app] in Hsplit; subst n2; reflexivity|injection Hsplit as _ Hsplit].
  destruct p as [|a4 p]; [cbn [app] in Hsplit; subst n2; reflexivity|injection Hsplit as _ Hsplit].
  destruct p as [|a5 p]; [cbn [app] in Hsplit; subst n2; reflexivity|injection Hsplit as _ Hsplit].
  destruct p as [|a6 p]; [cbn [app] in Hsplit; subst n2; reflexivity|injection Hsplit as _ Hsplit].
  destruct p as [|a7 p]; [cbn [app] in Hsplit; subst n2; reflexivity|injection Hsplit as _ Hsplit].
  destruct p; [cbn [app] in Hsplit; subst n2; contradiction|discriminate Hsplit].
Qed.

Lemma re_search_fence_after prefix block :
  is_substring json_fence prefix = false ->
  re_search_fence (prefix ++ json_fence ++ block)
  = re_search_fence (json_fence ++ block).
Proof.
  induction prefix as [|c r IH]; intros Hsub; [reflexivity|].
  apply is_substring_cons in Hsub as [Hpre Hsub].
  cbn [app re_search_fence]. unfold match_fence at 1.
  change (c :: r ++ json_fence ++ block) with ((c :: r) ++ json_fence ++ block).
  rewrite json_fence_straddle by (assumption || discriminate).
  apply IH. exact Hsub.
Qed.

(** The candidate of a text with a fenced block in it is the inside of the
    first block, without the whitespace around it. *)
Lemma candidate_block prefix w1 x w2 suffix :
  is_substring json_fence prefix = false ->
  forallb is_space w1 = true -> forallb is_space w2 = true ->
  is_substring fence x = false -> ends_tight x = true ->
  (x = [] \/ exists c x', x = c :: x' /\ is_space c = false) ->
  candidate (prefix ++ fenced (w1 ++ x ++ w2) ++ suffix) = x.
Proof.
  intros Hp H1 H2 Hsub Htight Hhead. unfold candidate.
  assert (Hm : match_fence (fenced (w1 ++ x ++ w2) ++ suffix) = Some x)
    by (apply match_fence_block; assumption).
  assert (Hs : re_search_fence (prefix ++ fenced (w1 ++ x ++ w2) ++ suffix) = Some x).
  { unfold fenced in *. rewrite <- app_assoc in *.
    rewrite re_search_fence_after by assumption.
    apply re_search_fence_head. exact Hm. }
  rewrite Hs. reflexivity.
Qed.

Section ProseAroundFence.

Context {F : PyFloat} {R : PyRuntime}.

(** Text before and after a fenced block is ignored: when the text before
    holds no opening fence, and the payload is well formed and holds no run
    of three backticks, the extractor returns on the whole text what it
    returns on the payload alone. *)
Theorem prose_around_fence_ignored prefix payload suffix :
  is_substring json_fence prefix = false ->
  decode payload <> None -> is_substring fence payload = false ->
  forall v, extract (prefix ++ fenced payload ++ suffix) = Ok v <-> extract payload = Ok v.
Proof.
  intros Hp Hwf Hsub v.
  destruct (trim payload) as (w1 & x & w2 & -> & H1 & H2 & Hx & Hhead).
  assert (Hsubx : is_substring fence x = false).
  { apply is_substring_skip in Hsub. apply is_substring_cut in Hsub. exact Hsub. }
  assert (J1 : forallb is_json_ws w1 = true).
  { apply accepted_leading with (rest := x ++ w2); assumption. }
  assert (J2 : forallb is_json_ws w2 = true).
  { apply accepted_trailing with (s := fold_left step (w1 ++ x) start).
    - assumption.
    - apply fold_word_ok. exact I.
    - unfold decode in Hwf. rewrite app_assoc, fold_left_app in Hwf. exact Hwf. }
  unfold extract.
  rewrite candidate_block by assumption.
  rewrite candidate_plain by assumption.
  rewrite repair_trim by assumption.
  unfold json_loads. rewrite decode_ws by assumption.
  destruct (decode (repair x)); cbn [rbind]; [reflexivity|].
  split; intros H; discriminate H.
Qed.

End ProseAroundFence.

Section ProseExample.

#[local] Existing Instance plain_floats.
#[local] Existing Instance plain_runtime.

Lemma prose_around_fence_ignored_witness :
  extract (u "Here is the result: " ++ fenced (jq "{'score': 3}")
           ++ u " I hope this helps. ```json {} ```")
  = Ok (JDict [(u "score", JInt 3%Z)]).
Proof.
  apply (@prose_around_fence_ignored plain_floats
           (u "Here is the result: ") (jq "{'score': 3}")
           (u " I hope this helps. ```json {} ```")).
  - vm_compute. reflexivity.
  - vm_compute. discriminate.
  - vm_compute. reflexivity.
  - vm_compute. reflexivity.
Defined.

End ProseExample.

(** ** What the extractor returns *)

Section ExtractorResults.

Context {F : PyFloat} {R : PyRuntime}.

Lemma dict_mem_set (d : dict) k k' v :
  dict_mem k' d = true -> dict_mem k' (dict_set d k v) = true.
Proof.
  unfold dict_mem. intros H.
  destruct (pystr_eqb k' k) eqn:E.
  - apply pystr_eqb_eq in E. subst k'. rewrite dict_get_set_same. reflexivity.
  - apply pystr_eqb_neq in E. rewrite dict_get_set_other by assumption. exact H.
Qed.

Lemma collect_scores_spec items :
  forall acc scores,
    collect_scores items acc = Ok scores ->
    (forall k v, dict_get k scores = Some v ->
       dict_get k acc = Some v
       \/ exists fields, In (k, JDict fields) items /\ dict_get (u "score") fields = Some v)
    /\ (forall k, dict_mem k acc = true -> dict_mem k scores = true)
    /\ (forall k fields, In (k, JDict fields) items ->
          dict_mem (u "score") fields = true -> dict_mem k scores = true)
    /\ (forall k detail, In (k, detail) items ->
          (exists fields, detail = JDict fields) \/ scoreless detail).
Proof.
  induction items as [|[k0 detail] rest IH]; intros acc scores H.
  - cbn in H. injection H as <-. repeat split; try (intros; contradiction); auto.
  - cbn [collect_scores] in H.
    destruct detail as [| b | z | f | s | l | fields]; try discriminate H; cbn [py_contains rbind] in H.
    + (* a text *)
      destruct (is_substring (u "score") s) eqn:Hs; [discriminate H|].
      destruct (IH _ _ H) as (Hsound & Hacc & Hcomplete & Hshape).
      repeat split.
      * intros k v Hk. destruct (Hsound k v Hk) as [?|(fields & Hin & Hf)]; [auto|].
        right. exists fields. split; [right; exact Hin|exact Hf].
      * exact Hacc.
      * intros k fields [Heq|Hin]; [discriminate Heq|eauto].
      * intros k detail [Heq|Hin]; [|eauto].
        injection Heq as <- <-. right. exact Hs.
    + (* a list *)
      destruct (existsb (py_eq (JStr (u "score"))) l) eqn:Hl; [discriminate H|].
      destruct (IH _ _ H) as (Hsound & Hacc & Hcomplete & Hshape).
      repeat split.
      * intros k v Hk. destruct (Hsound k v Hk) as [?|(fields & Hin & Hf)]; [auto|].
        right. exists fields. split; [right; exact Hin|exact Hf].
      * exact Hacc.
      * intros k fields [Heq|Hin]; [discriminate Heq|eauto].
      * intros k detail [Heq|Hin]; [|eauto].
        injection Heq as <- <-. right. exact Hl.
    + (* a record *)
      unfold dict_mem in H. cbn [py_getitem] in H.
      destruct (dict_get (u "score") fields) as [v0|] eqn:Hv; cbn [rbind] in H.
      * destruct (IH _ _ H) as (Hsound & Hacc & Hcomplete & Hshape).
        repeat split.
        -- intros k v Hk. destruct (Hsound k v Hk) as [Hset|(fields' & Hin & Hf)].
           ++ destruct (pystr_eqb k k0) eqn:E.
              ** apply pystr_eqb_eq in E. subst k.
                 rewrite dict_get_set_same in Hset. injection Hset as <-.
                 right. exists fields. split; [left; reflexivity|exact Hv].
              ** apply pystr_eqb_neq in E.
                 rewrite dict_get_set_other in Hset by assumption. left. exact Hset.
           ++ right. exists fields'. split; [right; exact Hin|exact Hf].
        -- intros k Hk. apply Hacc. apply dict_mem_set. exact Hk.
        -- intros k fields' [Heq|Hin] Hm; [|eauto].
           injection Heq as <- <-. apply Hacc. unfold dict_mem.
           rewrite dict_get_set_same. reflexivity.
        -- intros k detail [Heq|Hin]; [|eauto].
           injection Heq as <- <-. left. eauto.
      * destruct (IH _ _ H) as (Hsound & Hacc & Hcomplete & Hshape).
        repeat split.
        -- intros k v Hk. destruct (Hsound k v Hk) as [?|(fields' & Hin & Hf)]; [auto|].
           right. exists fields'. split; [right; exact Hin|exact Hf].
        -- exact Hacc.
        -- intros k fields' [Heq|Hin] Hm; [|eauto].
           injection Heq as <- <-. unfold dict_mem in Hm. rewrite Hv in Hm. discriminate Hm.
        -- intros k detail [Heq|Hin]; [|eauto].
           injection Heq as <- <-. left. eauto.
Qed.

(** What [flatten_scores] returns. *)
Lemma flatten_scores_ok data v :
  flatten_scores data = Ok v ->
  (v = data
   /\ match data with
      | JDict d => dict_mem (u "dimensions") d = false
      | JList l => existsb (py_eq (JStr (u "dimensions"))) l = false
      | JStr s => is_substring (u "dimensions") s = false
      | _ => False
      end)
  \/ (exists d items scores,
         data = JDict d
         /\ dict_get (u "dimensions") d = Some (JDict items)
         /\ collect_scores items [] = Ok scores
         /\ v = JDict (dict_set d (u "dimension_scores") (JDict scores))).
Proof.
  unfold flatten_scores.
  destruct data as [| b | z | f | s | l | d]; try discriminate; cbn [py_contains rbind].
  - destruct (is_substring (u "dimensions") s) eqn:Hs; [discriminate|].
    intros H. injection H as <-. left. auto.
  - destruct (existsb (py_eq (JStr (u "dimensions"))) l) eqn:Hl; [discriminate|].
    intros H. injection H as <-. left. auto.
  - destruct (dict_mem (u "dimensions") d) eqn:Hm.
    + unfold dict_mem in Hm. cbn [py_getitem].
      destruct (dict_get (u "dimensions") d) as [dims|] eqn:Hd; [|discriminate Hm].
      cbn [rbind]. destruct dims as [| ? | ? | ? | ? | ? | items]; try discriminate.
      cbn [py_items rbind].
      destruct (collect_scores items []) as [scores|e] eqn:Hc; [|discriminate].
      cbn [rbind py_setitem]. intros H. injection H as <-.
      right. exists d, items, scores. auto.
    + intros H. injection H as <-. left. auto.
Qed.

(** The extractor never returns a number, a boolean or [null]: on a
    response whose payload is one of them it raises.  What it returns is an
    object, or a list or a text in which [["dimensions" in data]] is false. *)
Theorem extract_returns_container content v :
  extract content = Ok v ->
  match v with
  | JDict d => True
  | JList l => existsb (py_eq (JStr (u "dimensions"))) l = false
  | JStr s => is_substring (u "dimensions") s = false
  | _ => False
  end.
Proof.
  unfold extract. intros H. apply rbind_ok in H as (data & _ & H).
  apply flatten_scores_ok in H as [(-> & Hshape)|(d & items & scores & -> & _ & _ & ->)].
  - destruct data; auto.
  - exact I.
Qed.

(** When the object the extractor returns has a [dimensions] field, the
    field is an object and [dimension_scores] holds the [score] of each of
    its records that has one, under the key of the record; an entry of
    [dimensions] that is no record is a list or a text without ["score"]. *)
Theorem dimension_scores_flattened content d dims :
  extract content = Ok (JDict d) ->
  dict_get (u "dimensions") d = Some dims ->
  exists items scores,
    dims = JDict items
    /\ dict_get (u "dimension_scores") d = Some (JDict scores)
    /\ (forall k v, dict_get k scores = Some v ->
          exists fields, In (k, JDict fields) items /\ dict_get (u "score") fields = Some v)
    /\ (forall k fields, In (k, JDict fields) items ->
          dict_mem (u "score") fields = true -> dict_mem k scores = true)
    /\ (forall k detail, In (k, detail) items ->
          (exists fields, detail = JDict fields) \/ scoreless detail).
Proof.
  unfold extract. intros H Hdims. apply rbind_ok in H as (data & _ & H).
  apply flatten_scores_ok in H as [(Hv & Hshape)|(d0 & items & scores & -> & Hd & Hc & Hv)].
  - subst data. change (dict_mem (u "dimensions") d = false) in Hshape.
    unfold dict_mem in Hshape. rewrite Hdims in Hshape.
    discriminate Hshape.
  - injection Hv as ->.
    rewrite dict_get_set_other in Hdims by distinct_keys.
    rewrite Hd in Hdims. injection Hdims as <-.
    exists items, scores. split; [reflexivity|].
    split; [apply dict_get_set_same|].
    destruct (collect_scores_spec _ _ Hc) as (Hsound & _ & Hcomplete & Hshape).
    repeat split.
    + intros k v Hk. destruct (Hsound k v Hk) as [Hnil|?]; [discriminate Hnil|assumption].
    + exact Hcomplete.
    + exact Hshape.
Qed.

(** A response that is empty, or nothing but whitespace, is no payload:
    the extractor raises on it, as it stands and inside a fenced block. *)
Theorem blank_content_rejected s :
  forallb is_space s = true ->
  extract s = Raise (JSONDecodeError s)
  /\ extract (fenced s) = Raise (JSONDecodeError []).
Proof.
  intros Hs. split.
  2:{ unfold extract.
      replace s with (s ++ [] ++ []) by (rewrite !app_nil_r; reflexivity).
      rewrite candidate_fenced; [reflexivity|assumption|reflexivity|reflexivity|reflexivity|].
      left. reflexivity. }
  unfold extract.
  assert (Hfence : is_substring fence s = false).
  { induction s as [|c r IH]; [reflexivity|].
    cbn [forallb] in Hs. apply andb_prop in Hs as [Hc Hr].
    cbn [is_substring]. change fence with [96; 96; 96]. cbn [strip_prefix].
    rewrite N.eqb_sym, (@space_eqb c 96 Hc eq_refl). apply IH. exact Hr. }
  rewrite candidate_plain by assumption.
  assert (Hrep : repair s = s).
  { unfold repair.
    rewrite re_sub_comma_no_comma with (close := 125) (w := s)
      by (apply space_not_comma; assumption).
    apply re_sub_comma_no_comma. apply space_not_comma. assumption. }
  rewrite Hrep. unfold json_loads.
  assert (Hdec : decode s = None); [|rewrite Hdec; reflexivity].
  unfold decode, start. clear Hfence Hrep.
  induction s as [|c r IH]; [reflexivity|].
  cbn [forallb] in Hs. apply andb_prop in Hs as [Hc Hr].
  cbn [fold_left]. rewrite step_space by (assumption || exact I).
  destruct (is_json_ws c).
  - apply IH. exact Hr.
  - apply dead_fold; [exact Hr|exact I].
Qed.

End ExtractorResults.

(** ** The grouping of the subjective answers *)

Section GroupingSpec.

Context {F : PyFloat} {R : PyRuntime}.

Lemma py_eq_to_str x d : py_eq x (JStr d) = true <-> x = JStr d.
Proof.
  destruct x; cbn; try (split; [discriminate|discriminate]).
  rewrite pystr_eqb_eq. split; congruence.
Qed.

(** The valid dimensions of a list hold [d] once for each item [d]. *)
Lemma valid_dimensions_count l (dr : dict) dims d :
  valid_dimensions l dr = Ok dims -> d <> [] -> dict_mem d dr = true ->
  List.length (filter (pystr_eqb d) dims)
  = List.length (filter (fun x => py_eq x (JStr d)) l).
Proof.
  intros H Hd Hm. revert dims H. induction l as [|x rest IH]; intros dims H.
  - injection H as <-. reflexivity.
  - cbn [valid_dimensions] in H.
    apply rbind_ok in H as (here & Hh & H). apply rbind_ok in H as (dims' & Hr & H).
    injection H as <-. specialize (IH _ Hr). cbn [filter].
    destruct (py_eq x (JStr d)) eqn:Ex.
    + apply py_eq_to_str in Ex. subst x.
      assert (Ht : py_truthy (JStr d) = true) by (destruct d; [contradiction|reflexivity]).
      rewrite Ht in Hh. unfold dimension_key in Hh. cbn [py_key_in rbind] in Hh.
      rewrite Hm in Hh. injection Hh as <-.
      cbn [filter]. rewrite pystr_eqb_refl. cbn [List.length]. rewrite IH. reflexivity.
    + destruct here as [k|]; [|exact IH].
      assert (Hk : x = JStr k).
      { destruct (py_truthy x); [|discriminate Hh].
        apply dimension_key_some in Hh as [Hx _]. exact Hx. }
      subst x. rewrite py_eq_str in Ex.
      cbn [filter]. rewrite pystr_eqb_neq in Ex.
      destruct (pystr_eqb d k) eqn:Edk.
      * apply pystr_eqb_eq in Edk. congruence.
      * exact IH.
Qed.

Lemma dims_to_process_count dimension (dr : dict) dims d :
  dims_to_process dimension dr = Ok dims -> d <> [] -> dict_mem d dr = true ->
  List.length (filter (pystr_eqb d) dims) = mentions d dimension.
Proof.
  intros H Hd Hm. destruct dimension as [| b | z | f | s | l | o];
    try (injection H as <-; reflexivity).
  - cbn [dims_to_process mentions] in *. destruct s as [|c s'].
    + injection H as <-. destruct d; [contradiction|reflexivity].
    + destruct (pystr_eqb (c :: s') d) eqn:E.
      * apply pystr_eqb_eq in E. subst d. rewrite Hm in H. injection H as <-.
        cbn [filter]. rewrite pystr_eqb_refl. reflexivity.
      * apply pystr_eqb_neq in E.
        assert (E' : pystr_eqb d (c :: s') = false) by (apply pystr_eqb_neq; congruence).
        destruct (dict_mem (c :: s') dr); injection H as <-; cbn [filter];
          [rewrite E'|]; reflexivity.
  - cbn [dims_to_process mentions] in *. eapply valid_dimensions_count; eassumption.
Qed.

Lemma fold_append_count dims x d :
  forall (acc : dict) l0,
    dict_get d acc = Some (JList l0) ->
    dict_get d (fold_left (fun a dim => dict_append a dim x) dims acc)
    = Some (JList (l0 ++ repeat x (List.length (filter (pystr_eqb d) dims)))).
Proof.
  induction dims as [|dim rest IH]; intros acc l0 H.
  - cbn. rewrite app_nil_r. exact H.
  - cbn [fold_left filter]. destruct (pystr_eqb d dim) eqn:E.
    + apply pystr_eqb_eq in E. subst dim.
      rewrite IH with (l0 := l0 ++ [x]).
      * cbn [List.length repeat]. rewrite <- app_assoc. reflexivity.
      * unfold dict_append. rewrite H. apply dict_get_set_same.
    + apply pystr_eqb_neq in E. apply IH.
      rewrite dict_append_other by assumption. exact H.
Qed.

Lemma group_responses_count pairs d :
  d <> [] ->
  forall (dr dr' : dict) l0,
    group_responses pairs dr = Ok dr' ->
    dict_get d dr = Some (JList l0) ->
    dict_get d dr'
    = Some (JList (l0 ++ flat_map (fun qa => repeat (response_of qa)
                                               (mentions d (qa_dimension qa))) pairs)).
Proof.
  intros Hd. induction pairs as [|qa rest IH]; intros dr dr' l0 H Hget.
  - injection H as <-. cbn. rewrite app_nil_r. exact Hget.
  - cbn [group_responses] in H. apply rbind_ok in H as (dims & Hdims & H).
    cbn [flat_map]. rewrite app_assoc.
    apply IH with (1 := H).
    rewrite fold_append_count with (l0 := l0) by exact Hget.
    rewrite dims_to_process_count with (dimension := qa_dimension qa) (dr := dr);
      [reflexivity|assumption|assumption|].
    unfold dict_mem. rewrite Hget. reflexivity.
Qed.

Lemma DIMS_named d : In d DIMS -> d <> [].
Proof.
  intros H. cbv in H. repeat (destruct H as [<-|H]; [discriminate|]). contradiction.
Qed.

Lemma empty_responses_get d : In d DIMS -> dict_get d empty_responses = Some (JList []).
Proof.
  intros H. cbv in H. repeat (destruct H as [<-|H]; [reflexivity|]). contradiction.
Qed.

(** The grouping of lines 209-234: each dimension collects, in the order of
    the questions, the question, the answer and the standard of every
    subjective pair that names it, once for each time the pair names it. *)
Theorem responses_grouped pairs dimension_responses :
  group_responses pairs empty_responses = Ok dimension_responses ->
  keys dimension_responses = DIMS
  /\ forall d, In d DIMS ->
       dict_get d dimension_responses
       = Some (JList (flat_map (fun qa => repeat (response_of qa)
                                            (mentions d (qa_dimension qa))) pairs)).
Proof.
  intros H. split; [apply group_responses_keys in H; exact H|].
  intros d Hd.
  rewrite group_responses_count with (l0 := []) (dr := empty_responses) (pairs := pairs);
    [reflexivity|apply DIMS_named; exact Hd|exact H|apply empty_responses_get; exact Hd].
Qed.

End GroupingSpec.

(** ** Calls to the service *)

Section ServiceCalls.

Context {F : PyFloat} {R : PyRuntime}.

Lemma calls_at_most_lift A (r : result A) : calls_at_most 0 (lift r).
Proof. intros w. cbn. lia. Qed.

Lemma calls_at_most_mret A (a : A) : calls_at_most 0 (mret a).
Proof. intros w. cbn. lia. Qed.

Lemma calls_at_most_mbind A B (m : M A) (k : A -> M B) n1 n2 :
  calls_at_most n1 m -> (forall a, calls_at_most n2 (k a)) ->
  calls_at_most (n1 + n2) (mbind m k).
Proof.
  intros Hm Hk w. unfold mbind. specialize (Hm w).
  destruct (m w) as [w1 [a|e]]; cbn [fst] in *.
  - specialize (Hk a w1). destruct (k a w1) as [w2 r]. cbn [fst] in *. lia.
  - lia.
Qed.

Lemma calls_at_most_more A (m : M A) n1 n2 :
  (n1 <= n2)%nat -> calls_at_most n1 m -> calls_at_most n2 m.
Proof. intros Hle Hm w. specialize (Hm w). lia. Qed.

(** [call_ai_model] calls the service once, whatever comes back. *)
Lemma call_ai_model_calls E p w :
  calls (fst (call_ai_model E p w)) = S (calls w)
  /\ clock_reads (fst (call_ai_model E p w)) = clock_reads w.
Proof.
  unfold call_ai_model.
  destruct (create E (calls w) p) as [msg|[|[content|] rest]]; cbn; auto.
Qed.

Lemma calls_at_most_call E p : calls_at_most 1 (call_ai_model E p).
Proof. intros w. destruct (call_ai_model_calls E p w). lia. Qed.

(** One dimension with responses costs one call, and leaves a record. *)
Lemma score_dimension_calls E dim (dr : dict) responses s w :
  dict_get dim dr = Some responses -> py_truthy responses = true ->
  exists w' s',
    score_dimension E dim dr s w = (w', Ok s')
    /\ calls w' = S (calls w) /\ clock_reads w' = clock_reads w
    /\ exists v, subjective_analysis s' = dict_set (subjective_analysis s) dim v.
Proof.
  intros Hget Ht. unfold score_dimension. rewrite Hget, Ht. cbn [negb].
  pose proof (call_ai_model_calls E (SubjectivePrompt dim responses) w) as [Hc Hk].
  destruct (call_ai_model E (SubjectivePrompt dim responses) w) as [w' [subj_result|e]];
    cbn [fst] in Hc, Hk.
  - destruct (record_result_cases dim subj_result s) as [(record & -> & ->)|(e & ->)].
    + eexists _, _. split; [reflexivity|]. repeat split; try assumption.
      eexists. reflexivity.
    + eexists _, _. split; [reflexivity|]. repeat split; try assumption.
      cbn [on_failure subjective_analysis]. exists (fallback e).
      clear. induction (subjective_analysis s) as [|[k v] r IH]; cbn.
      * rewrite pystr_eqb_refl. reflexivity.
      * destruct (pystr_eqb dim k) eqn:E; cbn; rewrite E; [reflexivity|].
        rewrite IH. reflexivity.
  - eexists _, _. split; [reflexivity|]. repeat split; try assumption.
    eexists. reflexivity.
Qed.

Lemma calls_at_most_dimension E dim dr s :
  calls_at_most 1 (score_dimension E dim dr s).
Proof.
  intros w. unfold score_dimension.
  destruct (dict_get dim dr) as [responses|]; [|cbn; lia].
  destruct (py_truthy responses); cbn [negb]; [|cbn; lia].
  pose proof (call_ai_model_calls E (SubjectivePrompt dim responses) w) as [Hc Hk].
  destruct (call_ai_model E (SubjectivePrompt dim responses) w) as [w' [subj_result|e]];
    cbn [fst] in Hc, Hk.
  - destruct (record_result dim subj_result s) as [s' [e|]]; cbn [fst]; lia.
  - cbn [fst]. lia.
Qed.

Lemma calls_at_most_dimensions E dims dr :
  forall s, calls_at_most (List.length dims) (score_dimensions E dims dr s).
Proof.
  induction dims as [|dim rest IH]; intros s; cbn [score_dimensions List.length].
  - apply calls_at_most_mret.
  - apply (@calls_at_most_mbind _ _ _ _ 1 (List.length rest)).
    + apply calls_at_most_dimension.
    + intros a. apply IH.
Qed.

(** The loop over dimensions that all have responses: one call and one
    record for each, in their order. *)
Lemma score_dimensions_calls E (dr : dict) dims :
  (forall d, In d dims -> exists v, dict_get d dr = Some v /\ py_truthy v = true) ->
  NoDup dims ->
  forall s w w' s',
    (forall d, In d dims -> ~ In d (keys (subjective_analysis s))) ->
    score_dimensions E dims dr s w = (w', Ok s') ->
    keys (subjective_analysis s') = keys (subjective_analysis s) ++ dims
    /\ calls w' = (calls w + List.length dims)%nat
    /\ clock_reads w' = clock_reads w.
Proof.
  induction dims as [|dim rest IH]; intros Hdata Hnd s w w' s' Hfresh H.
  - apply mret_ok in H as [-> ->]. rewrite app_nil_r. cbn. repeat split; lia.
  - cbn [score_dimensions] in H. apply mbind_ok in H as (s1 & w1 & H1 & H).
    destruct (Hdata dim (or_introl eq_refl)) as (v & Hv & Ht).
    destruct (score_dimension_calls E dim dr s w Hv Ht)
      as (w1' & s1' & H1' & Hc & Hk & x & Hx).
    rewrite H1 in H1'. injection H1' as <- <-.
    assert (Hkeys : keys (subjective_analysis s1) = keys (subjective_analysis s) ++ [dim]).
    { rewrite Hx. apply keys_dict_set_new.
      destruct (dict_mem dim (subjective_analysis s)) eqn:Em; [|reflexivity].
      apply dict_mem_keys in Em. exfalso. apply (Hfresh dim (or_introl eq_refl)). exact Em. }
    inversion Hnd as [|? ? Hnotin Hnd']; subst.
    destruct (IH (fun d Hd => Hdata d (or_intror Hd)) Hnd' s1 w1 w' s') as (Hk' & Hc' & Hr').
    + intros d Hd. rewrite Hkeys. intros Hin. apply in_app_or in Hin as [Hin|[<-|[]]].
      * apply (Hfresh d (or_intror Hd)). exact Hin.
      * contradiction.
    + exact H.
    + rewrite Hk', Hkeys, <- app_assoc. cbn [app List.length]. repeat split; lia.
Qed.

Lemma dimensions_with_data_length (dr : dict) :
  (List.length (dimensions_with_data dr) <= List.length (keys dr))%nat.
Proof.
  unfold dimensions_with_data, keys. rewrite !length_map. apply filter_length_le.
Qed.

Lemma calls_at_most_subjective E pairs : calls_at_most 5 (score_subjective E pairs).
Proof.
  unfold score_subjective. destruct pairs as [|qa rest].
  - apply calls_at_most_more with (n1 := 0%nat); [lia|apply calls_at_most_mret].
  - intros w. unfold mbind, lift.
    destruct (group_responses (qa :: rest) empty_responses) as [dr|e] eqn:Hg; [|cbn; lia].
    pose proof (calls_at_most_dimensions E (dimensions_with_data dr) dr
                  {| subjective_analysis := []; subjective_scores := zero_scores |} w) as H.
    pose proof (dimensions_with_data_length dr) as Hlen.
    apply group_responses_keys in Hg. rewrite Hg in Hlen. cbn in Hlen. lia.
Qed.

Lemma calls_at_most_score E req : calls_at_most 5 (score E req).
Proof.
  unfold score.
  apply (@calls_at_most_mbind _ _ _ _ 0 5); [apply calls_at_most_lift|]. intros fqs.
  destruct (split_pairs (answers req) fqs) as [o0 sq].
  apply (@calls_at_most_mbind _ _ _ _ 0 5); [apply calls_at_most_lift|]. intros obj.
  apply (@calls_at_most_mbind _ _ _ _ 5 0); [apply calls_at_most_subjective|]. intros s.
  apply (@calls_at_most_mbind _ _ _ _ 0 0); [apply calls_at_most_lift|]. intros total.
  apply calls_at_most_mret.
Qed.

(** A request costs at most six calls to the service, one for each of the
    five dimensions and one for the report, and reads the clock at most
    once; a request that succeeds has asked for the report and has read the
    clock. *)
Theorem service_calls_bounded E req w :
  (calls w <= calls (fst (analyze_data E req w)) <= calls w + 6)%nat
  /\ (clock_reads w <= clock_reads (fst (analyze_data E req w)) <= clock_reads w + 1)%nat
  /\ (code (snd (analyze_data E req w)) = 200%Z ->
      (calls w < calls (fst (analyze_data E req w)))%nat
      /\ clock_reads (fst (analyze_data E req w)) = S (clock_reads w)).
Proof.
  assert (Hw : (calls w <= calls (fst (analyze E req w)) <= calls w + 6)%nat
               /\ (clock_reads w <= clock_reads (fst (analyze E req w))
                   <= clock_reads w + 1)%nat
               /\ (forall r, snd (analyze E req w) = Ok r ->
                     (calls w < calls (fst (analyze E req w)))%nat
                     /\ clock_reads (fst (analyze E req w)) = S (clock_reads w))).
  { unfold analyze, mbind.
    pose proof (calls_at_most_score E req w) as [Hs Hsk].
    destruct (score E req w) as [w1 [sc|e]]; cbn [fst snd] in *;
      [|repeat split; try lia; discriminate].
    pose proof (call_ai_model_calls E (report_prompt req sc) w1) as [Hc Hk].
    destruct (call_ai_model E (report_prompt req sc) w1) as [w2 [raw|e]];
      cbn [fst snd] in *; [|repeat split; try lia; discriminate].
    unfold finish_report, mbind, lift.
    destruct (reconcile raw (objective_scores sc) (subjective_result sc) (total_scores sc))
      as [r|e]; cbn [fst snd]; [|repeat split; try lia; discriminate].
    rewrite store_ok.
    destruct (print_analysis (subjective_analysis (subjective_result sc))) as [[]|e];
      cbn [fst snd calls clock_reads mret]; repeat split; try lia; discriminate. }
  unfold analyze_data.
  destruct (analyze E req w) as [w' [r|e]]; cbn [fst snd code] in *.
  - destruct Hw as (H1 & H2 & H3). repeat split; try lia; apply (H3 r eq_refl).
  - destruct Hw as (H1 & H2 & _). repeat split; try lia; discriminate.
Qed.

End ServiceCalls.

Section AnalysedDimensions.

Context {F : PyFloat} {R : PyRuntime}.

Lemma format_question_fields i q fq :
  format_question i q = Ok fq ->
  q_id fq = question_id i q /\ q_type fq = question_type q
  /\ q_dimension fq = question_dimension q.
Proof.
  unfold format_question. intros H. apply rbind_ok in H as (options & _ & H).
  injection H as <-. cbn. auto.
Qed.

(** The subjective pairs are made of the subjective questions, in order. *)
Lemma subjective_pairs_dimensions submitted qs :
  forall i fqs,
    format_questions i qs = Ok fqs ->
    map qa_dimension (snd (split_pairs submitted fqs))
    = map question_dimension (subjective_questions submitted i qs).
Proof.
  induction qs as [|q rest IH]; intros i fqs H.
  - injection H as <-. reflexivity.
  - cbn [format_questions] in H.
    apply rbind_ok in H as (fq & Hq & H). apply rbind_ok in H as (fqs' & Hr & H).
    injection H as <-. specialize (IH _ _ Hr).
    apply format_question_fields in Hq as (Hid & Hty & Hdim).
    cbn [split_pairs subjective_questions].
    destruct (split_pairs submitted fqs') as [o s]. cbn [snd] in IH.
    rewrite Hid, Hty. unfold dict_mem.
    destruct (dict_get (py_str (question_id i q)) submitted) as [answer|];
      cbn [andb]; [|exact IH].
    destruct (is_subjective (question_type q)); cbn [snd map]; [|exact IH].
    rewrite Hdim, IH. reflexivity.
Qed.

Lemma truthy_flat_map A (f : A -> json) (m : A -> nat) l :
  py_truthy (JList (flat_map (fun a => repeat (f a) (m a)) l))
  = existsb (fun a => negb (Nat.eqb (m a) 0)) l.
Proof.
  induction l as [|a r IH]; [reflexivity|].
  cbn [flat_map existsb]. destruct (m a) as [|n]; cbn [repeat app Nat.eqb negb orb].
  - exact IH.
  - reflexivity.
Qed.

Lemma existsb_mapped A B (f : B -> bool) (g : A -> B) l :
  existsb f (map g l) = existsb (fun a => f (g a)) l.
Proof. induction l as [|a r IH]; [reflexivity|]. cbn. rewrite IH. reflexivity. Qed.

Lemma filter_keys (P : pystr -> bool) (d : dict) :
  (forall k v, In (k, v) d -> py_truthy v = P k) ->
  dimensions_with_data d = filter P (keys d).
Proof.
  unfold dimensions_with_data, keys. induction d as [|[k v] r IH]; intros H; [reflexivity|].
  cbn [filter map fst snd]. rewrite (H k v (or_introl eq_refl)).
  rewrite <- IH by (intros k' v' Hin; apply H; right; exact Hin).
  destruct (P k); reflexivity.
Qed.

(** The dimensions that have responses are those a subjective pair names. *)
Lemma dimensions_with_data_named pairs dr :
  group_responses pairs empty_responses = Ok dr ->
  dimensions_with_data dr
  = filter (fun d => existsb (fun x => negb (Nat.eqb (mentions d x) 0))
                       (map qa_dimension pairs)) DIMS.
Proof.
  intros H. pose proof (group_responses_keys _ _ H) as Hk.
  change (keys empty_responses) with DIMS in Hk. rewrite <- Hk.
  apply filter_keys. intros k v Hin.
  assert (Hd : In k DIMS).
  { rewrite <- Hk. apply in_map_iff. exists (k, v). auto. }
  assert (Hget : dict_get k dr = Some v).
  { apply in_dict_get; [rewrite Hk; apply DIMS_NoDup|exact Hin]. }
  rewrite group_responses_count with (l0 := []) (dr := empty_responses) (pairs := pairs)
    in Hget; [|apply DIMS_named; exact Hd|exact H|apply empty_responses_get; exact Hd].
  injection Hget as <-. cbn [app]. rewrite truthy_flat_map.
  rewrite existsb_mapped. reflexivity.
Qed.

Lemma score_subjective_calls E pairs w w1 s :
  score_subjective E pairs w = (w1, Ok s) ->
  keys (subjective_analysis s)
  = filter (fun d => existsb (fun x => negb (Nat.eqb (mentions d x) 0))
                       (map qa_dimension pairs)) DIMS
  /\ calls w1 = (calls w + List.length (subjective_analysis s))%nat
  /\ clock_reads w1 = clock_reads w.
Proof.
  unfold score_subjective. destruct pairs as [|qa rest] eqn:Hpairs.
  - intros H. apply mret_ok in H as [-> ->]. cbn. repeat split; lia.
  - rewrite <- Hpairs. intros H.
    apply mbind_ok in H as (dr & w0 & Hg & H). apply lift_ok in Hg as [-> Hg].
    pose proof (group_responses_keys _ _ Hg) as Hk.
    assert (Hnd : NoDup (keys dr)) by (rewrite Hk; apply DIMS_NoDup).
    edestruct (@score_dimensions_calls _ _ E dr (dimensions_with_data dr))
      as (Hkeys & Hc & Hr); [| | |exact H|].
    + intros d Hd. apply dimensions_with_data_in; assumption.
    + apply NoDup_keys_filter. exact Hnd.
    + intros d _ [].
    + cbn [subjective_analysis keys map app] in Hkeys.
      rewrite <- (dimensions_with_data_named _ Hg).
      split; [exact Hkeys|]. split; [|exact Hr].
      rewrite Hc. f_equal. rewrite <- Hkeys. unfold keys. rewrite length_map. reflexivity.
Qed.

(** One call for each analysed dimension, and one for the report: in a
    response that succeeds, [subjective_analysis] has one record for each
    dimension that an answered subjective question names, in the order R,
    E, A, D, Y, and the request has cost as many calls as there are records,
    plus one. *)
Theorem one_call_per_analysed_dimension E req w w' resp :
  analyze_data E req w = (w', resp) -> code resp = 200%Z ->
  exists analysis,
    data_field resp (u "subjective_analysis") = Some (JDict analysis)
    /\ keys analysis = analysed_dimensions req
    /\ calls w' = (calls w + List.length analysis + 1)%nat.
Proof.
  intros H Hcode. apply analyze_data_ok in H as (r & H & ->); [|exact Hcode].
  apply analyze_ok in H as (sc & w1 & w2 & raw & Hscore & Hcall & Hrec & _ & Hstore).
  apply reconcile_ok in Hrec as (d & -> & _ & _ & _ & Hsa & _).
  apply score_ok in Hscore as (fqs & Hf & _ & _ & Hsub & _).
  apply score_subjective_calls in Hsub as (Hkeys & Hc & _).
  exists (subjective_analysis (subjective_result sc)). split; [|split].
  - unfold data_field. cbn [data]. exact Hsa.
  - rewrite Hkeys. unfold analysed_dimensions.
    rewrite (subjective_pairs_dimensions _ _ _ Hf).
    apply filter_ext. intros k. rewrite existsb_mapped. reflexivity.
  - pose proof (call_ai_model_calls E (report_prompt req sc) w1) as [Hc2 _].
    rewrite Hcall in Hc2. cbn [fst] in Hc2.
    rewrite store_ok in Hstore. injection Hstore as <-. cbn [calls]. lia.
Qed.

End AnalysedDimensions.

Section CallsExample.

#[local] Existing Instance plain_floats.
#[local] Existing Instance plain_runtime.

Lemma one_call_per_analysed_dimension_witness :
  exists analysis,
    data_field (snd (analyze_data generous mixed_request fresh_world))
      (u "subjective_analysis") = Some (JDict analysis)
    /\ keys analysis = [u "R"]
    /\ calls (fst (analyze_data generous mixed_request fresh_world)) = 2%nat.
Proof.
  destruct (@one_call_per_analysed_dimension plain_floats plain_runtime generous
              mixed_request fresh_world
              (fst (analyze_data generous mixed_request fresh_world))
              (snd (analyze_data generous mixed_request fresh_world)))
    as (analysis & Hdata & Hkeys & Hcalls).
  - vm_compute. reflexivity.
  - vm_compute. reflexivity.
  - exists analysis. split; [exact Hdata|]. split; [exact Hkeys|].
    rewrite Hcalls.
    assert (Hlen : List.length analysis = 1%nat).
    { rewrite <- (length_map fst). change (map fst analysis) with (keys analysis).
      rewrite Hkeys. reflexivity. }
    rewrite Hlen. reflexivity.
Defined.

End CallsExample.

(** ** A call that fails for one dimension *)

Section SubjectiveFailure.

Context {F : PyFloat} {R : PyRuntime}.

Lemma after_no_call w : after_calls 0 w = w.
Proof. destruct w. unfold after_calls. cbn. f_equal. lia. Qed.

Lemma after_calls_next k w : after_calls k (after_calls 1 w) = after_calls (S k) w.
Proof. unfold after_calls. cbn. f_equal. lia. Qed.

(** One dimension with responses: the step returns after one call, and
    writes under its own dimension only. *)
Lemma score_dimension_at E dim (dr : dict) responses s w :
  dict_get dim dr = Some responses -> py_truthy responses = true ->
  exists s',
    score_dimension E dim dr s w = (after_calls 1 w, Ok s')
    /\ forall d, d <> dim ->
         dict_get d (subjective_analysis s') = dict_get d (subjective_analysis s)
         /\ dict_get d (subjective_scores s') = dict_get d (subjective_scores s).
Proof.
  intros Hget Ht.
  destruct (score_dimension_step E dim dr s w Hget) as (w' & s' & Hstep & Hlog & Hother & _).
  destruct (score_dimension_calls E dim dr s w Hget Ht)
    as (w'' & s'' & Hstep' & Hc & Hk & _).
  rewrite Hstep in Hstep'. injection Hstep' as <- <-.
  exists s'. split; [|exact Hother].
  rewrite Hstep. f_equal. destruct w'. cbn in Hlog, Hc, Hk. subst.
  unfold after_calls. f_equal. lia.
Qed.

(** What a step leaves under its dimension depends on the call, and on the
    score the dimension had, not on the other entries. *)
Lemma score_dimension_local E dim (dr : dict) responses s sa w s1 sa1 w1 wa1 :
  dict_get dim dr = Some responses -> py_truthy responses = true ->
  dict_get dim (subjective_scores s) = dict_get dim (subjective_scores sa) ->
  score_dimension E dim dr s w = (w1, Ok s1) ->
  score_dimension E dim dr sa w = (wa1, Ok sa1) ->
  dict_get dim (subjective_analysis s1) = dict_get dim (subjective_analysis sa1)
  /\ dict_get dim (subjective_scores s1) = dict_get dim (subjective_scores sa1).
Proof.
  intros Hget Ht Hs. unfold score_dimension. rewrite Hget, Ht. cbn [negb].
  destruct (call_ai_model E (SubjectivePrompt dim responses) w) as [w' [subj_result|e]].
  2:{ intros H1 H2. injection H1 as <- <-. injection H2 as <- <-.
      cbn [on_failure subjective_analysis subjective_scores].
      rewrite !dict_get_set_same. auto. }
  unfold record_result.
  destruct subj_result as [| b | z | f | str | l | record];
    cbn [py_contains py_getitem py_get rbind];
    try (intros H1 H2; injection H1 as <- <-; injection H2 as <- <-;
         cbn [on_failure subjective_analysis subjective_scores];
         rewrite !dict_get_set_same; auto).
  - destruct (is_substring (u "score") str); cbn;
      intros H1 H2; injection H1 as <- <-; injection H2 as <- <-;
      cbn [on_failure subjective_analysis subjective_scores];
      rewrite !dict_get_set_same; auto.
  - destruct (existsb (py_eq (JStr (u "score"))) l); cbn;
      intros H1 H2; injection H1 as <- <-; injection H2 as <- <-;
      cbn [on_failure subjective_analysis subjective_scores];
      rewrite !dict_get_set_same; auto.
  - unfold dict_mem. destruct (dict_get (u "score") record) as [v|]; cbn;
      intros H1 H2; injection H1 as <- <-; injection H2 as <- <-;
      cbn [subjective_analysis subjective_scores];
      rewrite !dict_get_set_same; auto.
Qed.

(** The loop over dimensions that all have responses: it returns after one
    call for each, and what it leaves under a dimension is what the step of
    that dimension leaves, at its own call, whatever the other steps did. *)
Lemma score_dimensions_trace E (dr : dict) dims :
  NoDup dims ->
  (forall d, In d dims -> exists v, dict_get d dr = Some v /\ py_truthy v = true) ->
  forall s w, exists s',
    score_dimensions E dims dr s w = (after_calls (List.length dims) w, Ok s')
    /\ (forall d, ~ In d dims ->
          dict_get d (subjective_analysis s') = dict_get d (subjective_analysis s)
          /\ dict_get d (subjective_scores s') = dict_get d (subjective_scores s))
    /\ (forall k d, nth_error dims k = Some d ->
          exists s1,
            snd (score_dimension E d dr s (after_calls k w)) = Ok s1
            /\ dict_get d (subjective_analysis s') = dict_get d (subjective_analysis s1)
            /\ dict_get d (subjective_scores s') = dict_get d (subjective_scores s1)).
Proof.
  induction dims as [|dim rest IH]; intros Hnd Hdata s w.
  - exists s. cbn [score_dimensions List.length]. rewrite after_no_call.
    split; [reflexivity|]. split; [auto|]. intros [|k] d H; discriminate H.
  - inversion Hnd as [|? ? Hnotin Hnd']; subst.
    destruct (Hdata dim (or_introl eq_refl)) as (v & Hv & Ht).
    destruct (score_dimension_at E dim dr s w Hv Ht) as (s1 & Hstep & Hother).
    destruct (IH Hnd' (fun d Hd => Hdata d (or_intror Hd)) s1 (after_calls 1 w))
      as (s' & Hrest & Hout & Hin).
    exists s'. split; [|split].
    + cbn [score_dimensions List.length]. unfold mbind. rewrite Hstep, Hrest.
      rewrite after_calls_next. reflexivity.
    + intros d Hd.
      assert (Hne : d <> dim) by (intros ->; apply Hd; left; reflexivity).
      assert (Hnr : ~ In d rest) by (intros Hr; apply Hd; right; exact Hr).
      destruct (Hout d Hnr) as [Ha Hs]. destruct (Hother d Hne) as [Ha' Hs'].
      split; congruence.
    + intros [|k] d Hk.
      * injection Hk as <-. exists s1. rewrite after_no_call, Hstep.
        split; [reflexivity|]. apply Hout. exact Hnotin.
      * cbn [nth_error] in Hk. destruct (Hin k d Hk) as (s2 & Hs2 & Ha & Hs).
        rewrite after_calls_next in Hs2.
        assert (Hd : In d rest) by (eapply nth_error_In; exact Hk).
        assert (Hne : d <> dim) by (intros ->; contradiction).
        destruct (Hdata d (or_intror Hd)) as (vd & Hvd & Htd).
        destruct (score_dimension_at E d dr s (after_calls (S k) w) Hvd Htd)
          as (s3 & Hs3 & _).
        exists s3. rewrite Hs3. split; [reflexivity|].
        destruct (score_dimension E d dr s1 (after_calls (S k) w)) as [w2 r2] eqn:H2.
        cbn [snd] in Hs2. subst r2.
        destruct (@score_dimension_local E d dr vd s1 s (after_calls (S k) w)
                    s2 s3 w2 (after_calls 1 (after_calls (S k) w)) Hvd Htd) as [Ha2 Hs2'].
        -- apply Hother. exact Hne.
        -- exact H2.
        -- exact Hs3.
        -- split; congruence.
Qed.

(** C3.  When the call for one of the dimensions with answers fails (the
    client raises, the response has no usable content, or the extractor
    cannot parse it), the subjective stage of the request still returns,
    after one call for every dimension with answers.  In its result the
    analysis of the failed dimension is the fallback record, with the
    failure in its text, score 2 and no traits, and its subjective score is
    2.  Every dimension with answers holds what its own step leaves at its
    own call, whatever became of the other calls.  The handler goes on to
    the totals with this result, and a response that succeeds returns it in
    [subjective_analysis] and [subjective_scores]. *)
Theorem subjective_failure_falls_back E req w formatted_questions objective_scores
    dimension_responses k dim responses e :
  format_questions 0 (questions req) = Ok formatted_questions ->
  score_objective zero_scores
    (map resolve_choice (fst (split_pairs (answers req) formatted_questions)))
  = Ok objective_scores ->
  group_responses (snd (split_pairs (answers req) formatted_questions)) empty_responses
  = Ok dimension_responses ->
  nth_error (dimensions_with_data dimension_responses) k = Some dim ->
  dict_get dim dimension_responses = Some responses ->
  snd (call_ai_model E (SubjectivePrompt dim responses) (after_calls k w)) = Raise e ->
  exists s,
    score_subjective E (snd (split_pairs (answers req) formatted_questions)) w
    = (after_calls (List.length (dimensions_with_data dimension_responses)) w, Ok s)
    /\ dict_get dim (subjective_analysis s)
       = Some (JDict [(u "analysis", JStr (u "分析失败: " ++ str_exn e));
                      (u "score", JInt 2%Z);
                      (u "key_traits", JList [])])
    /\ dict_get dim (subjective_scores s) = Some (JInt 2%Z)
    /\ (forall k' d,
          nth_error (dimensions_with_data dimension_responses) k' = Some d ->
          exists s1,
            snd (score_dimension E d dimension_responses no_analysis (after_calls k' w))
            = Ok s1
            /\ dict_get d (subjective_analysis s) = dict_get d (subjective_analysis s1)
            /\ dict_get d (subjective_scores s) = dict_get d (subjective_scores s1))
    /\ score E req w
       = (after_calls (List.length (dimensions_with_data dimension_responses)) w,
          total_scores <- add_scores DIMS objective_scores (subjective_scores s) [] ;;
          Ok {| objective_qa_pairs :=
                  map resolve_choice (fst (split_pairs (answers req) formatted_questions));
                objective_scores := objective_scores;
                subjective_result := s;
                total_scores := total_scores |})
    /\ (forall w' resp,
          analyze_data E req w = (w', resp) -> code resp = 200%Z ->
          data_field resp (u "subjective_analysis") = Some (JDict (subjective_analysis s))
          /\ data_field resp (u "subjective_scores") = Some (JDict (subjective_scores s))).
Proof.
  intros Hf Hobj Hg Hk Hget Hcall.
  pose proof (group_responses_keys _ _ Hg) as Hkeys.
  assert (Hnd : NoDup (keys dimension_responses)) by (rewrite Hkeys; apply DIMS_NoDup).
  assert (Hdata : forall d, In d (dimensions_with_data dimension_responses) ->
                    exists v, dict_get d dimension_responses = Some v /\ py_truthy v = true)
    by (intros d Hd; apply dimensions_with_data_in; assumption).
  assert (Hnd' : NoDup (dimensions_with_data dimension_responses))
    by (apply NoDup_keys_filter; exact Hnd).
  edestruct score_dimensions_trace with (E := E) (s := no_analysis) (w := w)
    as (s & Hloop & _ & Hin); [exact Hnd'|exact Hdata|].
  assert (Hsub : score_subjective E (snd (split_pairs (answers req) formatted_questions)) w
                 = (after_calls (List.length (dimensions_with_data dimension_responses)) w,
                    Ok s)).
  { unfold score_subjective.
    destruct (snd (split_pairs (answers req) formatted_questions)) as [|qa rest] eqn:Hpairs.
    - injection Hg as <-. destruct k; discriminate Hk.
    - unfold mbind, lift. rewrite Hg. exact Hloop. }
  assert (Hdim : dict_get dim (subjective_analysis s) = Some (fallback e)
                 /\ dict_get dim (subjective_scores s) = Some (JInt 2%Z)).
  { destruct (Hin k dim Hk) as (s1 & Hs1 & Ha & Hs). rewrite Ha, Hs.
    assert (Ht : py_truthy responses = true).
    { destruct (Hdata dim (nth_error_In _ _ Hk)) as (v & Hv & Ht). congruence. }
    unfold score_dimension in Hs1. rewrite Hget, Ht in Hs1. cbn [negb] in Hs1.
    destruct (call_ai_model E (SubjectivePrompt dim responses) (after_calls k w))
      as [w1 r]. cbn [snd] in Hcall. subst r. cbn [snd] in Hs1. injection Hs1 as <-.
    cbn [on_failure subjective_analysis subjective_scores].
    rewrite !dict_get_set_same. auto. }
  exists s. split; [exact Hsub|]. split; [exact (proj1 Hdim)|].
  split; [exact (proj2 Hdim)|]. split; [exact Hin|]. split.
  - unfold score, mbind, lift. rewrite Hf.
    destruct (split_pairs (answers req) formatted_questions) as [o0 sq].
    cbn [fst snd] in *. rewrite Hobj, Hsub.
    destruct (add_scores DIMS objective_scores (subjective_scores s) []); reflexivity.
  - intros w' resp H Hcode.
    destruct (success_facts _ _ _ H Hcode)
      as (sc & r & w1 & w2 & -> & Hscore & _ & _ & _ & _ & Hss & _ & Hsa & _).
    apply score_ok in Hscore as (fqs & Hf' & _ & _ & Hsub' & _).
    rewrite Hf in Hf'. injection Hf' as <-. rewrite Hsub in Hsub'.
    injection Hsub' as _ Heq.
    unfold data_field. cbn [data]. rewrite Hsa, Hss, <- Heq. auto.
Qed.

End SubjectiveFailure.

Section SubjectiveFailureExample.

#[local] Existing Instance plain_floats.
#[local] Existing Instance plain_runtime.

(** The call for E times out between the calls for R and A: the response
    succeeds after four calls, with the fallback and the score 2 for E and
    the scores of the service for R and A. *)
Lemma subjective_failure_falls_back_witness :
  code (snd (analyze_data outage three_texts_request fresh_world)) = 200%Z
  /\ calls (fst (analyze_data outage three_texts_request fresh_world)) = 4%nat
  /\ exists analysis,
       data_field (snd (analyze_data outage three_texts_request fresh_world))
         (u "subjective_analysis") = Some (JDict analysis)
       /\ dict_get (u "E") analysis
          = Some (JDict [(u "analysis",
                           JStr (u "分析失败: "
                                 ++ str_exn (ClientError (u "Request timed out."))));
                         (u "score", JInt 2%Z);
                         (u "key_traits", JList [])])
       /\ score_in (snd (analyze_data outage three_texts_request fresh_world))
            (u "subjective_scores") (u "E") = Some (JInt 2%Z)
       /\ score_in (snd (analyze_data outage three_texts_request fresh_world))
            (u "subjective_scores") (u "R") = Some (JInt 3%Z)
       /\ score_in (snd (analyze_data outage three_texts_request fresh_world))
            (u "subjective_scores") (u "A") = Some (JInt 3%Z).
Proof.
  split; [vm_compute; reflexivity|]. split; [vm_compute; reflexivity|].
  edestruct (@subjective_failure_falls_back plain_floats plain_runtime outage
               three_texts_request fresh_world)
    with (k := 1%nat) (dim := u "E")
         (e := ClientError (u "Request timed out."))
    as (s & _ & Ha & Hs & Hothers & _ & Hresp).
  - vm_compute. reflexivity.
  - vm_compute. reflexivity.
  - vm_compute. reflexivity.
  - vm_compute. reflexivity.
  - vm_compute. reflexivity.
  - vm_compute. reflexivity.
  - destruct (Hresp _ _ (surjective_pairing _)) as [Hra Hrs]; [vm_compute; reflexivity|].
    exists (subjective_analysis s). split; [exact Hra|]. split; [exact Ha|].
    unfold score_in. rewrite Hrs. split; [exact Hs|].
    split.
    + destruct (Hothers 0%nat (u "R")) as (s1 & Hs1 & _ & Hsc); [vm_compute; reflexivity|].
      rewrite Hsc. vm_compute in Hs1. injection Hs1 as <-. vm_compute. reflexivity.
    + destruct (Hothers 2%nat (u "A")) as (s1 & Hs1 & _ & Hsc); [vm_compute; reflexivity|].
      rewrite Hsc. vm_compute in Hs1. injection Hs1 as <-. vm_compute. reflexivity.
Defined.

End SubjectiveFailureExample.

(** ** What the handler leaves of the report *)

Section PassedThrough.

Context {F : PyFloat} {R : PyRuntime}.

Lemma overwrite_scores_entries total items items' :
  overwrite_scores total items = Ok items' ->
  Forall2 (reconciled total) items items'.
Proof.
  revert items'. induction items as [|[k detail] rest IH]; intros items' H.
  - injection H as <-. constructor.
  - cbn [overwrite_scores] in H.
    apply rbind_ok in H as (detail' & Hd & H). apply rbind_ok in H as (rest' & Hr & H).
    injection H as <-. constructor; [|apply IH; exact Hr].
    unfold reconciled. cbn [fst snd]. split; [reflexivity|].
    destruct (dict_get k total) as [t|].
    + destruct detail; try discriminate Hd. cbn in Hd. injection Hd as <-.
      eexists. split; reflexivity.
    + injection Hd as <-. reflexivity.
Qed.

Lemma reconcile_passes raw obj s total r :
  reconcile raw obj s total = Ok r ->
  exists report d,
    raw = JDict report /\ r = JDict d
    /\ (forall k, ~ In k handler_fields -> dict_get k d = dict_get k report)
    /\ match dict_get (u "dimensions") report with
       | Some dims =>
           exists items items',
             dims = JDict items
             /\ dict_get (u "dimensions") d = Some (JDict items')
             /\ Forall2 (reconciled total) items items'
       | None => dict_get (u "dimensions") d = None
       end.
Proof.
  unfold reconcile. intros H.
  destruct raw as [| | | | | |report]; try discriminate H.
  cbn [py_setitem rbind py_contains] in H.
  set (r3 := dict_set (dict_set (dict_set report (u "objective_scores") (JDict obj))
                         (u "subjective_scores") (JDict (subjective_scores s)))
               (u "dimension_scores") (JDict total)) in *.
  assert (H3 : forall k, ~ In k handler_fields -> dict_get k r3 = dict_get k report).
  { intros k Hk. unfold r3.
    rewrite !dict_get_set_other; [reflexivity|..];
      intros ->; apply Hk; unfold handler_fields; cbn [In]; auto 10. }
  assert (Hd3 : dict_get (u "dimensions") r3 = dict_get (u "dimensions") report).
  { unfold r3. rewrite !dict_get_set_other by distinct_keys. reflexivity. }
  unfold dict_mem in H. rewrite Hd3 in H.
  destruct (dict_get (u "dimensions") report) as [dims|] eqn:Hdims.
  - cbn [py_getitem] in H. rewrite Hd3 in H. cbn [rbind] in H.
    destruct dims as [| | | | | |items]; try discriminate H.
    cbn [py_items rbind] in H.
    destruct (overwrite_scores total items) as [items'|e] eqn:Ho; [|discriminate H].
    cbn [rbind py_setitem] in H. injection H as <-.
    eexists report, _. split; [reflexivity|]. split; [reflexivity|]. split.
    + intros k Hk. rewrite !dict_get_set_other; [apply H3; exact Hk|..];
        intros ->; apply Hk; unfold handler_fields; cbn [In]; auto 10.
    + rewrite Hdims. exists items, items'. split; [reflexivity|]. split.
      * rewrite dict_get_set_other by distinct_keys. apply dict_get_set_same.
      * apply overwrite_scores_entries. exact Ho.
  - cbn [rbind py_setitem] in H. injection H as <-.
    eexists report, _. split; [reflexivity|]. split; [reflexivity|]. split.
    + intros k Hk. rewrite dict_get_set_other; [apply H3; exact Hk|].
      intros ->; apply Hk; unfold handler_fields; cbn [In]; auto 10.
    + rewrite Hdims. rewrite dict_get_set_other by distinct_keys. exact Hd3.
Qed.

(** What the service wrote in its report reaches the caller: in a response
    that succeeds, every field of the extracted report other than the five
    the handler writes is returned as it is, and so is every entry of
    [dimensions] whose key is no dimension code; an entry under a dimension
    code is a record and only has its [score] set. *)
Theorem report_passed_through E req w w' resp :
  analyze_data E req w = (w', resp) -> code resp = 200%Z ->
  exists sc w1 w2 report r,
    score E req w = (w1, Ok sc)
    /\ call_ai_model E (report_prompt req sc) w1 = (w2, Ok (JDict report))
    /\ data resp = Some (JDict r)
    /\ (forall k, ~ In k handler_fields -> dict_get k r = dict_get k report)
    /\ keys (total_scores sc) = DIMS
    /\ match dict_get (u "dimensions") report with
       | Some dims =>
           exists items items',
             dims = JDict items
             /\ dict_get (u "dimensions") r = Some (JDict items')
             /\ Forall2 (reconciled (total_scores sc)) items items'
       | None => dict_get (u "dimensions") r = None
       end.
Proof.
  intros H Hcode. apply analyze_data_ok in H as (r & H & ->); [|exact Hcode].
  apply analyze_ok in H as (sc & w1 & w2 & raw & Hscore & Hcall & Hrec & _ & _).
  apply reconcile_passes in Hrec as (report & d & -> & -> & Hfields & Hdims).
  exists sc, w1, w2, report, d.
  split; [exact Hscore|]. split; [exact Hcall|]. split; [reflexivity|].
  split; [exact Hfields|]. split; [|exact Hdims].
  apply total_scores_keys in Hscore as [Hk _]. exact Hk.
Qed.

End PassedThrough.

Section PassedThroughExample.

#[local] Existing Instance plain_floats.
#[local] Existing Instance plain_runtime.

Lemma report_passed_through_witness :
  exists r,
    data (snd (analyze_data annotated mixed_request fresh_world)) = Some (JDict r)
    /\ dict_get (u "summary") r = Some (JStr (u "steady"))
    /\ dict_get (u "dimensions") r
       = Some (JDict [(u "R", JDict [(u "title", JStr (u "resilience"));
                                     (u "score", JInt 7%Z)]);
                      (u "Z", JDict [(u "score", JInt 1%Z)])]).
Proof.
  destruct (@report_passed_through plain_floats plain_runtime annotated mixed_request
              fresh_world
              (fst (analyze_data annotated mixed_request fresh_world))
              (snd (analyze_data annotated mixed_request fresh_world)))
    as (sc & w1 & w2 & report & r & _ & _ & Hdata & _).
  - vm_compute. reflexivity.
  - vm_compute. reflexivity.
  - exists r. split; [exact Hdata|].
    vm_compute in Hdata. injection Hdata as <-. split; vm_compute; reflexivity.
Defined.

End PassedThroughExample.

(** ** Failures after the entry was logged *)

Section Printing.

Context {F : PyFloat} {R : PyRuntime}.

Lemma py_join_raises sep l :
  (exists e, py_join sep l = Raise e) <-> exists x, In x l /\ forall s, x <> JStr s.
Proof.
  induction l as [|x rest IH].
  - split; [intros (e & H); discriminate H|intros (x & [] & _)].
  - cbn [py_join]. destruct x as [| b | z | f | s | m | d];
      try (split; [intros _; eexists; split; [left; reflexivity|discriminate]
                  |intros _; eexists; reflexivity]).
    split.
    + intros (e & H). destruct (py_join sep rest) as [t|e'] eqn:Hj; [discriminate H|].
      destruct (proj1 IH (ex_intro _ e' eq_refl)) as (x & Hin & Hx).
      exists x. split; [right; exact Hin|exact Hx].
    + intros (x & [<-|Hin] & Hx); [exfalso; apply (Hx s); reflexivity|].
      destruct (proj2 IH (ex_intro _ x (conj Hin Hx))) as (e & ->).
      exists e. reflexivity.
Qed.

Lemma print_field_raises key value :
  (exists e, print_field key value = Raise e)
  <-> (key = u "analysis" /\ py_truthy value = true
       /\ (forall s, value <> JStr s) /\ (forall l, value <> JList l))
      \/ (key = u "key_traits"
          /\ exists l x, value = JList l /\ In x (firstn 3 l) /\ forall s, x <> JStr s).
Proof.
  unfold print_field. destruct (pystr_eqb key (u "analysis")) eqn:Ea.
  - apply pystr_eqb_eq in Ea. subst key. split.
    + intros (e & H). left. split; [reflexivity|].
      destruct (py_truthy value); [|discriminate H]. split; [reflexivity|].
      destruct value; try discriminate H; split; discriminate.
    + intros [(_ & Ht & Hs & Hl)|(Hk & _)]; [|discriminate Hk].
      rewrite Ht. destruct value;
        try (eexists; reflexivity); exfalso; [eapply Hs|eapply Hl]; reflexivity.
  - apply pystr_eqb_neq in Ea.
    destruct (pystr_eqb key (u "key_traits")) eqn:Ek; cbn [andb].
    + apply pystr_eqb_eq in Ek. subst key.
      destruct value as [| b | z | f | s | l | d]; cbn [is_list];
        try (split; [intros (e & H); discriminate H
                    |intros [(Hk & _)|(_ & l' & x & Hv & _)]; [discriminate Hk|discriminate Hv]]).
      split.
      * intros (e & H). right. split; [reflexivity|].
        destruct (py_truthy (JList l)); [|discriminate H].
        cbn [py_slice_to rbind py_iter] in H.
        destruct (py_join (u ", ") (firstn 3 l)) as [t|e'] eqn:Hj; [discriminate H|].
        destruct (proj1 (py_join_raises (u ", ") (firstn 3 l)) (ex_intro _ e' Hj))
          as (x & Hin & Hx).
        exists l, x. auto.
      * intros [(Hk & _)|(_ & l' & x & Hv & Hin & Hx)]; [discriminate Hk|].
        injection Hv as <-.
        assert (Ht : py_truthy (JList l) = true) by (destruct l; [destruct Hin|reflexivity]).
        rewrite Ht. cbn [py_slice_to rbind py_iter].
        destruct (proj2 (py_join_raises (u ", ") (firstn 3 l))
                    (ex_intro _ x (conj Hin Hx))) as (e & ->).
        exists e. reflexivity.
    + apply pystr_eqb_neq in Ek. split.
      * intros (e & H). discriminate H.
      * intros [(Hk & _)|(Hk & _)]; contradiction.
Qed.

Lemma print_fields_raises record :
  (exists e, print_fields record = Raise e) <-> unprintable record.
Proof.
  induction record as [|[key value] rest IH].
  - split; [intros (e & H); discriminate H|].
    intros [(v & [] & _)|(l & x & [] & _)].
  - cbn [print_fields]. split.
    + intros (e & H). destruct (print_field key value) as [[]|e'] eqn:Hf.
      * cbn [rbind] in H. destruct (proj1 IH (ex_intro _ e H))
          as [(v & Hin & Hv)|(l & x & Hin & Hx)].
        -- left. exists v. split; [right; exact Hin|exact Hv].
        -- right. exists l, x. split; [right; exact Hin|exact Hx].
      * destruct (proj1 (print_field_raises key value) (ex_intro _ e' Hf))
          as [(-> & Hv)|(-> & l & x & -> & Hx)].
        -- left. exists value. split; [left; reflexivity|exact Hv].
        -- right. exists l, x. split; [left; reflexivity|exact Hx].
    + intros Hu.
      destruct (print_field key value) as [[]|e'] eqn:Hf; [|exists e'; reflexivity].
      cbn [rbind]. apply IH.
      destruct Hu as [(v & [Heq|Hin] & Hv)|(l & x & [Heq|Hin] & Hx)].
      * injection Heq as -> ->. exfalso.
        destruct (proj2 (print_field_raises (u "analysis") v)) as (e & He);
          [left; split; [reflexivity|exact Hv]|].
        rewrite He in Hf. discriminate Hf.
      * left. exists v. split; assumption.
      * injection Heq as -> ->. exfalso.
        destruct (proj2 (print_field_raises (u "key_traits") (JList l))) as (e & He);
          [right; split; [reflexivity|]; exists l, x; split; [reflexivity|exact Hx]|].
        rewrite He in Hf. discriminate Hf.
      * right. exists l, x. split; assumption.
Qed.

Lemma print_analysis_raises analysis :
  (exists e, print_analysis analysis = Raise e)
  <-> exists dim record, In (dim, JDict record) analysis /\ unprintable record.
Proof.
  induction analysis as [|[dim info] rest IH].
  - split; [intros (e & H); discriminate H|intros (dim & record & [] & _)].
  - cbn [print_analysis]. split.
    + intros (e & H).
      destruct info as [| b | z | f | s | l | record]; cbn [rbind] in H;
        try (destruct (proj1 IH (ex_intro _ e H)) as (dim' & record' & Hin & Hu);
             exists dim', record'; split; [right; exact Hin|exact Hu]).
      destruct (print_fields record) as [[]|e'] eqn:Hf.
      * cbn [rbind] in H. destruct (proj1 IH (ex_intro _ e H)) as (dim' & record' & Hin & Hu).
        exists dim', record'. split; [right; exact Hin|exact Hu].
      * exists dim, record. split; [left; reflexivity|].
        apply print_fields_raises. exists e'. exact Hf.
    + intros (dim' & record' & [Heq|Hin] & Hu).
      * injection Heq as -> ->.
        apply print_fields_raises in Hu as (e & ->). exists e. reflexivity.
      * assert (Hrest : exists e, print_analysis rest = Raise e)
          by (apply IH; exists dim', record'; split; assumption).
        destruct Hrest as (e & Hrest).
        destruct info as [| b | z | f | s | l | record]; cbn [rbind];
          try (exists e; exact Hrest).
        destruct (print_fields record) as [[]|e']; cbn [rbind];
          [exists e; exact Hrest|exists e'; reflexivity].
Qed.

(** A record that lines 423-427 cannot print fails the request after its
    entry was logged: when the scoring, the report and the reconciliation
    have succeeded and the subjective analysis holds such a record, the
    response is 500 without data, and the log has grown by the entry of the
    reconciled result.  And a response 500 that left an entry in the log came
    after the scoring, the report and the reconciliation had succeeded: the
    entry is that of the reconciled result. *)
Theorem unprintable_record_fails_after_logging E req w w' resp :
  analyze_data E req w = (w', resp) ->
  (forall sc w1 w2 raw r dim record,
      score E req w = (w1, Ok sc) ->
      call_ai_model E (report_prompt req sc) w1 = (w2, Ok raw) ->
      reconcile raw (objective_scores sc) (subjective_result sc) (total_scores sc)
      = Ok r ->
      In (dim, JDict record) (subjective_analysis (subjective_result sc)) ->
      unprintable record ->
      code resp = 500%Z /\ data resp = None
      /\ exists entry,
           is_entry (user_info req) r entry
           /\ analysis_results w' = analysis_results w ++ [entry])
  /\ (code resp = 500%Z -> analysis_results w' <> analysis_results w ->
      exists sc w1 w2 raw r entry,
        score E req w = (w1, Ok sc)
        /\ call_ai_model E (report_prompt req sc) w1 = (w2, Ok raw)
        /\ reconcile raw (objective_scores sc) (subjective_result sc) (total_scores sc)
           = Ok r
        /\ is_entry (user_info req) r entry
        /\ analysis_results w' = analysis_results w ++ [entry]).
Proof.
  unfold analyze_data, analyze, mbind.
  pose proof (keeps_log_score E req w) as Hlog1.
  destruct (score E req w) as [w1 [sc|e]]; cbn [fst] in Hlog1.
  2:{ intros H. injection H as <- <-. split.
      - intros sc w1' w2 raw r dim record Hs. discriminate Hs.
      - intros _ Hne. contradiction. }
  pose proof (keeps_log_call E (report_prompt req sc) w1) as Hlog2.
  destruct (call_ai_model E (report_prompt req sc) w1) as [w2 [raw|e]] eqn:Hcall;
    cbn [fst] in Hlog2.
  2:{ intros H. injection H as <- <-. split.
      - intros sc' w1' w2' raw r dim record Hs Hc.
        injection Hs as <- <-. rewrite Hcall in Hc. discriminate Hc.
      - intros _ Hne. exfalso. apply Hne. congruence. }
  unfold finish_report, mbind, lift.
  destruct (reconcile raw (objective_scores sc) (subjective_result sc) (total_scores sc))
    as [r|e] eqn:Hrec.
  2:{ intros H. injection H as <- <-. split.
      - intros sc' w1' w2' raw' r dim record Hs Hc Hr.
        injection Hs as <- <-. rewrite Hcall in Hc. injection Hc as <- <-.
        rewrite Hrec in Hr. discriminate Hr.
      - intros _ Hne. exfalso. apply Hne. congruence. }
  rewrite store_ok.
  assert (Hentry : exists entry,
             is_entry (user_info req) r entry
             /\ analysis_results w2
                ++ [JDict [(u "username",
                             get_default (user_info req) (u "username") (JStr (u "unknown")));
                           (u "result", r);
                           (u "timestamp", JFloat (time_time E (clock_reads w2)))]]
                = analysis_results w ++ [entry]).
  { eexists. split; [eexists; reflexivity|]. rewrite Hlog2, Hlog1. reflexivity. }
  destruct (print_analysis (subjective_analysis (subjective_result sc))) as [[]|e] eqn:Hp;
    cbn [mret]; intros H; injection H as <- <-; cbn [code data analysis_results]; split.
  - intros sc' w1' w2' raw' r' dim record Hs _ _ Hin Hu.
    injection Hs as <- <-.
    assert (Hr : exists e, print_analysis (subjective_analysis (subjective_result sc))
                           = Raise e)
      by (apply print_analysis_raises; exists dim, record; split; assumption).
    destruct Hr as (e & Hr). rewrite Hr in Hp. discriminate Hp.
  - intros Hcode. discriminate Hcode.
  - intros sc' w1' w2' raw' r' dim record Hs Hc Hr _ _.
    injection Hs as <- <-. rewrite Hcall in Hc. injection Hc as <- <-.
    rewrite Hrec in Hr. injection Hr as <-.
    split; [reflexivity|]. split; [reflexivity|]. exact Hentry.
  - intros _ _. destruct Hentry as (entry & He & Hlog).
    exists sc, w1, w2, raw, r, entry. repeat split; assumption.
Qed.

End Printing.

Section PrintingExample.

#[local] Existing Instance plain_floats.
#[local] Existing Instance plain_runtime.

(** The service returns its analysis as an object: the request is answered
    500 and has left its entry. *)
Lemma unprintable_record_fails_after_logging_witness :
  code (snd (analyze_data structured mixed_request fresh_world)) = 500%Z
  /\ data (snd (analyze_data structured mixed_request fresh_world)) = None
  /\ List.length (analysis_results (fst (analyze_data structured mixed_request fresh_world)))
     = 1%nat.
Proof.
  destruct (score structured mixed_request fresh_world) as [w1 [sc|e]] eqn:Hs;
    [|vm_compute in Hs; discriminate Hs].
  destruct (call_ai_model structured (report_prompt mixed_request sc) w1)
    as [w2 [raw|e]] eqn:Hc;
    [|vm_compute in Hs; injection Hs as <- <-; vm_compute in Hc; discriminate Hc].
  destruct (reconcile raw (objective_scores sc) (subjective_result sc) (total_scores sc))
    as [r|e] eqn:Hr;
    [|vm_compute in Hs; injection Hs as <- <-; vm_compute in Hc; injection Hc as <- <-;
      vm_compute in Hr; discriminate Hr].
  destruct (proj1 (@unprintable_record_fails_after_logging plain_floats plain_runtime
                     structured mixed_request fresh_world
                     (fst (analyze_data structured mixed_request fresh_world))
                     (snd (analyze_data structured mixed_request fresh_world))
                     (surjective_pairing _))
              sc w1 w2 raw r (u "R")
              [(u "score", JInt 3%Z);
               (u "analysis", JDict [(u "logic", JStr (u "sound"))])]
              Hs Hc Hr)
    as (Hcode & Hdata & entry & _ & Hlog).
  - vm_compute in Hs. injection Hs as <- <-. vm_compute. left. reflexivity.
  - left. exists (JDict [(u "logic", JStr (u "sound"))]).
    split; [right; left; reflexivity|]. split; [reflexivity|].
    split; intros x; discriminate.
  - split; [exact Hcode|]. split; [exact Hdata|]. rewrite Hlog. reflexivity.
Defined.

End PrintingExample.

(** ** Questions that do not score *)

Section SingleChoiceOnly.

Context {F : PyFloat} {R : PyRuntime}.

(** Options are read off a question only when its type is [single_choice]
    and it has an [options] field (line 128). *)
Lemma format_question_no_options i q fq :
  format_question i q = Ok fq ->
  py_eq (question_type q) (JStr (u "single_choice")) = false
  \/ dict_mem (u "options") q = false ->
  q_options fq = [].
Proof.
  unfold format_question. fold (question_type q). intros H Hno.
  assert (Hc : existsb (py_eq (question_type q)) [JStr (u "single_choice")]
               && dict_mem (u "options") q = false).
  { cbn [existsb]. destruct Hno as [-> | ->]; [reflexivity|apply andb_false_r]. }
  rewrite Hc in H. cbn [rbind] in H. injection H as <-. reflexivity.
Qed.

Lemma format_questions_in i qs fqs fq :
  format_questions i qs = Ok fqs -> In fq fqs ->
  exists j q, In q qs /\ format_question j q = Ok fq.
Proof.
  revert i fqs. induction qs as [|q rest IH]; intros i fqs H Hin.
  - injection H as <-. contradiction.
  - cbn [format_questions] in H.
    apply rbind_ok in H as (fq0 & Hq & H). apply rbind_ok in H as (fqs' & Hr & H).
    injection H as <-. destruct Hin as [<-|Hin].
    + exists i, q. split; [left; reflexivity|exact Hq].
    + destruct (IH _ _ Hr Hin) as (j & q' & Hq' & Hf).
      exists j, q'. split; [right; exact Hq'|exact Hf].
Qed.

(** A pair without a resolved choice leaves the scores as they are. *)
Lemma add_objective_unchosen acc qa acc' :
  add_objective acc qa = Ok acc' -> qa_user_choice qa = None -> acc' = acc.
Proof.
  unfold add_objective. intros H Hn. rewrite Hn in H.
  apply rbind_ok in H as (dimension & _ & H).
  destruct dimension; injection H as <-; reflexivity.
Qed.

Lemma score_objective_unchosen d pairs :
  forall acc acc',
    score_objective acc pairs = Ok acc' ->
    (forall qa, In qa pairs -> qa_dimension qa = JStr d -> qa_user_choice qa = None) ->
    dict_get d acc' = dict_get d acc.
Proof.
  induction pairs as [|qa rest IH]; intros acc acc' H Hno.
  - injection H as <-. reflexivity.
  - cbn [score_objective] in H. apply rbind_ok in H as (acc1 & H1 & H).
    rewrite (IH _ _ H) by (intros qa' Hin; apply Hno; right; exact Hin).
    assert (Hdec : qa_dimension qa = JStr d \/ qa_dimension qa <> JStr d).
    { destruct (qa_dimension qa) as [| | | |s| |]; try (right; discriminate).
      destruct (pystr_eqb s d) eqn:Es.
      - apply pystr_eqb_eq in Es. left. congruence.
      - apply pystr_eqb_neq in Es. right. congruence. }
    destruct Hdec as [Hd|Hd].
    + apply add_objective_unchosen in H1; [subst acc1; reflexivity|].
      apply Hno; [left; reflexivity|exact Hd].
    + apply add_objective_other in H1 as [_ H1]. apply H1. exact Hd.
Qed.

(** Only [single_choice] questions score: a dimension all of whose
    questions have another type, or no [options] field, has the objective
    score 0, whatever was answered. *)
Theorem only_single_choice_scores E req w w' resp d :
  analyze_data E req w = (w', resp) -> code resp = 200%Z -> In d DIMS ->
  (forall q, In q (questions req) -> question_dimension q = JStr d ->
     py_eq (question_type q) (JStr (u "single_choice")) = false
     \/ dict_mem (u "options") q = false) ->
  score_in resp (u "objective_scores") d = Some (JInt 0%Z).
Proof.
  intros H Hcode Hd Hno.
  destruct (success_facts _ _ _ H Hcode)
    as (sc & r & w1 & w2 & -> & Hscore & _ & _ & _ & Hobj & _).
  unfold score_in, data_field. cbn [data]. rewrite Hobj.
  apply score_ok in Hscore as (fqs & Hf & Hpairs & Hso & _).
  rewrite score_objective_unchosen
    with (d := d) (pairs := objective_qa_pairs sc) (acc := zero_scores)
         (acc' := objective_scores sc); [|exact Hso|].
  - cbv in Hd. repeat (destruct Hd as [<-|Hd]; [reflexivity|]). contradiction.
  - rewrite Hpairs. intros qa' Hin Hdim.
    apply in_map_iff in Hin as (qa & <- & Hin).
    rewrite resolve_choice_dimension in Hdim.
    pose proof Hin as Hsplit.
    apply split_pairs_objective in Hsplit as (Hnone & fq & Hfq & Hqd & Hqo & _).
    edestruct format_questions_in as (j & q & Hq & Hfmt); [exact Hf|exact Hfq|].
    pose proof Hfmt as Hfields.
    apply format_question_fields in Hfields as (_ & _ & Hfd).
    assert (Hopts : q_options fq = []).
    { apply format_question_no_options with (i := j) (q := q); [exact Hfmt|].
      apply Hno; [exact Hq|]. rewrite <- Hfd, <- Hqd. exact Hdim. }
    rewrite resolve_choice_choice by exact Hnone.
    rewrite Hqo, Hopts. reflexivity.
Qed.

End SingleChoiceOnly.

Section SingleChoiceExample.

#[local] Existing Instance plain_floats.
#[local] Existing Instance plain_runtime.

Lemma only_single_choice_scores_witness :
  code (snd (analyze_data generous multiple_choice_request fresh_world)) = 200%Z
  /\ score_in (snd (analyze_data generous multiple_choice_request fresh_world))
       (u "objective_scores") (u "R") = Some (JInt 0%Z).
Proof.
  split; [vm_compute; reflexivity|].
  apply (@only_single_choice_scores plain_floats plain_runtime generous
           multiple_choice_request fresh_world
           (fst (analyze_data generous multiple_choice_request fresh_world))
           (snd (analyze_data generous multiple_choice_request fresh_world)) (u "R")).
  - apply surjective_pairing.
  - vm_compute. reflexivity.
  - left. reflexivity.
  - intros q [<-|[]] _. left. vm_compute. reflexivity.
Defined.

End SingleChoiceExample.

(** ** The log is never read *)

Section LogBlind.

Context {F : PyFloat} {R : PyRuntime}.

Lemma log_blind_lift A (r : result A) : log_blind (lift r).
Proof. intros w w' H. cbn. auto. Qed.

Lemma log_blind_mret A (a : A) : log_blind (mret a).
Proof. intros w w' H. cbn. auto. Qed.

Lemma log_blind_mbind A B (m : M A) (k : A -> M B) :
  log_blind m -> (forall a, log_blind (k a)) -> log_blind (mbind m k).
Proof.
  intros Hm Hk w w' H. unfold mbind. destruct (Hm w w' H) as [Hr Hc].
  destruct (m w) as [w1 [a|e]], (m w') as [w1' [a'|e']]; cbn [fst snd] in *;
    try discriminate Hr.
  - injection Hr as <-. apply Hk. exact Hc.
  - injection Hr as <-. split; [reflexivity|exact Hc].
Qed.

Lemma log_blind_call E p : log_blind (call_ai_model E p).
Proof.
  intros w w' H. unfold call_ai_model. rewrite H.
  destruct (create E (calls w') p) as [msg|[|[content|] rest]]; cbn; auto.
Qed.

Lemma log_blind_dimension E dim dr s : log_blind (score_dimension E dim dr s).
Proof.
  intros w w' H. unfold score_dimension.
  destruct (dict_get dim dr) as [responses|]; [|cbn; auto].
  destruct (py_truthy responses); cbn [negb]; [|cbn; auto].
  destruct (log_blind_call E (SubjectivePrompt dim responses) w w' H) as [Hr Hc].
  destruct (call_ai_model E (SubjectivePrompt dim responses) w) as [w1 [a|e]],
    (call_ai_model E (SubjectivePrompt dim responses) w') as [w1' [a'|e']];
    cbn [fst snd] in *; try discriminate Hr.
  - injection Hr as <-. destruct (record_result dim a s) as [s' [e|]]; cbn; auto.
  - injection Hr as <-. cbn. auto.
Qed.

Lemma log_blind_dimensions E dims dr :
  forall s, log_blind (score_dimensions E dims dr s).
Proof.
  induction dims as [|dim rest IH]; intros s; cbn [score_dimensions].
  - apply log_blind_mret.
  - apply log_blind_mbind; [apply log_blind_dimension|exact IH].
Qed.

Lemma log_blind_score E req : log_blind (score E req).
Proof.
  unfold score. apply log_blind_mbind; [apply log_blind_lift|]. intros fqs.
  destruct (split_pairs (answers req) fqs) as [o0 sq].
  apply log_blind_mbind; [apply log_blind_lift|]. intros obj.
  apply log_blind_mbind.
  - unfold score_subjective. destruct sq; [apply log_blind_mret|].
    apply log_blind_mbind; [apply log_blind_lift|]. intros dr.
    apply log_blind_dimensions.
  - intros s. apply log_blind_mbind; [apply log_blind_lift|]. intros total.
    apply log_blind_mret.
Qed.

Lemma log_blind_store E info r : log_blind (store E info r).
Proof. intros w w' H. rewrite !store_ok. cbn. auto. Qed.

Lemma log_blind_analyze E req : log_blind (analyze E req).
Proof.
  unfold analyze. apply log_blind_mbind; [apply log_blind_score|]. intros sc.
  apply log_blind_mbind; [apply log_blind_call|]. intros raw.
  unfold finish_report.
  apply log_blind_mbind; [apply log_blind_lift|]. intros r.
  apply log_blind_mbind; [apply log_blind_store|]. intros [].
  apply log_blind_mbind; [apply log_blind_lift|]. intros [].
  apply log_blind_mret.
Qed.

(** The handler writes the log and never reads it: two states of the
    process that differ only in the log and the clock get the same response
    to the same request. *)
Theorem responses_ignore_the_log E req w w' :
  calls w = calls w' ->
  snd (analyze_data E req w) = snd (analyze_data E req w').
Proof.
  intros H. unfold analyze_data. destruct (log_blind_analyze E req w w' H) as [Hr _].
  destruct (analyze E req w) as [w1 [a|e]], (analyze E req w') as [w1' [a'|e']];
    cbn [snd] in *; try discriminate Hr; injection Hr as <-; reflexivity.
Qed.

End LogBlind.

Section LogBlindExample.

#[local] Existing Instance plain_floats.
#[local] Existing Instance plain_runtime.

Lemma responses_ignore_the_log_witness :
  snd (analyze_data generous mixed_request fresh_world)
  = snd (analyze_data generous mixed_request used_world).
Proof.
  apply (@responses_ignore_the_log plain_floats plain_runtime generous mixed_request
           fresh_world used_world).
  reflexivity.
Defined.

End LogBlindExample.

(** ** Answers no question asks for *)

Section UnmatchedAnswers.

Context {F : PyFloat} {R : PyRuntime}.

Lemma split_pairs_same_answers answers1 answers2 qs :
  forall i fqs,
    format_questions i qs = Ok fqs ->
    (forall j q, nth_error qs j = Some q ->
       dict_get (py_str (question_id (i + j) q)) answers1
       = dict_get (py_str (question_id (i + j) q)) answers2) ->
    split_pairs answers1 fqs = split_pairs answers2 fqs.
Proof.
  induction qs as [|q rest IH]; intros i fqs H Hsame.
  - injection H as <-. reflexivity.
  - cbn [format_questions] in H.
    apply rbind_ok in H as (fq & Hq & H). apply rbind_ok in H as (fqs' & Hr & H).
    injection H as <-.
    apply format_question_fields in Hq as (Hid & _ & _).
    cbn [split_pairs]. rewrite (IH (S i) fqs' Hr).
    + rewrite Hid. specialize (Hsame 0%nat q eq_refl). rewrite Nat.add_0_r in Hsame.
      rewrite Hsame. reflexivity.
    + intros j q' Hj. specialize (Hsame (S j) q' Hj).
      rewrite Nat.add_succ_r in Hsame. exact Hsame.
Qed.

(** Answers are looked up under the ids of the questions, and nowhere
    else: two sets of answers that agree under the id of every question of
    the request get the same response and leave the same state. *)
Theorem unmatched_answers_ignored E info qs answers1 answers2 w :
  (forall i q, nth_error qs i = Some q ->
     dict_get (py_str (question_id i q)) answers1
     = dict_get (py_str (question_id i q)) answers2) ->
  analyze_data E {| user_info := info; questions := qs; answers := answers1 |} w
  = analyze_data E {| user_info := info; questions := qs; answers := answers2 |} w.
Proof.
  intros Hsame. unfold analyze_data, analyze, score, mbind, lift.
  cbn [questions answers].
  destruct (format_questions 0 qs) as [fqs|e] eqn:Hf; [|reflexivity].
  rewrite (split_pairs_same_answers answers1 answers2 qs 0 Hf Hsame).
  reflexivity.
Qed.

End UnmatchedAnswers.

Section UnmatchedAnswersExample.

#[local] Existing Instance plain_floats.
#[local] Existing Instance plain_runtime.

Lemma unmatched_answers_ignored_witness :
  analyze_data generous
    {| user_info := user_info mixed_request;
       questions := questions mixed_request;
       answers := answers mixed_request |} fresh_world
  = analyze_data generous
      {| user_info := user_info mixed_request;
         questions := questions mixed_request;
         answers := answers mixed_request ++ [(u "99", JStr (u "stray"))] |} fresh_world.
Proof.
  apply (@unmatched_answers_ignored plain_floats plain_runtime generous
           (user_info mixed_request) (questions mixed_request)
           (answers mixed_request)
           (answers mixed_request ++ [(u "99", JStr (u "stray"))]) fresh_world).
  intros [|[|[|i]]] q Hq; cbn in Hq; try discriminate Hq;
    injection Hq as <-; vm_compute; reflexivity.
Defined.

End UnmatchedAnswersExample.

(** ** Requests that cannot fail before the report *)

Section ObjectiveRequests.

Context {F : PyFloat} {R : PyRuntime}.

Lemma format_options_sound l :
  Forall sound_option l ->
  forall j, exists opts,
    format_options j l = Ok opts
    /\ Forall (fun o => exists n, opt_score o = JInt n) opts.
Proof.
  induction 1 as [|o rest (fields & n & -> & Hn) _ IH]; intros j.
  - exists []. split; [reflexivity|constructor].
  - destruct (IH (S j)) as (opts & Hopts & Hall).
    cbn [format_options py_get rbind]. rewrite Hopts. cbn [rbind].
    eexists. split; [reflexivity|]. constructor; [|exact Hall].
    cbn [opt_score]. exists n. exact Hn.
Qed.

Lemma format_question_sound i q :
  objective_question q ->
  exists fq,
    format_question i q = Ok fq
    /\ is_subjective (q_type fq) = false
    /\ hashable (q_dimension fq)
    /\ Forall (fun o => exists n, opt_score o = JInt n) (q_options fq).
Proof.
  intros (Hsub & Hhash & Hopts). unfold format_question.
  fold (question_type q). fold (question_dimension q).
  cbn [existsb]. rewrite orb_false_r.
  destruct (py_eq (question_type q) (JStr (u "single_choice"))) eqn:Hty; cbn [andb].
  - unfold dict_mem, get_default.
    destruct (dict_get (u "options") q) as [options|] eqn:Ho.
    + destruct (Hopts eq_refl options eq_refl) as (l & -> & Hl).
      cbn [py_iter rbind].
      destruct (format_options_sound Hl 0) as (opts & -> & Hall).
      cbn [rbind]. eexists. split; [reflexivity|]. cbn. auto.
    + cbn [rbind]. eexists. split; [reflexivity|]. cbn. auto.
  - cbn [rbind]. eexists. split; [reflexivity|]. cbn. auto.
Qed.

Lemma format_questions_sound qs :
  Forall objective_question qs ->
  forall i, exists fqs,
    format_questions i qs = Ok fqs
    /\ Forall (fun fq => is_subjective (q_type fq) = false
                         /\ hashable (q_dimension fq)
                         /\ Forall (fun o => exists n, opt_score o = JInt n) (q_options fq))
         fqs.
Proof.
  induction 1 as [|q rest Hq _ IH]; intros i.
  - exists []. split; [reflexivity|constructor].
  - destruct (format_question_sound i Hq) as (fq & Hfq & Hfacts).
    destruct (IH (S i)) as (fqs & Hfqs & Hall).
    cbn [format_questions]. rewrite Hfq. cbn [rbind]. rewrite Hfqs. cbn [rbind].
    eexists. split; [reflexivity|]. constructor; assumption.
Qed.

Lemma no_subjective_pairs submitted fqs :
  Forall (fun fq => is_subjective (q_type fq) = false) fqs ->
  snd (split_pairs submitted fqs) = [].
Proof.
  induction 1 as [|fq rest Hfq _ IH]; [reflexivity|].
  cbn [split_pairs]. destruct (split_pairs submitted rest) as [o s]. cbn [snd] in IH.
  rewrite Hfq. destruct (dict_get (py_str (q_id fq)) submitted); exact IH.
Qed.

Lemma add_scores_sound dims (o : dict) :
  (forall d, In d dims -> exists n, dict_get d o = Some (JInt n)) ->
  (forall d, In d dims -> dict_get d zero_scores = Some (JInt 0%Z)) ->
  forall acc, exists t, add_scores dims o zero_scores acc = Ok t.
Proof.
  induction dims as [|d rest IH]; intros Ho Hz acc.
  - exists acc. reflexivity.
  - destruct (Ho d (or_introl eq_refl)) as (n & Hn).
    cbn [add_scores py_getitem]. rewrite Hn, (Hz d (or_introl eq_refl)).
    cbn [rbind py_add as_int].
    apply IH; intros d' Hd'; [apply Ho|apply Hz]; right; exact Hd'.
Qed.

Lemma overwrite_scores_sound total items :
  (forall d detail, In (d, detail) items -> dict_mem d total = true ->
                    exists fields, detail = JDict fields) ->
  exists items', overwrite_scores total items = Ok items'.
Proof.
  induction items as [|[k detail] rest IH]; intros H.
  - exists []. reflexivity.
  - destruct IH as (rest' & Hrest).
    { intros d detail' Hin. apply H. right. exact Hin. }
    cbn [overwrite_scores]. destruct (dict_get k total) as [t|] eqn:Hk.
    + destruct (H k detail (or_introl eq_refl)) as (fields & ->).
      { unfold dict_mem. rewrite Hk. reflexivity. }
      cbn [py_setitem rbind]. rewrite Hrest. cbn [rbind]. eexists. reflexivity.
    + cbn [rbind]. rewrite Hrest. cbn [rbind]. eexists. reflexivity.
Qed.

Lemma reconcile_sound report obj s total :
  sound_report report -> keys total = DIMS ->
  exists r, reconcile (JDict report) obj s total = Ok r.
Proof.
  intros Hsound Hkeys. unfold reconcile. cbn [py_setitem rbind py_contains].
  set (r3 := dict_set (dict_set (dict_set report (u "objective_scores") (JDict obj))
                         (u "subjective_scores") (JDict (subjective_scores s)))
               (u "dimension_scores") (JDict total)).
  assert (Hd3 : dict_get (u "dimensions") r3 = dict_get (u "dimensions") report).
  { unfold r3. rewrite !dict_get_set_other by distinct_keys. reflexivity. }
  unfold dict_mem. rewrite Hd3. unfold sound_report in Hsound.
  destruct (dict_get (u "dimensions") report) as [dims|] eqn:Hdims.
  - destruct Hsound as (items & -> & Hitems).
    cbn [py_getitem]. rewrite Hd3. cbn [rbind py_items].
    edestruct overwrite_scores_sound with (total := total) (items := items)
      as (items' & ->).
    { intros d detail Hin Hm. apply (Hitems d detail Hin).
      rewrite <- Hkeys. apply dict_mem_keys. exact Hm. }
    cbn [rbind]. eexists. reflexivity.
  - cbn [rbind]. eexists. reflexivity.
Qed.

(** A request of objective questions is scored without the service and
    cannot fail before the report: the scoring returns, in the state it
    started from; and when the report call then returns an object that can
    be reconciled, the response is a success. *)
Theorem objective_request_succeeds E req w :
  Forall objective_question (questions req) ->
  exists sc,
    score E req w = (w, Ok sc)
    /\ subjective_analysis (subjective_result sc) = []
    /\ forall w2 report,
         call_ai_model E (report_prompt req sc) w = (w2, Ok (JDict report)) ->
         sound_report report ->
         code (snd (analyze_data E req w)) = 200%Z.
Proof.
  intros Hqs.
  destruct (format_questions_sound Hqs 0) as (fqs & Hf & Hall).
  assert (Hnosub : snd (split_pairs (answers req) fqs) = []).
  { apply no_subjective_pairs. eapply Forall_impl; [|exact Hall]. intros fq H. apply H. }
  assert (Hpairs : forall qa, In qa (fst (split_pairs (answers req) fqs)) ->
             qa_user_choice qa = None /\ hashable (qa_dimension qa)
             /\ forall o, In o (qa_options qa) -> exists n, opt_score o = JInt n).
  { intros qa Hin. apply split_pairs_objective in Hin as (Hnone & fq & Hfq & Hd & Ho & _).
    rewrite Forall_forall in Hall. destruct (Hall fq Hfq) as (_ & Hhash & Hopts).
    split; [exact Hnone|]. split; [rewrite Hd; exact Hhash|].
    rewrite Ho. rewrite Forall_forall in Hopts. exact Hopts. }
  assert (Hz : forall d v, dict_get d zero_scores = Some v -> exists n, v = JInt n).
  { intros d v. cbn [zero_scores dict_get].
    repeat match goal with
           | |- context [pystr_eqb d ?k] => destruct (pystr_eqb d k)
           end; intros H; try discriminate H; injection H as <-; eauto. }
  edestruct score_objective_sum
    with (pairs := fst (split_pairs (answers req) fqs)) (acc := zero_scores)
    as (obj & Hobj & Hkeys & Hsum).
  { intros qa Hin. apply (Hpairs qa Hin). }
  { intros qa Hin. apply (Hpairs qa Hin). }
  { intros qa o Hin. apply (Hpairs qa Hin). }
  { exact Hz. }
  assert (Hzero : forall d, In d DIMS -> dict_get d zero_scores = Some (JInt 0%Z)).
  { intros d Hd. cbv in Hd. repeat (destruct Hd as [<-|Hd]; [reflexivity|]). contradiction. }
  edestruct add_scores_sound with (dims := DIMS) (o := obj) (acc := @nil (pystr * json))
    as (total & Htotal).
  { intros d Hd. eexists. apply Hsum. apply Hzero. exact Hd. }
  { exact Hzero. }
  set (s0 := {| subjective_analysis := []; subjective_scores := zero_scores |}).
  set (sc := {| objective_qa_pairs := map resolve_choice (fst (split_pairs (answers req) fqs));
                objective_scores := obj;
                subjective_result := s0;
                total_scores := total |}).
  assert (Hscore : score E req w = (w, Ok sc)).
  { unfold score, mbind, lift. rewrite Hf.
    destruct (split_pairs (answers req) fqs) as [o0 sq] eqn:Hsplit.
    cbn [fst snd] in *. subst sq. rewrite Hobj.
    unfold score_subjective, mret. cbn [subjective_scores]. rewrite Htotal.
    reflexivity. }
  exists sc. split; [exact Hscore|]. split; [reflexivity|].
  intros w2 report Hcall Hsound.
  assert (Hkt : keys total = DIMS).
  { apply total_scores_keys in Hscore as [Hk _]. exact Hk. }
  edestruct reconcile_sound with (report := report) (obj := obj) (s := s0) (total := total)
    as (r & Hr); [exact Hsound|exact Hkt|].
  unfold analyze_data, analyze, mbind. rewrite Hscore, Hcall.
  unfold finish_report, mbind, lift. cbn [objective_scores subjective_result total_scores sc].
  rewrite Hr, store_ok. cbn. reflexivity.
Qed.

End ObjectiveRequests.

Section ObjectiveRequestExample.

#[local] Existing Instance plain_floats.
#[local] Existing Instance plain_runtime.

Lemma objective_request_succeeds_witness :
  exists sc,
    score generous objective_request fresh_world = (fresh_world, Ok sc)
    /\ code (snd (analyze_data generous objective_request fresh_world)) = 200%Z.
Proof.
  destruct (@objective_request_succeeds plain_floats plain_runtime generous
              objective_request fresh_world) as (sc & Hscore & _ & Hreport).
  - constructor; [|constructor].
    split; [vm_compute; reflexivity|]. split; [exact I|].
    intros _ options Ho. vm_compute in Ho. injection Ho as <-.
    eexists. split; [reflexivity|].
    constructor; [|constructor; [|constructor]];
      eexists _, _; (split; [reflexivity|vm_compute; reflexivity]).
  - exists sc. split; [exact Hscore|].
    apply (Hreport {| calls := 1; clock_reads := 0; analysis_results := [] |} []).
    + unfold call_ai_model. cbn. reflexivity.
    + exact I.
Defined.

End ObjectiveRequestExample.

(** ** A dimension that cannot be hashed *)

Section UnhashableDimension.

Context {F : PyFloat} {R : PyRuntime}.

(** An answered question that is not subjective has an objective pair. *)
Lemma objective_pair_of_question submitted qs :
  forall i fqs j q,
    format_questions i qs = Ok fqs ->
    nth_error qs j = Some q ->
    dict_mem (py_str (question_id (i + j) q)) submitted = true ->
    is_subjective (question_type q) = false ->
    exists qa, In qa (fst (split_pairs submitted fqs))
               /\ qa_dimension qa = question_dimension q.
Proof.
  induction qs as [|q0 rest IH]; intros i fqs j q H Hnth Hans Hsub.
  - destruct j; discriminate Hnth.
  - cbn [format_questions] in H.
    apply rbind_ok in H as (fq & Hq & H). apply rbind_ok in H as (fqs' & Hr & H).
    injection H as <-.
    apply format_question_fields in Hq as (Hid & Hty & Hdim).
    cbn [split_pairs]. destruct (split_pairs submitted fqs') as [o s] eqn:Hsplit.
    destruct j as [|j].
    + injection Hnth as ->. rewrite Nat.add_0_r in Hans. rewrite Hid, Hty, Hsub.
      unfold dict_mem in Hans.
      destruct (dict_get (py_str (question_id i q)) submitted) as [answer|];
        [|discriminate Hans].
      eexists. split; [left; reflexivity|]. cbn [qa_dimension]. exact Hdim.
    + rewrite Nat.add_succ_r in Hans.
      destruct (IH (S i) fqs' j q Hr Hnth Hans Hsub) as (qa & Hin & Hd).
      rewrite Hsplit in Hin. cbn [fst] in Hin.
      exists qa. split; [|exact Hd].
      destruct (dict_get (py_str (q_id fq)) submitted); [|exact Hin].
      destruct (is_subjective (q_type fq)); cbn [fst]; [exact Hin|right; exact Hin].
Qed.

(** A pair whose dimension cannot be hashed stops the objective scoring. *)
Lemma score_objective_unhashable pairs qa :
  In qa pairs -> ~ hashable (qa_dimension qa) ->
  forall acc, exists e, score_objective acc pairs = Raise e.
Proof.
  induction pairs as [|qa0 rest IH]; intros Hin Hun acc; [contradiction|].
  cbn [score_objective].
  destruct (add_objective acc qa0) as [acc1|e] eqn:Ha; [|exists e; reflexivity].
  cbn [rbind]. destruct Hin as [->|Hin]; [|apply IH; assumption].
  exfalso. unfold add_objective, dimension_key, py_key_in in Ha.
  destruct (qa_dimension qa); cbn [rbind] in Ha; try discriminate Ha;
    apply Hun; exact I.
Qed.

(** A list, or an object, for the dimension of an answered question that
    is not subjective fails the request: the response is 500, and neither the
    service nor the log has been touched. *)
Theorem unhashable_objective_dimension_fails E req w i q :
  nth_error (questions req) i = Some q ->
  dict_mem (py_str (question_id i q)) (answers req) = true ->
  is_subjective (question_type q) = false ->
  ~ hashable (question_dimension q) ->
  code (snd (analyze_data E req w)) = 500%Z
  /\ fst (analyze_data E req w) = w.
Proof.
  intros Hnth Hans Hsub Hun.
  assert (Hscore : exists e, score E req w = (w, Raise e)).
  { unfold score, mbind, lift.
    destruct (format_questions 0 (questions req)) as [fqs|e] eqn:Hf;
      [|exists e; reflexivity].
    edestruct objective_pair_of_question with (i := 0%nat) (j := i)
      as (qa & Hin & Hd); [exact Hf|exact Hnth|exact Hans|exact Hsub|].
    destruct (split_pairs (answers req) fqs) as [o0 sq]. cbn [fst] in Hin.
    edestruct score_objective_unhashable
      with (pairs := map resolve_choice o0) (qa := resolve_choice qa) (acc := zero_scores)
      as (e & ->).
    - apply in_map. exact Hin.
    - rewrite resolve_choice_dimension, Hd. exact Hun.
    - exists e. reflexivity. }
  destruct Hscore as (e & Hscore).
  unfold analyze_data, analyze, mbind. rewrite Hscore. cbn. auto.
Qed.

End UnhashableDimension.

Section UnhashableExample.

#[local] Existing Instance plain_floats.
#[local] Existing Instance plain_runtime.

Lemma unhashable_objective_dimension_fails_witness :
  code (snd (analyze_data generous two_dimension_request fresh_world)) = 500%Z
  /\ fst (analyze_data generous two_dimension_request fresh_world) = fresh_world.
Proof.
  apply (@unhashable_objective_dimension_fails plain_floats plain_runtime generous
           two_dimension_request fresh_world 0%nat two_dimension_question).
  - reflexivity.
  - vm_compute. reflexivity.
  - vm_compute. reflexivity.
  - intros H. exact H.
Defined.

End UnhashableExample.

(** ** Examples for the extractor and the grouping *)

Section ExtractorExamples.

#[local] Existing Instance plain_floats.
#[local] Existing Instance plain_runtime.

Lemma extract_returns_container_witness :
  extract (u "[1, 2]") = Ok (JList [JInt 1%Z; JInt 2%Z])
  /\ existsb (py_eq (JStr (u "dimensions"))) [JInt 1%Z; JInt 2%Z] = false.
Proof.
  assert (H : extract (u "[1, 2]") = Ok (JList [JInt 1%Z; JInt 2%Z]))
    by (vm_compute; reflexivity).
  split; [exact H|].
  exact (@extract_returns_container plain_floats (u "[1, 2]")
           (JList [JInt 1%Z; JInt 2%Z]) H).
Defined.

Lemma dimension_scores_flattened_witness :
  exists d scores,
    extract scored_report = Ok (JDict d)
    /\ dict_get (u "dimension_scores") d = Some (JDict scores)
    /\ dict_get (u "R") scores = Some (JInt 85%Z)
    /\ dict_get (u "E") scores = None.
Proof.
  destruct (extract scored_report) as [[| | | | | |d]|e] eqn:H;
    try (vm_compute in H; discriminate H).
  assert (Hd : exists dims, dict_get (u "dimensions") d = Some dims).
  { pose proof H as H'. vm_compute in H'. injection H' as <-. eexists. reflexivity. }
  destruct Hd as (dims & Hd).
  destruct (@dimension_scores_flattened plain_floats scored_report d dims H Hd)
    as (items & scores & _ & Hs & _).
  exists d, scores. split; [reflexivity|]. split; [exact Hs|].
  vm_compute in H. injection H as <-. vm_compute in Hs. injection Hs as <-.
  split; reflexivity.
Defined.

Lemma blank_content_rejected_witness :
  extract [32; 10; 9] = Raise (JSONDecodeError [32; 10; 9]).
Proof.
  apply (@blank_content_rejected plain_floats [32; 10; 9]). reflexivity.
Defined.

Lemma responses_grouped_witness :
  exists dimension_responses,
    group_responses [repeated_pair] empty_responses = Ok dimension_responses
    /\ dict_get (u "R") dimension_responses
       = Some (JList [response_of repeated_pair; response_of repeated_pair])
    /\ dict_get (u "A") dimension_responses = Some (JList []).
Proof.
  destruct (group_responses [repeated_pair] empty_responses) as [dr|e] eqn:H;
    [|vm_compute in H; discriminate H].
  destruct (@responses_grouped plain_floats [repeated_pair] dr H) as [_ Hget].
  exists dr. split; [reflexivity|]. split.
  - rewrite (Hget (u "R")); [reflexivity|]. left. reflexivity.
  - rewrite (Hget (u "A")); [reflexivity|]. right. right. left. reflexivity.
Defined.

End ExtractorExamples.
